(** * DUNE: entities, the AMC motor-controller task and the UI-2210-M-GL
      camera task.

    A shallow embedding of
    - [DUNE/Tasks/Entity.hpp]            (class [Entity]),
    - [src/Actuators/AMC/Task.cpp]       (module [AMC]),
    - [src/Vision/UI2210MGL/Task.cpp]    (module [UI2210MGL]),
    followed by the properties of the design document that concern them.

    Conventions.
    - Every duration and every clock reading is an integer number of
      microseconds: [0.5] s is [500000], the watchdog top [10.0] s is
      [10000000], [usleep(250000)] advances the clock by [250000].
    - A C++ exception is a [Raise] that carries the object state reached at
      the [throw]; a null dereference ends the call the same way
      ([NullPointer]). A [sprintf] longer than its buffer does not end the
      call: the text is kept as written, longer than the buffer.
    - Whatever the task hears from outside (readiness of the serial line,
      bytes read, bus messages delivered, the stop flag) is an explicit
      argument of the function that consumes it. *)

From stdpp Require Import base gmap sets list strings pretty.
From Stdlib Require Import ZArith Ascii String Lia.

Local Open Scope Z_scope.

(** ** Exceptions *)

Inductive Exn : Type :=
| NonexistentLabel (label : string)
| DuplicateLabel (label : string)
| RestartNeeded (reason : string) (delay : Z) (global : bool)
| NullPointer
| OpenError (what : string).

(** [Result S A]: a computation over an object of type [S] either returns a
    value or throws, leaving the object as it was at the throw. *)
Inductive Result (S A : Type) : Type :=
| Ok (a : A)
| Raise (e : Exn) (s : S).
Arguments Ok {S A} a.
Arguments Raise {S A} e s.

Definition bind {S A B} (m : Result S A) (k : A -> Result S B) : Result S B :=
  match m with
  | Ok a => k a
  | Raise e s => Raise e s
  end.

Notation "'do' x <- m ; k" := (bind m (fun x => k))
  (at level 10, x name, m at level 100, k at level 200,
   format "'[v' 'do'  x  <-  m ; '/' k ']'").
Notation "'do' ' p <- m ; k" := (bind m (fun x => match x with p => k end))
  (at level 10, p pattern, m at level 100, k at level 200).

Definition is_Ok {S A} (m : Result S A) : bool :=
  match m with Ok _ => true | Raise _ _ => false end.

(** Object identities handed out by [new]. *)
Definition Handle := positive.

(** ** IMC message vocabulary used by the sources *)

Module IMC.

(** [IMC::EntityState::StateEnum]. *)
Inductive StateEnum := ESTA_BOOT | ESTA_NORMAL | ESTA_ERROR | ESTA_FAULT.

(** [IMC::EntityActivationState::StateEnum], the four values the entity
    header tests for. *)
Inductive ActivationEnum := EAS_INACTIVE | EAS_ACT_IP | EAS_ACTIVE | EAS_DEACT_IP.

(** The description of an entity state: the text of a [Status::Code] or a
    free text. *)
Inductive Description :=
| DescNone
| DescCode (code : Z)
| DescText (text : string).

Record EntityState := { state : StateEnum; description : Description }.

(** [IMC::Rpm], of the absent IMC headers: the source entity of the message
    header and the field [value], a signed integer of 16 bits. *)
Record Rpm := { rpm_src : Z; rpm_value : Z }.

(** The value an [int] leaves in a signed field of 16 bits: the integer in
    -32768..32767 congruent to it modulo 65536. *)
Definition to_int16 (z : Z) : Z := (z + 32768) mod 65536 - 32768.

(** [IMC::SetThrusterActuation]. [value] is the integer that the implicit
    conversion to the [int rpm] parameter of [setRPM] yields. *)
Record SetThrusterActuation := { id : Z; value : Z }.

(** What a task publishes on the bus. *)
Inductive Message :=
| MEntityState (src : Z) (s : EntityState)
| MEntityActivationState (src : Z) (s : ActivationEnum)
| MRpm (m : Rpm).

Definition StateEnum_eqb (a b : StateEnum) : bool :=
  match a, b with
  | ESTA_BOOT, ESTA_BOOT | ESTA_NORMAL, ESTA_NORMAL
  | ESTA_ERROR, ESTA_ERROR | ESTA_FAULT, ESTA_FAULT => true
  | _, _ => false
  end.

End IMC.

(** ** Entity (DUNE/Tasks/Entity.hpp) *)

Module Entity.
Import IMC.

Definition DUNE_IMC_CONST_UNK_EID : Z := 255.

Inductive NextActivationState :=
| NAS_SAME      (* keep current activation state *)
| NAS_ACTIVE    (* request activation *)
| NAS_INACTIVE. (* request deactivation *)

(** The data members of the class. [m_owner] is the back-reference through
    which reports are dispatched: every member function below returns the
    messages it hands to the owner. *)
Record Entity := {
  m_id : Z;
  m_label : string;
  m_entity_state : EntityState;
  m_entity_state_code : Z;           (* -1 means none *)
  m_act_state : ActivationEnum;
  m_next_act_state : NextActivationState
}.

(** The constructor [Entity::Entity]. *)
Definition new : Entity :=
  {| m_id := DUNE_IMC_CONST_UNK_EID;
     m_label := "";
     m_entity_state := {| state := ESTA_BOOT; description := DescNone |};
     m_entity_state_code := -1;
     m_act_state := EAS_INACTIVE;
     m_next_act_state := NAS_SAME |}.

Definition getLabel (e : Entity) : string := m_label e.

Definition setLabel (label : string) (e : Entity) : Entity :=
  {| m_id := m_id e; m_label := label;
     m_entity_state := m_entity_state e;
     m_entity_state_code := m_entity_state_code e;
     m_act_state := m_act_state e;
     m_next_act_state := m_next_act_state e |}.

Definition getId (e : Entity) : Z := m_id e.

Definition setId (i : Z) (e : Entity) : Entity :=
  {| m_id := i; m_label := m_label e;
     m_entity_state := m_entity_state e;
     m_entity_state_code := m_entity_state_code e;
     m_act_state := m_act_state e;
     m_next_act_state := m_next_act_state e |}.

Definition getState (e : Entity) : StateEnum := state (m_entity_state e).

Definition isActive (e : Entity) : bool :=
  match m_act_state e with EAS_ACTIVE => true | _ => false end.

Definition isActivating (e : Entity) : bool :=
  match m_act_state e with EAS_ACT_IP => true | _ => false end.

Definition isDeactivating (e : Entity) : bool :=
  match m_act_state e with EAS_DEACT_IP => true | _ => false end.

Definition getActivationState (e : Entity) : ActivationEnum := m_act_state e.

(** Field updates used by the member functions. *)
Definition with_state (s : EntityState) (code : Z) (e : Entity) : Entity :=
  {| m_id := m_id e; m_label := m_label e;
     m_entity_state := s;
     m_entity_state_code := code;
     m_act_state := m_act_state e;
     m_next_act_state := m_next_act_state e |}.

Definition with_act (a : ActivationEnum) (e : Entity) : Entity :=
  {| m_id := m_id e; m_label := m_label e;
     m_entity_state := m_entity_state e;
     m_entity_state_code := m_entity_state_code e;
     m_act_state := a;
     m_next_act_state := m_next_act_state e |}.

Definition with_next (n : NextActivationState) (e : Entity) : Entity :=
  {| m_id := m_id e; m_label := m_label e;
     m_entity_state := m_entity_state e;
     m_entity_state_code := m_entity_state_code e;
     m_act_state := m_act_state e;
     m_next_act_state := n |}.

(** Modelled from the spec: [Entity::reportState] is declared in the header
    and defined in Entity.cpp, which is absent. "emit current state outward;
    pure side effect". *)
Definition reportState (e : Entity) : list Message :=
  [MEntityState (m_id e) (m_entity_state e)].

(** Modelled from the spec: [Entity::reportActivationState] (Entity.cpp is
    absent). *)
Definition reportActivationState (e : Entity) : list Message :=
  [MEntityActivationState (m_id e) (m_act_state e)].

(** Modelled from the spec: [Entity::setState(state, code)] (Entity.cpp is
    absent). "updates operational state; suppresses duplicate outward
    reports when (state, code) is unchanged from the last report; never
    fails". The last reported pair is the one the object holds in
    [m_entity_state.state] and [m_entity_state_code]. *)
Definition setState (st : StateEnum) (code : Z) (e : Entity)
  : Entity * list Message :=
  if StateEnum_eqb st (getState e) && (code =? m_entity_state_code e)
  then (e, [])
  else
    let e' := with_state {| state := st; description := DescCode code |} code e in
    (e', reportState e').

(** Modelled from the spec: [Entity::setState(state, message)] (Entity.cpp
    is absent). A free text has no code to compare with: the cached code
    becomes -1 ("no cached code") and the state is reported. *)
Definition setState_message (st : StateEnum) (message : string) (e : Entity)
  : Entity * list Message :=
  let e' := with_state {| state := st; description := DescText message |} (-1) e in
  (e', reportState e').

(** A request on the activation state machine. *)
Inductive Request := ReqActivation | ReqDeactivation.

Definition slot_of (r : Request) : NextActivationState :=
  match r with ReqActivation => NAS_ACTIVE | ReqDeactivation => NAS_INACTIVE end.

(** A transition is in flight while the entity is activating or
    deactivating. *)
Definition in_flight (e : Entity) : bool := isActivating e || isDeactivating e.

(** Modelled from the spec: [Entity::requestActivation] (Entity.cpp is
    absent). "advance the activation state machine. If a transition is
    already in flight, the request overwrites the single pending next-state
    slot". From Inactive the cycle starts with Activating; an entity that
    is already Active has nothing to advance. *)
Definition requestActivation (e : Entity) : Entity :=
  match m_act_state e with
  | EAS_ACT_IP | EAS_DEACT_IP => with_next NAS_ACTIVE e
  | EAS_INACTIVE => with_act EAS_ACT_IP (with_next NAS_SAME e)
  | EAS_ACTIVE => e
  end.

(** Modelled from the spec: [Entity::requestDeactivation] (Entity.cpp is
    absent), the mirror image of [requestActivation]. *)
Definition requestDeactivation (e : Entity) : Entity :=
  match m_act_state e with
  | EAS_ACT_IP | EAS_DEACT_IP => with_next NAS_INACTIVE e
  | EAS_ACTIVE => with_act EAS_DEACT_IP (with_next NAS_SAME e)
  | EAS_INACTIVE => e
  end.

Definition request (r : Request) (e : Entity) : Entity :=
  match r with
  | ReqActivation => requestActivation e
  | ReqDeactivation => requestDeactivation e
  end.

(** The requests of a list, issued in order. *)
Definition requests (rs : list Request) (e : Entity) : Entity :=
  fold_left (fun acc r => request r acc) rs e.

(** Modelled from the spec: what happens to the pending slot "once the
    in-flight transition resolves" (Entity.cpp is absent): the retained
    request, if any, is taken out of the slot and acted on. *)
Definition act_on_pending (e : Entity) : Entity :=
  match m_next_act_state e with
  | NAS_SAME => e
  | NAS_ACTIVE => requestActivation (with_next NAS_SAME e)
  | NAS_INACTIVE => requestDeactivation (with_next NAS_SAME e)
  end.

(** Modelled from the spec: [Entity::succeedActivation] (Entity.cpp is
    absent). "success moves to Active". *)
Definition succeedActivation (e : Entity) : Entity * list Message :=
  if isActivating e then (act_on_pending (with_act EAS_ACTIVE e), []) else (e, []).

(** Modelled from the spec: [Entity::failActivation] (Entity.cpp is
    absent). "failure reverts to Inactive and sets operational state Error
    with reason". *)
Definition failActivation (reason : string) (e : Entity) : Entity * list Message :=
  if isActivating e then
    let '(e1, out) := setState_message ESTA_ERROR reason (with_act EAS_INACTIVE e) in
    (act_on_pending e1, out)
  else (e, []).

(** Modelled from the spec: [Entity::succeedDeactivation] (Entity.cpp is
    absent), "symmetric for the Deactivating branch". *)
Definition succeedDeactivation (e : Entity) : Entity * list Message :=
  if isDeactivating e then (act_on_pending (with_act EAS_INACTIVE e), []) else (e, []).

(** Modelled from the spec: [Entity::failDeactivation] (Entity.cpp is
    absent): back to Active, operational state Error with the reason. *)
Definition failDeactivation (reason : string) (e : Entity) : Entity * list Message :=
  if isDeactivating e then
    let '(e1, out) := setState_message ESTA_ERROR reason (with_act EAS_ACTIVE e) in
    (act_on_pending e1, out)
  else (e, []).

(** The four ways an in-flight transition resolves. *)
Inductive Outcome :=
| SucceedActivation
| FailActivation (reason : string)
| SucceedDeactivation
| FailDeactivation (reason : string).

Definition resolve (o : Outcome) (e : Entity) : Entity * list Message :=
  match o with
  | SucceedActivation => succeedActivation e
  | FailActivation r => failActivation r e
  | SucceedDeactivation => succeedDeactivation e
  | FailDeactivation r => failDeactivation r e
  end.

End Entity.

(** ** Entity data base (DUNE/Entities/EntityDataBase.hpp) *)

Module Entities.

(** Modelled from the spec: the entity data base behind
    [Task::resolveEntity] and [Task::reserveEntity] is absent. Each label
    maps to its identifier and to the name of the task that owns it;
    identifiers are handed out in increasing order and never reused. *)
Record EntityDataBase := {
  m_entries : gmap string (Z * string);
  m_next : Z
}.

Definition empty : EntityDataBase := {| m_entries := ∅; m_next := 1 |}.

(** Modelled from the spec: [resolve(label)]; throws [NonexistentLabel]
    for a label nobody reserved. *)
Definition resolve (label : string) (db : EntityDataBase) : Exn + Z :=
  match m_entries db !! label with
  | Some (i, _) => inr i
  | None => inl (NonexistentLabel label)
  end.

(** Modelled from the spec: "reserve(label) -> id: allocates a stable id
    for a label; fails with DuplicateLabel if owned by a different task;
    idempotent for the same label". *)
Definition reserve (label owner : string) (db : EntityDataBase)
  : Exn + (Z * EntityDataBase) :=
  match m_entries db !! label with
  | Some (i, o) =>
      if bool_decide (o = owner) then inr (i, db)
      else inl (DuplicateLabel label)
  | None =>
      inr (m_next db,
           {| m_entries := <[label := (m_next db, owner)]> (m_entries db);
              m_next := m_next db + 1 |})
  end.

End Entities.

(** ** Watchdog counter (DUNE/Time/Counter.hpp) *)

Module Counter.

(** Modelled from the spec: the class template [Counter] is absent.
    "Watchdog: deadline timer detecting loss of periodic activity"; "a
    watchdog with top=10.0 and no reset for more than 10 time units reports
    overflow()==true". Setting the top arms the timer. *)
Record Counter := { m_top : Z; m_last : Z }.

Definition setTop (top now : Z) (c : Counter) : Counter :=
  {| m_top := top; m_last := now |}.

Definition reset (now : Z) (c : Counter) : Counter :=
  {| m_top := m_top c; m_last := now |}.

Definition overflow (now : Z) (c : Counter) : bool :=
  m_top c <? now - m_last c.

End Counter.

(** ** I/O multiplexer (DUNE/IO/Poll.hpp) *)

Module Poll.

(** Modelled from the spec: the class [Poll] is absent. "waits on one or
    more blocking handles with a timeout, reports readiness". [handles] are
    the handles added and not removed, [triggered] those found ready by the
    last wait. *)
Record Poll := { handles : gset Handle; triggered : gset Handle }.

Definition new : Poll := {| handles := ∅; triggered := ∅ |}.

Definition add (h : Handle) (p : Poll) : Poll :=
  {| handles := {[h]} ∪ handles p; triggered := triggered p |}.

Definition remove (h : Handle) (p : Poll) : Poll :=
  {| handles := handles p ∖ {[h]}; triggered := triggered p ∖ {[h]} |}.

(** One wait, given the handles that have input pending. *)
Definition poll (ready : gset Handle) (p : Poll) : Poll :=
  {| handles := handles p; triggered := handles p ∩ ready |}.

Definition any (p : Poll) : bool := bool_decide (triggered p ≠ ∅).

Definition wasTriggered (h : Handle) (p : Poll) : bool :=
  bool_decide (h ∈ triggered p).

End Poll.

(** ** Library code the AMC task is compiled against

    The checksum class [Algorithms::CRC8], the reply parser of the local
    header [MessageControl.hpp] and the values of the [Status::Code]
    enumerators are not part of the sources at hand; the task is modelled
    over any implementation of them. *)

Class Platform := {
  (** [Algorithms::CRC8 crc(poly); crc.putArray(data, len)] on a fresh
      object. *)
  CRC8_putArray : Z -> list ascii -> ascii;
  (** [class MessageParse]. *)
  MessageParse : Type;
  MessageParse_new : MessageParse;
  (** [m_amc_state = MessageParse::PS_PREAMBLE]. *)
  set_PS_PREAMBLE : MessageParse -> MessageParse;
  ParserAMC : ascii -> MessageParse -> MessageParse;
  (** [m_motor.rpm[i]] converted to [int], and [m_motor.state[i]]. *)
  m_motor_rpm : MessageParse -> Z -> Z;
  m_motor_state : MessageParse -> Z -> Z;
  CODE_IDLE : Z;
  CODE_ACTIVE : Z
}.

(** The part of the outside world a task acts on. *)
Record World := {
  clock : Z;                         (* current time *)
  heap : gset Handle;                (* objects created by [new], not yet deleted *)
  next_handle : Handle;
  wire : list ascii;                 (* bytes written to the serial line, oldest first *)
  bus : list IMC.Message;            (* messages dispatched, oldest first *)
  entities : Entities.EntityDataBase;
  log : list string                  (* war() and err() lines *)
}.

Definition World_new : World :=
  {| clock := 0; heap := ∅; next_handle := 1%positive; wire := []; bus := [];
     entities := Entities.empty; log := [] |}.

Definition set_clock (v : Z) (w : World) : World :=
  {| clock := v; heap := heap w; next_handle := next_handle w; wire := wire w;
     bus := bus w; entities := entities w; log := log w |}.

Definition set_heap (v : gset Handle) (n : Handle) (w : World) : World :=
  {| clock := clock w; heap := v; next_handle := n; wire := wire w;
     bus := bus w; entities := entities w; log := log w |}.

Definition set_wire (v : list ascii) (w : World) : World :=
  {| clock := clock w; heap := heap w; next_handle := next_handle w; wire := v;
     bus := bus w; entities := entities w; log := log w |}.

Definition set_bus (v : list IMC.Message) (w : World) : World :=
  {| clock := clock w; heap := heap w; next_handle := next_handle w; wire := wire w;
     bus := v; entities := entities w; log := log w |}.

Definition set_entities (v : Entities.EntityDataBase) (w : World) : World :=
  {| clock := clock w; heap := heap w; next_handle := next_handle w; wire := wire w;
     bus := bus w; entities := v; log := log w |}.

Definition set_log (v : list string) (w : World) : World :=
  {| clock := clock w; heap := heap w; next_handle := next_handle w; wire := wire w;
     bus := bus w; entities := entities w; log := v |}.

(** [new T(...)]: a fresh object identity. *)
Definition alloc (w : World) : Handle * World :=
  (next_handle w, set_heap ({[next_handle w]} ∪ heap w) (Pos.succ (next_handle w)) w).

(** [delete p]. *)
Definition free (h : Handle) (w : World) : World :=
  set_heap (heap w ∖ {[h]}) (next_handle w) w.

(** What [new SerialPort(dev, baud)] does: the constructor of the absent
    class [SerialPort] opens the device, or throws when it cannot. *)
Inductive OpenResult :=
| Opened
| OpenFailed (what : string).

(** What one bounded wait on the multiplexer finds. *)
Inductive ReadResult :=
| ReadByte (b : ascii)        (* read() returned 1 *)
| ReadNothing                 (* read() returned 0 or less *)
| ReadError (what : string).  (* read() threw std::exception *)

Record PollEvent := {
  ev_ready : gset Handle;     (* handles with input pending *)
  ev_elapsed : Z;             (* time until the first of them was ready *)
  ev_read : ReadResult        (* what the read that follows returns *)
}.

(** One pass through the body of the main loop: the wait on the serial line
    and, when the line stays silent, the messages that arrive during
    [waitForMessages] and the time it blocks. *)
Record Tick := {
  tk_poll : PollEvent;
  tk_inbox : list IMC.SetThrusterActuation;
  tk_wait : Z
}.

(** A wait during which no handle has input pending. *)
Definition quiet : PollEvent :=
  {| ev_ready := ∅; ev_elapsed := 0; ev_read := ReadNothing |}.

Definition clamp (lo hi x : Z) : Z := Z.max lo (Z.min hi x).

Definition NUL : ascii := Ascii.zero.

(** ** Actuators/AMC/Task.cpp *)

Module AMC.
Section WithPlatform.
Context {P : Platform}.

Definition c_max_csum : Z := 2.
Definition c_max_motors : Z := 4.
Definition c_max_buffer : Z := 16.
Definition c_poly : Z := 0.
Definition c_sleep_time : Z := 250000.

Inductive AmcMessages := RPM | TEMPERATURE | PWR | STATE.

(** [struct Arguments]; the conversion factors and the motor-state flags
    are read by no member function and are left out. *)
Record Arguments := {
  uart_dev : string;
  uart_baud : Z;
  motor_elabels : list string        (* c_max_motors entries *)
}.

(** [struct Task]. [m_uart] and [m_parse] are pointers: [None] is a pointer
    that does not point to an object. [m_name], [m_entity] and [env] stand
    for the base class [DUNE::Tasks::Task]. *)
Record Task := {
  m_name : string;
  m_rpm_val : list IMC.Rpm;          (* c_max_motors entries *)
  m_args : Arguments;
  m_uart : option Handle;
  m_poll : Poll.Poll;
  m_buffer : list ascii;
  m_csum : ascii;                    (* m_csum[0], the only cell used *)
  m_msg : string;                    (* contents up to the terminating NUL *)
  m_parse : option MessageParse;
  m_wdog : Counter.Counter;
  m_cnt_motor : Z;                   (* uint8_t *)
  m_entity : Entity.Entity;
  env : World
}.

(** The constructor: only [m_uart] is initialised by the source; the other
    members get a placeholder. *)
Definition new (name : string) (args : Arguments) (w : World) : Task :=
  {| m_name := name;
     m_rpm_val := replicate 4 {| IMC.rpm_src := Entity.DUNE_IMC_CONST_UNK_EID; IMC.rpm_value := 0 |};
     m_args := args;
     m_uart := None;
     m_poll := Poll.new;
     m_buffer := replicate 16 NUL;
     m_csum := NUL;
     m_msg := "";
     m_parse := None;
     m_wdog := {| Counter.m_top := 0; Counter.m_last := 0 |};
     m_cnt_motor := 0;
     m_entity := Entity.new;
     env := w |}.

Definition set_rpm_val v (t : Task) : Task :=
  {| m_name := m_name t; m_rpm_val := v; m_args := m_args t; m_uart := m_uart t;
     m_poll := m_poll t; m_buffer := m_buffer t; m_csum := m_csum t; m_msg := m_msg t;
     m_parse := m_parse t; m_wdog := m_wdog t; m_cnt_motor := m_cnt_motor t;
     m_entity := m_entity t; env := env t |}.

Definition set_uart v (t : Task) : Task :=
  {| m_name := m_name t; m_rpm_val := m_rpm_val t; m_args := m_args t; m_uart := v;
     m_poll := m_poll t; m_buffer := m_buffer t; m_csum := m_csum t; m_msg := m_msg t;
     m_parse := m_parse t; m_wdog := m_wdog t; m_cnt_motor := m_cnt_motor t;
     m_entity := m_entity t; env := env t |}.

Definition set_poll v (t : Task) : Task :=
  {| m_name := m_name t; m_rpm_val := m_rpm_val t; m_args := m_args t; m_uart := m_uart t;
     m_poll := v; m_buffer := m_buffer t; m_csum := m_csum t; m_msg := m_msg t;
     m_parse := m_parse t; m_wdog := m_wdog t; m_cnt_motor := m_cnt_motor t;
     m_entity := m_entity t; env := env t |}.

Definition set_buffer v (t : Task) : Task :=
  {| m_name := m_name t; m_rpm_val := m_rpm_val t; m_args := m_args t; m_uart := m_uart t;
     m_poll := m_poll t; m_buffer := v; m_csum := m_csum t; m_msg := m_msg t;
     m_parse := m_parse t; m_wdog := m_wdog t; m_cnt_motor := m_cnt_motor t;
     m_entity := m_entity t; env := env t |}.

Definition set_csum v (t : Task) : Task :=
  {| m_name := m_name t; m_rpm_val := m_rpm_val t; m_args := m_args t; m_uart := m_uart t;
     m_poll := m_poll t; m_buffer := m_buffer t; m_csum := v; m_msg := m_msg t;
     m_parse := m_parse t; m_wdog := m_wdog t; m_cnt_motor := m_cnt_motor t;
     m_entity := m_entity t; env := env t |}.

Definition set_msg v (t : Task) : Task :=
  {| m_name := m_name t; m_rpm_val := m_rpm_val t; m_args := m_args t; m_uart := m_uart t;
     m_poll := m_poll t; m_buffer := m_buffer t; m_csum := m_csum t; m_msg := v;
     m_parse := m_parse t; m_wdog := m_wdog t; m_cnt_motor := m_cnt_motor t;
     m_entity := m_entity t; env := env t |}.

Definition set_parse v (t : Task) : Task :=
  {| m_name := m_name t; m_rpm_val := m_rpm_val t; m_args := m_args t; m_uart := m_uart t;
     m_poll := m_poll t; m_buffer := m_buffer t; m_csum := m_csum t; m_msg := m_msg t;
     m_parse := v; m_wdog := m_wdog t; m_cnt_motor := m_cnt_motor t;
     m_entity := m_entity t; env := env t |}.

Definition set_wdog v (t : Task) : Task :=
  {| m_name := m_name t; m_rpm_val := m_rpm_val t; m_args := m_args t; m_uart := m_uart t;
     m_poll := m_poll t; m_buffer := m_buffer t; m_csum := m_csum t; m_msg := m_msg t;
     m_parse := m_parse t; m_wdog := v; m_cnt_motor := m_cnt_motor t;
     m_entity := m_entity t; env := env t |}.

Definition set_cnt_motor v (t : Task) : Task :=
  {| m_name := m_name t; m_rpm_val := m_rpm_val t; m_args := m_args t; m_uart := m_uart t;
     m_poll := m_poll t; m_buffer := m_buffer t; m_csum := m_csum t; m_msg := m_msg t;
     m_parse := m_parse t; m_wdog := m_wdog t; m_cnt_motor := v;
     m_entity := m_entity t; env := env t |}.

Definition set_entity v (t : Task) : Task :=
  {| m_name := m_name t; m_rpm_val := m_rpm_val t; m_args := m_args t; m_uart := m_uart t;
     m_poll := m_poll t; m_buffer := m_buffer t; m_csum := m_csum t; m_msg := m_msg t;
     m_parse := m_parse t; m_wdog := m_wdog t; m_cnt_motor := m_cnt_motor t;
     m_entity := v; env := env t |}.

Definition set_env v (t : Task) : Task :=
  {| m_name := m_name t; m_rpm_val := m_rpm_val t; m_args := m_args t; m_uart := m_uart t;
     m_poll := m_poll t; m_buffer := m_buffer t; m_csum := m_csum t; m_msg := m_msg t;
     m_parse := m_parse t; m_wdog := m_wdog t; m_cnt_motor := m_cnt_motor t;
     m_entity := m_entity t; env := v |}.

(** *** Services of the base class and of the C library *)

(** Time passing while the task is blocked. *)
Definition advance (dt : Z) (t : Task) : Task :=
  set_env (set_clock (clock (env t) + dt) (env t)) t.

Definition usleep (us : Z) (t : Task) : Task := advance us t.

Definition war (line : string) (t : Task) : Task :=
  set_env (set_log (log (env t) ++ [line]) (env t)) t.

Definition err (line : string) (t : Task) : Task := war line t.

Definition dispatch (m : IMC.Message) (t : Task) : Task :=
  set_env (set_bus (bus (env t) ++ [m]) (env t)) t.

Definition dispatch_all (ms : list IMC.Message) (t : Task) : Task :=
  set_env (set_bus (bus (env t) ++ ms)%list (env t)) t.

(** Modelled from the spec: [Task::setEntityState(state, code)] of the
    absent base class forwards to [Entity::setState] of the task's entity;
    the reports go to the bus. *)
Definition setEntityState (st : IMC.StateEnum) (code : Z) (t : Task) : Task :=
  let '(e, out) := Entity.setState st code (m_entity t) in
  dispatch_all out (set_entity e t).

(** Modelled from the spec: [Task::setEntityState(state, message)] of the
    absent base class. *)
Definition setEntityState_message (st : IMC.StateEnum) (message : string) (t : Task) : Task :=
  let '(e, out) := Entity.setState_message st message (m_entity t) in
  dispatch_all out (set_entity e t).

(** Modelled from the spec: [Task::resolveEntity(label)] of the absent base
    class looks the label up in the entity data base. *)
Definition resolveEntity (label : string) (t : Task) : Result Task Z :=
  match Entities.resolve label (entities (env t)) with
  | inr i => Ok i
  | inl e => Raise e t
  end.

(** Modelled from the spec: [Task::reserveEntity(label)] of the absent base
    class reserves the label for this task. *)
Definition reserveEntity (label : string) (t : Task) : Result Task (Z * Task) :=
  match Entities.reserve label (m_name t) (entities (env t)) with
  | inr (i, db) => Ok (i, set_env (set_entities db (env t)) t)
  | inl e => Raise e t
  end.

(** The text and its terminating NUL fit the [c_max_buffer] bytes of
    [m_msg]. *)
Definition fits (text : string) : bool :=
  Z.of_nat (String.length text) <? c_max_buffer.

(** [sprintf(m_msg, ...)]: the text is written from the start of [m_msg];
    nothing compares its length with the size of the array. [m_msg] is the
    text up to the terminating NUL, which is what [strlen] and the writes
    that follow read. A text that does not fit runs past the end of the
    array (undefined behaviour), into what follows [m_msg] in the object,
    which the model does not lay out. *)
Definition sprintf_m_msg (text : string) (t : Task) : Task := set_msg text t.

(** [m_uart->write(data, n)]: the bytes go out on the line; the number of
    bytes written is returned. *)
Definition uart_write (data : list ascii) (t : Task) : Result Task (Z * Task) :=
  match m_uart t with
  | None => Raise NullPointer t
  | Some _ =>
      Ok (Z.of_nat (List.length data),
          set_env (set_wire (wire (env t) ++ data)%list (env t)) t)
  end.

(** [crc.putArray((unsigned char * )m_msg, strlen(m_msg) - 1)] with
    [Algorithms::CRC8 crc(c_poly)]. *)
Definition csum_of (msg : string) : ascii :=
  let bytes := list_ascii_of_string msg in
  CRC8_putArray c_poly (take (List.length bytes - 1)%nat bytes).

(** The statements every command shares: clear [m_msg], format the text
    into it, checksum all of it but the last character, write the text,
    write the checksum byte; [t + 1] is the value left in the local [t]. *)
Definition transmit (text : string) (t : Task) : Result Task (Z * Task) :=
  let t := set_msg "" t in
  let t := sprintf_m_msg text t in
  let t := set_csum (csum_of (m_msg t)) t in
  do '(n, t) <- uart_write (list_ascii_of_string (m_msg t)) t ;
  do '(_, t) <- uart_write [m_csum t] t ;
  Ok (n + 1, t).

(** *** Member functions *)

(** [onEntityReservation]: one pass of the loop body. *)
Definition reserve_motor (i : nat) (t : Task) : Result Task Task :=
  let label := nth i (motor_elabels (m_args t)) "" in
  match resolveEntity label t with
  | Ok _ => Ok t
  | Raise (NonexistentLabel _) t' =>
      do '(_, t'') <- reserveEntity label t' ; Ok t''
  | Raise e t' => Raise e t'
  end.

(** [for (i = first; i < first + n; ++i) body(i)]. *)
Fixpoint for_range (first n : nat) (body : nat -> Task -> Result Task Task)
         (t : Task) : Result Task Task :=
  match n with
  | O => Ok t
  | S n' => do t' <- body first t ; for_range (S first) n' body t'
  end.

Definition onEntityReservation (t : Task) : Result Task Task :=
  for_range 0 4 reserve_motor t.

Definition onEntityResolution (t : Task) : Task := t.

(** [m_uart] is assigned only when the constructor returns. *)
Definition onResourceAcquisition (o : OpenResult) (t : Task) : Result Task Task :=
  let t := setEntityState IMC.ESTA_NORMAL CODE_IDLE t in
  match o with
  | Opened =>
      let '(h, w) := alloc (env t) in
      Ok (set_uart (Some h) (set_env w t))
  | OpenFailed what => Raise (OpenError what) t
  end.

Definition onResourceRelease (t : Task) : Task :=
  match m_uart t with
  | Some h =>
      let t := set_poll (Poll.remove h (m_poll t)) t in
      let t := set_env (free h (env t)) t in
      set_uart None t
  | None => t
  end.

Definition setRPM (motor rpm : Z) (t : Task) : Result Task (Z * Task) :=
  transmit ("@S," +:+ pretty motor +:+ "," +:+ pretty rpm +:+ ",*") t.

Definition consume (msg : IMC.SetThrusterActuation) (t : Task) : Result Task Task :=
  if IMC.id msg =? 0 then
    do '(_, t) <- setRPM 0 (IMC.value msg) t ;
    let t := usleep c_sleep_time t in
    do '(_, t) <- setRPM 1 (IMC.value msg) t ;
    Ok (usleep c_sleep_time t)
  else if IMC.id msg =? 1 then
    do '(_, t) <- setRPM 2 (IMC.value msg) t ;
    let t := usleep c_sleep_time t in
    do '(_, t) <- setRPM 3 (IMC.value msg) t ;
    Ok (usleep c_sleep_time t)
  else Ok t.

Definition checkSerialPort (rx : ReadResult) (t : Task) : Result Task Task :=
  match m_uart t with
  | None => Raise NullPointer t
  | Some h =>
      if Poll.wasTriggered h (m_poll t) then
        let t := set_buffer (replicate 16 NUL) t in
        match rx with
        | ReadError what => Ok (err ("read error: " +:+ what) t)
        | ReadNothing => Ok (err "unknown read error" t)
        | ReadByte b =>
            let t := set_buffer (<[0%nat := b]> (m_buffer t)) t in
            match m_parse t with
            | None => Raise NullPointer t
            | Some p => Ok (set_parse (Some (ParserAMC (nth 0 (m_buffer t) NUL) p)) t)
            end
        end
      else Ok t
  end.

Definition readParameterAMC (motor : Z) (_func_name : AmcMessages) (t : Task)
  : Result Task Task :=
  match _func_name with
  | RPM =>
      do '(_, t) <- transmit ("@R," +:+ pretty motor +:+ ",rpm,*") t ; Ok t
  | TEMPERATURE =>
      do '(_, t) <- transmit ("@R," +:+ pretty motor +:+ ",tmp,*") t ; Ok t
  | PWR =>
      do '(_, t) <- transmit ("@R," +:+ pretty motor +:+ ",pwr,*") t ; Ok t
  | STATE =>
      do '(_, t) <- transmit ("@R," +:+ pretty motor +:+ ",sta,*") t ; Ok t
  end.

(** [m_poll.poll(timeout)]: the wait ends when a handle of the multiplexer
    is ready, or else after [timeout]. *)
Definition poll (timeout : Z) (ev : PollEvent) (t : Task) : bool * Task :=
  let p := Poll.poll (ev_ready ev) (m_poll t) in
  let dt := if Poll.any p then clamp 0 timeout (ev_elapsed ev) else timeout in
  (Poll.any p, advance dt (set_poll p t)).

(** [checkStateMotor]: first loop, one pass. *)
Definition query_state (evs : nat -> PollEvent) (i : nat) (t : Task) : Result Task Task :=
  do t <- readParameterAMC (Z.of_nat i) STATE t ;
  let t := usleep c_sleep_time t in
  let '(ready, t) := poll 500000 (evs i) t in
  if ready then checkSerialPort (ev_read (evs i)) t else Ok t.

(** [checkStateMotor]: second loop, one pass; the warning count is threaded
    along with the task. *)
Definition count_error (p : MessageParse) (i : nat) (acc : Z * Task) : Z * Task :=
  let '(cnt_war, t) := acc in
  if m_motor_state p (Z.of_nat i) =? 0
  then (cnt_war + 1, war ("AMC Motor " +:+ pretty (Z.of_nat i) +:+ " - ERROR") t)
  else (cnt_war, t).

Definition checkStateMotor (evs : nat -> PollEvent) (t : Task) : Result Task Task :=
  do t <- for_range 0 4 (query_state evs) t ;
  match m_parse t with
  | None => Raise NullPointer t
  | Some p =>
      let '(cnt_war, t) := fold_left (fun acc i => count_error p i acc) (seq 0 4) (0, t) in
      if 0 <? cnt_war
      then Ok (setEntityState_message IMC.ESTA_ERROR "AMC Motor" t)
      else Ok t
  end.

Definition stopAllMotor (t : Task) : Result Task Task :=
  do '(_, t) <- setRPM 0 0 t ;
  let t := usleep c_sleep_time t in
  do '(_, t) <- setRPM 1 0 t ;
  let t := usleep c_sleep_time t in
  do '(_, t) <- setRPM 2 0 t ;
  let t := usleep c_sleep_time t in
  do '(_, t) <- setRPM 3 0 t ;
  Ok (usleep c_sleep_time t).

Definition onResourceInitialization (evs : nat -> PollEvent) (t : Task)
  : Result Task Task :=
  let t := set_parse (Some (set_PS_PREAMBLE MessageParse_new)) t in
  match m_uart t with
  | None => Raise NullPointer t
  | Some h =>
      let t := set_poll (Poll.add h (m_poll t)) t in
      do t <- checkStateMotor evs t ;
      do t <- stopAllMotor t ;
      Ok (set_wdog (Counter.setTop 10000000 (clock (env t)) (m_wdog t)) t)
  end.

Definition dispatchRpm (_id _rpm : Z) (t : Task) : Result Task Task :=
  if (0 <=? _id) && (_id <? c_max_motors) then
    do eid <- resolveEntity (nth (Z.to_nat _id) (motor_elabels (m_args t)) "") t ;
    let r := {| IMC.rpm_src := eid; IMC.rpm_value := IMC.to_int16 _rpm |} in
    let t := set_rpm_val (<[0%nat := r]> (m_rpm_val t)) t in
    Ok (dispatch (IMC.MRpm r) t)
  else Ok t.

(** Modelled from the spec: [Task::waitForMessages(timeout)] of the absent
    base class "blocks the task until a message addressed to it arrives or
    timeout elapses, then drains and dispatches all pending messages in
    arrival order before returning". The task binds one message type. *)
Fixpoint consume_all (inbox : list IMC.SetThrusterActuation) (t : Task)
  : Result Task Task :=
  match inbox with
  | [] => Ok t
  | m :: rest => do t' <- consume m t ; consume_all rest t'
  end.

Definition waitForMessages (timeout : Z) (inbox : list IMC.SetThrusterActuation)
           (waited : Z) (t : Task) : Result Task Task :=
  let dt := match inbox with [] => timeout | _ => clamp 0 timeout waited end in
  consume_all inbox (advance dt t).

Definition wdog_reset (t : Task) : Task :=
  set_wdog (Counter.reset (clock (env t)) (m_wdog t)) t.

(** [onMain], the branch taken when the multiplexer reports readiness. *)
Definition on_ready (rx : ReadResult) (t : Task) : Result Task Task :=
  do t <- checkSerialPort rx t ;
  Ok (wdog_reset t).

(** [m_cnt_motor++; if (m_cnt_motor >= 4) m_cnt_motor = 0;] *)
Definition next_motor (t : Task) : Task :=
  let t := set_cnt_motor ((m_cnt_motor t + 1) mod 256) t in
  if 4 <=? m_cnt_motor t then set_cnt_motor 0 t else t.

(** [onMain], the branch taken when the wait on the multiplexer times out. *)
Definition on_timeout (inbox : list IMC.SetThrusterActuation) (waited : Z) (t : Task)
  : Result Task Task :=
  do t <- readParameterAMC (m_cnt_motor t) RPM t ;
  let t := usleep c_sleep_time t in
  do t <-
    (match m_parse t with
     | None => Raise NullPointer t
     | Some p => dispatchRpm (m_cnt_motor t) (m_motor_rpm p (m_cnt_motor t)) t
     end) ;
  let t := next_motor t in
  do t <- waitForMessages 750000 inbox waited t ;
  Ok (wdog_reset t).

(** [onMain], the watchdog test that ends the loop body. *)
Definition check_watchdog (t : Task) : Result Task Task :=
  if Counter.overflow (clock (env t)) (m_wdog t) then
    let t := setEntityState_message IMC.ESTA_ERROR "Watchdog Overflow" t in
    Raise (RestartNeeded "Watchdog Overflow" 2000000 false) t
  else Ok t.

(** [onMain]: the body of the [while] loop. *)
Definition iteration (k : Tick) (t : Task) : Result Task Task :=
  let '(ready, t) := poll 500000 (tk_poll k) t in
  do t <- (if ready then on_ready (ev_read (tk_poll k)) t
           else on_timeout (tk_inbox k) (tk_wait k) t) ;
  check_watchdog t.

(** The [while (!stopping())] loop for a run in which [stopping()] is false
    once per element of [ticks] and true at the next test. *)
Fixpoint main_loop (ticks : list Tick) (t : Task) : Result Task Task :=
  match ticks with
  | [] => Ok t
  | k :: rest => do t' <- iteration k t ; main_loop rest t'
  end.

(** What [onMain] does before it enters the loop. *)
Definition onMain_entry (t : Task) : Task :=
  set_cnt_motor 0 (setEntityState IMC.ESTA_NORMAL CODE_ACTIVE t).

Definition onMain (ticks : list Tick) (t : Task) : Result Task Task :=
  do t <- main_loop ticks (onMain_entry t) ;
  stopAllMotor t.

(** [m_rpm_val[i].setSourceEntity(eid)]. *)
Definition setSourceEntity (eid : Z) (r : IMC.Rpm) : IMC.Rpm :=
  {| IMC.rpm_src := eid; IMC.rpm_value := IMC.rpm_value r |}.

(** [onUpdateParameters]: one pass of the loop body. [eid] is the local
    declared before the loop; it keeps the value of the pass before when
    [resolveEntity] throws. *)
Definition update_source (i : nat) (acc : Z * Task) : Z * Task :=
  let '(eid, t) := acc in
  let label := nth i (motor_elabels (m_args t)) "" in
  let eid := match resolveEntity label t with Ok e => e | Raise _ _ => eid end in
  if String.eqb label "" then (eid, t)
  else (eid, set_rpm_val (alter (setSourceEntity eid) i (m_rpm_val t)) t).

Definition onUpdateParameters (t : Task) : Task :=
  snd (fold_left (fun acc i => update_source i acc) (seq 0 4) (0, t)).

(** *** Vocabulary of the properties *)

(** The bytes of a command whose text is [body] followed by the terminator:
    the text, the ['*'], then the checksum of the text alone. *)
Definition command_bytes (body : string) : list ascii :=
  (list_ascii_of_string (body +:+ "*") ++ [CRC8_putArray c_poly (list_ascii_of_string body)])%list.

Definition write_command (motor rpm : Z) : list ascii :=
  command_bytes ("@S," +:+ pretty motor +:+ "," +:+ pretty rpm +:+ ",").

Definition field_name (f : AmcMessages) : string :=
  match f with
  | RPM => "rpm"
  | TEMPERATURE => "tmp"
  | PWR => "pwr"
  | STATE => "sta"
  end.

Definition read_request (motor : Z) (f : AmcMessages) : list ascii :=
  command_bytes ("@R," +:+ pretty motor +:+ "," +:+ field_name f +:+ ",").

(** The thruster commands of a sequence of (motor, rpm) pairs. *)
Definition write_commands (cmds : list (Z * Z)) : list ascii :=
  List.concat (List.map (fun c => write_command (fst c) (snd c)) cmds).

(** The task once the command with text [text] has gone out. *)
Definition sent (text : string) (t : Task) : Task :=
  set_env (set_wire (wire (env t) ++ (list_ascii_of_string text ++ [csum_of text]))%list (env t))
    (set_csum (csum_of text) (set_msg text t)).

(** [s] is [t] but for the scratch members [m_msg] and [m_csum], the clock
    and the serial line, on which the thruster commands [cmds] went out. *)
Definition commanded (cmds : list (Z * Z)) (t s : Task) : Prop :=
  m_name s = m_name t /\ m_rpm_val s = m_rpm_val t /\ m_args s = m_args t /\
  m_uart s = m_uart t /\ m_poll s = m_poll t /\ m_buffer s = m_buffer t /\
  m_parse s = m_parse t /\ m_wdog s = m_wdog t /\ m_cnt_motor s = m_cnt_motor t /\
  m_entity s = m_entity t /\
  heap (env s) = heap (env t) /\ bus (env s) = bus (env t) /\
  entities (env s) = entities (env t) /\ log (env s) = log (env t) /\
  wire (env s) = (wire (env t) ++ write_commands cmds)%list.

(** [s] has the setup of [t]: same name, arguments, serial port, watchdog
    top, reservations and entity, and a parser if [t] had one. *)
Definition kept (t s : Task) : Prop :=
  m_name s = m_name t /\ m_args s = m_args t /\ m_uart s = m_uart t /\
  (is_Some (m_parse t) -> is_Some (m_parse s)) /\
  Counter.m_top (m_wdog s) = Counter.m_top (m_wdog t) /\
  entities (env s) = entities (env t) /\ m_entity s = m_entity t.

(** The task once the timeout branch has sent its request for the motor in
    turn, slept, dispatched the rpm last decoded for that motor under the
    entity [eid] and moved on to the next motor. *)
Definition requested (eid : Z) (p : MessageParse) (t : Task) : Task :=
  let r := {| IMC.rpm_src := eid;
              IMC.rpm_value := IMC.to_int16 (m_motor_rpm p (m_cnt_motor t)) |} in
  let t := usleep c_sleep_time (sent ("@R," +:+ pretty (m_cnt_motor t) +:+ ",rpm,*") t) in
  next_motor (dispatch (IMC.MRpm r) (set_rpm_val (<[0%nat := r]> (m_rpm_val t)) t)).

(** The thruster commands a message asks for. *)
Definition commands_of (msg : IMC.SetThrusterActuation) : list (Z * Z) :=
  if IMC.id msg =? 0 then [(0, IMC.value msg); (1, IMC.value msg)]
  else if IMC.id msg =? 1 then [(2, IMC.value msg); (3, IMC.value msg)]
  else [].

(** The object a computation leaves behind, returned or thrown. *)
Definition final (r : Result Task Task) : Task :=
  match r with Ok t => t | Raise _ t => t end.

(** The reservations the task can see, and the label of motor [i]. *)
Definition db_of (t : Task) : gmap string (Z * string) :=
  Entities.m_entries (entities (env t)).

Definition label_of (t : Task) (i : nat) : string :=
  nth i (motor_elabels (m_args t)) "".

(** The labels of the four motors all resolve. *)
Definition labels_resolve (t : Task) : bool :=
  forallb (fun i => bool_decide (is_Some (Entities.m_entries (entities (env t))
                                     !! nth i (motor_elabels (m_args t)) "")))
          (seq 0 4).

(** A task in its Main phase: the serial port is open, the parser exists,
    the motor labels are reserved, the watchdog top is the one set by
    [onResourceInitialization] and the motor counter is a motor index. *)
Definition main_phase (t : Task) : bool :=
  bool_decide (is_Some (m_uart t)) && bool_decide (is_Some (m_parse t))
  && labels_resolve t
  && (Counter.m_top (m_wdog t) =? 10000000)
  && (0 <=? m_cnt_motor t) && (m_cnt_motor t <? 4).

(** A pass of the main loop during which the line stays silent and no
    message arrives. *)
Definition silent : Tick :=
  {| tk_poll := quiet; tk_inbox := []; tk_wait := 0 |}.

(** What a run of the loop over [ticks], begun with the motor counter at
    [c], puts on the serial line, [ready k] telling whether the pass [k]
    finds the multiplexer ready: nothing for a pass that does, and for a
    pass that times out the rpm request of the motor in turn followed by the
    thruster commands of the messages consumed in it, the turn then passing
    to the next motor. *)
Fixpoint round_robin (ready : Tick -> bool) (c : Z) (ticks : list Tick) : list ascii :=
  match ticks with
  | [] => []
  | k :: rest =>
      if ready k then round_robin ready c rest
      else (read_request c RPM
              ++ write_commands (List.concat (List.map commands_of (tk_inbox k)))
              ++ round_robin ready ((c + 1) mod 4) rest)%list
  end.

(** The serial line once a command has returned or thrown. *)
Definition line_after (r : Result Task (Z * Task)) : list ascii :=
  match r with
  | Ok (_, s) => wire (env s)
  | Raise _ s => wire (env s)
  end.


(** The thruster messages [consume] acts on. *)
Definition served (msg : IMC.SetThrusterActuation) : bool :=
  (IMC.id msg =? 0) || (IMC.id msg =? 1).



(** The time [waitForMessages(0.75)] blocks in the pass [k]. *)
Definition wait_of (k : Tick) : Z :=
  match tk_inbox k with [] => 750000 | _ => clamp 0 750000 (tk_wait k) end.

(** The pass [k] started from [t] takes the timeout branch. *)
Definition is_timeout (k : Tick) (t : Task) : bool :=
  negb (fst (poll 500000 (tk_poll k) t)).

Definition rpm_reports (rs : list IMC.Rpm) : list IMC.Message := List.map IMC.MRpm rs.

(** The state requests for the motors [first], ..., [first + n - 1]. *)
Definition state_requests (first n : nat) : list ascii :=
  List.concat (List.map (fun i => read_request (Z.of_nat i) STATE) (seq first n)).

(** [s] is [t] after [n] state queries: [reqs] went out on the line,
    between 0.25 s and 0.75 s passed per query, lines may have been logged,
    and the multiplexer, the parser and the scratch members apart, nothing
    else changed. *)
Definition probed (n : nat) (reqs : list ascii) (t s : Task) : Prop :=
  m_name s = m_name t /\ m_rpm_val s = m_rpm_val t /\
  m_args s = m_args t /\ m_uart s = m_uart t /\
  m_wdog s = m_wdog t /\ m_cnt_motor s = m_cnt_motor t /\
  m_entity s = m_entity t /\
  Poll.handles (m_poll s) = Poll.handles (m_poll t) /\
  heap (env s) = heap (env t) /\ bus (env s) = bus (env t) /\
  entities (env s) = entities (env t) /\
  (exists lines, log (env s) = (log (env t) ++ lines)%list) /\
  wire (env s) = (wire (env t) ++ reqs)%list /\
  clock (env t) + 250000 * Z.of_nat n <= clock (env s)
    <= clock (env t) + 750000 * Z.of_nat n.

(** The motors the parser holds state 0 for. *)
Definition faulty (p : MessageParse) : list nat :=
  List.filter (fun i => m_motor_state p (Z.of_nat i) =? 0) (seq 0 4).

(** The parser once [bytes] have been fed to it, oldest first. *)
Definition feed (bytes : list ascii) (p : MessageParse) : MessageParse :=
  fold_left (fun q b => ParserAMC b q) bytes p.

Definition motor_warning (i : nat) : string :=
  "AMC Motor " +:+ pretty (Z.of_nat i) +:+ " - ERROR".

(** The value of the local [eid] of [onUpdateParameters] once the labels
    of the motors below [n] have been looked up. *)
Fixpoint carried (t : Task) (n : nat) : Z :=
  match n with
  | O => 0
  | S j => match db_of t !! label_of t j with
           | Some (eid, _) => eid
           | None => carried t j
           end
  end.

(** What [onUpdateParameters] makes of element [i] of [m_rpm_val]. *)
Definition sourced (t : Task) (i : nat) (r : IMC.Rpm) : IMC.Rpm :=
  if String.eqb (label_of t i) "" then r else setSourceEntity (carried t (S i)) r.

End WithPlatform.
End AMC.

(** ** Vision/UI2210MGL/Task.cpp *)

Module UI2210MGL.

(** [struct AOI] of the absent header CaptureUeye.hpp, as the parameters
    "AOI - X", "AOI - Y", "AOI - Width" and "AOI - Height" fill it. *)
Record AOI := { x : Z; y : Z; width : Z; height : Z }.

(** [struct Arguments]; the calibration coefficients and the wavelength
    are floating-point numbers read by no function below and left out. *)
Record Arguments := {
  fps : Z;
  quality : Z;
  log_dir : string;
  aoi : AOI;
  auto_gain : bool
}.

(** The class [CaptureUeye] is absent: the calls the task makes on the
    capture object are recorded, with their arguments, in the order made. *)
Inductive CaptureCall :=
| Construct (a : AOI) (cam : Z) (f : Z)
| Start
| SetAOI (a : AOI)
| SetFPS (f : Z)
| SetAutoGain (b : bool).

Record Task := {
  m_args : Arguments;
  m_log_dir : string;
  m_cam : Z;
  m_starting : bool;
  m_capture : option Handle;
  capture_calls : list (Handle * CaptureCall);
  env : World
}.

(** The constructor. *)
Definition new (args : Arguments) (dir_log : string) (w : World) : Task :=
  {| m_args := args; m_log_dir := dir_log; m_cam := 1; m_starting := true;
     m_capture := None; capture_calls := []; env := w |}.

Definition set_log_dir v (t : Task) : Task :=
  {| m_args := m_args t; m_log_dir := v; m_cam := m_cam t; m_starting := m_starting t;
     m_capture := m_capture t; capture_calls := capture_calls t; env := env t |}.

Definition set_starting v (t : Task) : Task :=
  {| m_args := m_args t; m_log_dir := m_log_dir t; m_cam := m_cam t; m_starting := v;
     m_capture := m_capture t; capture_calls := capture_calls t; env := env t |}.

Definition set_capture v (t : Task) : Task :=
  {| m_args := m_args t; m_log_dir := m_log_dir t; m_cam := m_cam t;
     m_starting := m_starting t;
     m_capture := v; capture_calls := capture_calls t; env := env t |}.

Definition set_env v (t : Task) : Task :=
  {| m_args := m_args t; m_log_dir := m_log_dir t; m_cam := m_cam t;
     m_starting := m_starting t;
     m_capture := m_capture t; capture_calls := capture_calls t; env := v |}.

(** [m_capture->f(...)]. *)
Definition call (c : CaptureCall) (t : Task) : Result Task Task :=
  match m_capture t with
  | None => Raise NullPointer t
  | Some h =>
      Ok {| m_args := m_args t; m_log_dir := m_log_dir t; m_cam := m_cam t;
            m_starting := m_starting t; m_capture := m_capture t;
            capture_calls := capture_calls t ++ [(h, c)]; env := env t |}
  end.

Definition onUpdateParameters (t : Task) : Result Task Task :=
  if m_starting t then Ok (set_starting false t)
  else
    let t := set_log_dir (log_dir (m_args t)) t in
    do t <- call (SetAOI (aoi (m_args t))) t ;
    do t <- call (SetFPS (fps (m_args t))) t ;
    call (SetAutoGain (auto_gain (m_args t))) t.

Definition onResourceAcquisition (t : Task) : Result Task Task :=
  let '(h, w) := alloc (env t) in
  let t := set_capture (Some h) (set_env w t) in
  do t <- call (Construct (aoi (m_args t)) (m_cam t) (fps (m_args t))) t ;
  do t <- call Start t ;
  call (SetAutoGain (auto_gain (m_args t))) t.

Definition onResourceRelease (t : Task) : Task :=
  match m_capture t with
  | Some h => set_capture None (set_env (free h (env t)) t)
  | None => t
  end.

(** The parameter values are in force: the log folder is the configured
    one and the last three calls on the capture object [h] set the
    configured area of interest, frame rate and gain mode. *)
Definition applied (h : Handle) (before after : Task) : Prop :=
  m_log_dir after = log_dir (m_args after) /\
  capture_calls after =
    (capture_calls before ++
     [(h, SetAOI (aoi (m_args after)));
      (h, SetFPS (fps (m_args after)));
      (h, SetAutoGain (auto_gain (m_args after)))])%list.

(** [IMC::LoggingControl], absent from the sources: the fields the task
    reads, and the two operations it names. *)
Inductive ControlOperation :=
| COP_REQUEST_CURRENT_NAME
| COP_CURRENT_NAME
| COP_OTHER.

Record LoggingControl := {
  destination : Z;
  op : ControlOperation;
  name : string
}.

(** [struct Frame] of the absent header CaptureUeye.hpp: the members the
    task reads. The time stamp is in microseconds. *)
Record Frame := {
  timestamp : Z;
  gain_factor : Z;
  data : list ascii
}.

(** What the functions below do to the world, in the order done. The
    libraries behind them (the file system, OpenCV, the bus, the capture
    thread) are absent: each call is recorded with what it was given. *)
Inductive Effect :=
| CreateDirectory (path : string)                       (* m_log_dir.create() *)
| ImWrite (dir : string) (f : Frame)                    (* cv::imwrite of the frame, in dir *)
| DispatchHyperSpecData (image : option Frame) (gain ts : Z)
| Wait (dt : Z)                                         (* Time::Delay::wait *)
| StopCapture
| StopAndJoin
| Inf (line : string)
| Delete (frame : option Frame).

(** The task with the member [m_image_cv] (the frame whose pixels it
    holds), the state of the base class that [consume] reads, and the
    effects so far. *)
Record Camera := {
  task : Task;
  entity : Entity.Entity;
  system_id : Z;
  m_image_cv : option Frame;
  effects : list Effect
}.

Definition with_task (t : Task) (c : Camera) : Camera :=
  {| task := t; entity := entity c; system_id := system_id c;
     m_image_cv := m_image_cv c; effects := effects c |}.

Definition with_image (i : option Frame) (c : Camera) : Camera :=
  {| task := task c; entity := entity c; system_id := system_id c;
     m_image_cv := i; effects := effects c |}.

Definition emit (e : Effect) (c : Camera) : Camera :=
  {| task := task c; entity := entity c; system_id := system_id c;
     m_image_cv := m_image_cv c; effects := (effects c ++ [e])%list |}.

Section WithPath.
(** [Path::operator/] of the absent class [FileSystem::Path]. *)
Variable join : string -> string -> string.

Definition consume (msg : LoggingControl) (c : Camera) : Camera :=
  if negb (Entity.isActivating (entity c)) && negb (destination msg =? system_id c)
  then c
  else
    match op msg with
    | COP_CURRENT_NAME =>
        let c := with_task (set_log_dir (join (log_dir (m_args (task c))) (name msg)) (task c)) c in
        emit (CreateDirectory (m_log_dir (task c))) c
    | _ => c
    end.

Definition saveImage (frame : Frame) (c : Camera) : Camera :=
  emit (ImWrite (m_log_dir (task c)) frame) (with_image (Some frame) c).

Definition sendData (gain ts : Z) (c : Camera) : Camera :=
  emit (DispatchHyperSpecData (m_image_cv c) gain ts) c.

(** Modelled from the spec: [Task::consumeMessages()] of the absent base
    class hands the pending messages to their handlers in arrival order. *)
Definition consumeMessages (inbox : list LoggingControl) (c : Camera) : Camera :=
  fold_left (fun c m => consume m c) inbox c.

(** One pass of the first loop of [onMain]: the messages pending when it
    starts and what [readFrame] returns. *)
Record Pass := {
  ps_inbox : list LoggingControl;
  ps_frame : option Frame
}.

Definition pass (k : Pass) (c : Camera) : Result Camera Camera :=
  let c := consumeMessages (ps_inbox k) c in
  match m_capture (task c) with
  | None => Raise NullPointer c
  | Some _ =>
      match ps_frame k with
      | None => Ok (emit (Wait 500000) c)
      | Some frame => Ok (sendData (gain_factor frame) (timestamp frame) (saveImage frame c))
      end
  end.

(** The [while (!stopping())] loop for a run in which [stopping()] is false
    once per element of [passes] and true at the next test. *)
Fixpoint main_loop (passes : list Pass) (c : Camera) : Result Camera Camera :=
  match passes with
  | [] => Ok c
  | k :: rest => do c' <- pass k c ; main_loop rest c'
  end.

(** The [while (qhasdata)] loop; [reads] is what the successive calls of
    [readFrame] return. The loop is still running when [reads] is used up:
    [None]. It returns the counter [i] and the local [frame]. *)
Fixpoint drain (reads : list (option Frame)) (i : Z) (c : Camera)
  : option (Z * option Frame * Camera) :=
  match reads with
  | [] => None
  | frame :: rest =>
      let c := emit (Inf "Emptying buffer.") c in
      match frame with
      | None => Some (i + 1, frame, c)
      | Some f => drain rest (i + 1) (saveImage f c)
      end
  end.

Definition onMain (passes : list Pass) (reads : list (option Frame)) (c : Camera)
  : option (Result Camera Camera) :=
  match main_loop passes c with
  | Raise e c => Some (Raise e c)
  | Ok c =>
      match m_capture (task c) with
      | None => Some (Raise NullPointer c)
      | Some _ =>
          let c := emit StopCapture c in
          match drain reads (-1) c with
          | None => None
          | Some (i, frame, c) =>
              let c := emit (Inf (pretty i +:+ " images in buffer at shutdown.")) c in
              let c := emit StopAndJoin c in
              Some (Ok (emit (Delete frame) c))
          end
      end
  end.

(** The messages of an inbox that [consume] acts on, given whether the
    entity is activating. *)
Definition accepted (activating : bool) (sys : Z) (msg : LoggingControl) : bool :=
  (activating || (destination msg =? sys))
  && match op msg with COP_CURRENT_NAME => true | _ => false end.

(** The folder [consumeMessages] leaves in [m_log_dir]. *)
Definition folder_after (base current : string) (names : list string) : string :=
  match reverse names with
  | [] => current
  | n :: _ => join base n
  end.

(** The effects of the shutdown part of [onMain] when [frames] were left
    in the buffer. *)
Definition shutdown_effects (dir : string) (frames : list Frame) : list Effect :=
  (StopCapture ::
   List.concat (List.map (fun f => [Inf "Emptying buffer."; ImWrite dir f]) frames) ++
   [Inf "Emptying buffer.";
    Inf (pretty (Z.of_nat (List.length frames)) +:+ " images in buffer at shutdown.");
    StopAndJoin;
    Delete None])%list.

(** A report is made from the image of the frame it describes. *)
Definition coherent (e : Effect) : Prop :=
  match e with
  | DispatchHyperSpecData image gain ts =>
      exists f, image = Some f /\ gain = gain_factor f /\ ts = timestamp f
  | _ => True
  end.

(** The object a computation leaves behind, returned or thrown. *)
Definition final (r : Result Camera Camera) : Camera :=
  match r with Ok c => c | Raise _ c => c end.

End WithPath.

End UI2210MGL.

(** ** A stand-in for the absent library code

    Used to run the model on concrete inputs: a bitwise CRC-8, a parser that
    only keeps the bytes it was fed, motors that report state 1. *)

Definition crc8_step (poly crc : Z) (b : ascii) : Z :=
  Nat.iter 8
    (fun c => if Z.testbit c 7
              then Z.lxor (Z.shiftl c 1 mod 256) poly
              else Z.shiftl c 1 mod 256)
    (Z.lxor crc (Z.of_nat (nat_of_ascii b))).

Definition crc8 (poly : Z) (data : list ascii) : ascii :=
  ascii_of_nat (Z.to_nat (fold_left (crc8_step poly) data 0)).

Definition bench : Platform :=
  {| CRC8_putArray := crc8;
     MessageParse := list ascii;
     MessageParse_new := [];
     set_PS_PREAMBLE := fun p => p;
     ParserAMC := fun b p => (p ++ [b])%list;
     m_motor_rpm := fun _ _ => 0;
     m_motor_state := fun _ _ => 1;
     CODE_IDLE := 1;
     CODE_ACTIVE := 2 |}.

Definition bench_args : AMC.Arguments :=
  {| AMC.uart_dev := "/dev/ttyUSB0"; AMC.uart_baud := 57600;
     AMC.motor_elabels := ["Motor 0"; "Motor 1"; "Motor 2"; "Motor 3"] |}.

(** The AMC task of the bench taken through its life cycle up to the call of
    [onMain]; the serial device opens and every wait of [checkStateMotor]
    times out. *)
Definition bench_init : Result (@AMC.Task bench) (@AMC.Task bench) :=
  do t <- AMC.onEntityReservation (AMC.new "Actuators.AMC" bench_args World_new) ;
  do t <- AMC.onResourceAcquisition Opened (AMC.onEntityResolution t) ;
  AMC.onResourceInitialization (fun _ => quiet) t.

Definition bench_ready : @AMC.Task bench := AMC.final bench_init.

(** The same task inside [onMain], at the head of the loop. *)
Definition bench_task : @AMC.Task bench := AMC.onMain_entry bench_ready.

(** A pass of the bench during which the line is silent and two messages
    arrive: thrust 1200 for the pair of id 0, then 0 for the pair of id 1. *)
Definition bench_tick : Tick :=
  {| tk_poll := quiet;
     tk_inbox := [ {| IMC.id := 0; IMC.value := 1200 |}; {| IMC.id := 1; IMC.value := 0 |} ];
     tk_wait := 300000 |}.

(** The camera task of the bench: "/log" is configured, the log folder of
    the context is "/opt/log". *)
Definition bench_camera : UI2210MGL.Task :=
  UI2210MGL.new
    {| UI2210MGL.fps := 30; UI2210MGL.quality := 80; UI2210MGL.log_dir := "/log";
       UI2210MGL.aoi := {| UI2210MGL.x := 0; UI2210MGL.y := 0;
                           UI2210MGL.width := 640; UI2210MGL.height := 250 |};
       UI2210MGL.auto_gain := false |}
    "/opt/log" World_new.

(** The same task once [onResourceAcquisition] has returned. *)
Definition bench_camera_ready : UI2210MGL.Task :=
  match UI2210MGL.onResourceAcquisition bench_camera with
  | Ok t => t
  | Raise _ t => t
  end.

(** Two calls of [setState] in a row with the same arguments: the entity
    left behind and every report made. *)
Definition setState_twice (st : IMC.StateEnum) (code : Z) (e : Entity.Entity)
  : Entity.Entity * list IMC.Message :=
  let '(e1, out1) := Entity.setState st code e in
  let '(e2, out2) := Entity.setState st code e1 in
  (e2, (out1 ++ out2)%list).

(** Where a resolving transition leaves the activation state, before the
    pending request is looked at. *)
Definition landing (o : Entity.Outcome) : IMC.ActivationEnum :=
  match o with
  | Entity.SucceedActivation | Entity.FailDeactivation _ => IMC.EAS_ACTIVE
  | Entity.FailActivation _ | Entity.SucceedDeactivation => IMC.EAS_INACTIVE
  end.

(** The outcome [o] is one of the transition that [e] has in flight. *)
Definition settles (o : Entity.Outcome) (e : Entity.Entity) : bool :=
  match o with
  | Entity.SucceedActivation | Entity.FailActivation _ => Entity.isActivating e
  | Entity.SucceedDeactivation | Entity.FailDeactivation _ => Entity.isDeactivating e
  end.

(** Acting on request [r] from the settled activation state [a]. *)
Definition acted_on (r : Entity.Request) (a : IMC.ActivationEnum) : IMC.ActivationEnum :=
  match r, a with
  | Entity.ReqActivation, IMC.EAS_INACTIVE => IMC.EAS_ACT_IP
  | Entity.ReqDeactivation, IMC.EAS_ACTIVE => IMC.EAS_DEACT_IP
  | _, _ => a
  end.

(** A pass of the bench during which the serial port delivers one byte
    after 0.12 s. *)
Definition bench_reply : Tick :=
  {| tk_poll := {| ev_ready := {[1%positive]}; ev_elapsed := 120000;
                   ev_read := ReadByte "@"%char |};
     tk_inbox := [];
     tk_wait := 0 |}.

(** A pass of the bench during which the line is silent and three messages
    arrive, the second with a value of nine digits. *)
Definition bench_flood : Tick :=
  {| tk_poll := quiet;
     tk_inbox := [ {| IMC.id := 0; IMC.value := 1200 |};
                   {| IMC.id := 1; IMC.value := 100000000 |};
                   {| IMC.id := 0; IMC.value := 0 |} ];
     tk_wait := 0 |}.

(** The camera task of the bench past its first parameter update, on
    system 30, with a path separator for [Path::operator/], a current-name
    message of the logger and frames taken [n] seconds into the run. *)
Definition bench_join (a b : string) : string := a +:+ "/" +:+ b.

Definition bench_host : UI2210MGL.Camera :=
  {| UI2210MGL.task := UI2210MGL.set_starting false bench_camera_ready;
     UI2210MGL.entity := Entity.new;
     UI2210MGL.system_id := 30;
     UI2210MGL.m_image_cv := None;
     UI2210MGL.effects := [] |}.

Definition bench_name : UI2210MGL.LoggingControl :=
  {| UI2210MGL.destination := 30;
     UI2210MGL.op := UI2210MGL.COP_CURRENT_NAME;
     UI2210MGL.name := "20160314/101500" |}.

Definition bench_frame (n : Z) : UI2210MGL.Frame :=
  {| UI2210MGL.timestamp := 1000000 * n; UI2210MGL.gain_factor := 100;
     UI2210MGL.data := [] |}.

(** Two passes of the capture loop: the logger names the folder and a
    frame is read, then nothing arrives. *)
Definition bench_passes : list UI2210MGL.Pass :=
  [ {| UI2210MGL.ps_inbox := [bench_name]; UI2210MGL.ps_frame := Some (bench_frame 1) |};
    {| UI2210MGL.ps_inbox := []; UI2210MGL.ps_frame := None |} ].

(** * Properties *)

(** ** Entity *)

Lemma StateEnum_eqb_eq a b : IMC.StateEnum_eqb a b = true <-> a = b.
Proof. destruct a, b; simpl; split; congruence. Qed.

Lemma StateEnum_eqb_refl a : IMC.StateEnum_eqb a a = true.
Proof. by destruct a. Qed.

Lemma requests_snoc rs r e :
  Entity.requests (rs ++ [r]) e = Entity.request r (Entity.requests rs e).
Proof. unfold Entity.requests. by rewrite fold_left_app. Qed.

Lemma request_in_flight r e :
  Entity.in_flight e = true ->
  Entity.request r e = Entity.with_next (Entity.slot_of r) e.
Proof.
  unfold Entity.in_flight, Entity.isActivating, Entity.isDeactivating.
  destruct r; simpl; unfold Entity.requestActivation, Entity.requestDeactivation;
    destruct (Entity.m_act_state e); simpl; intros H; congruence.
Qed.

Lemma with_next_in_flight n e :
  Entity.in_flight (Entity.with_next n e) = Entity.in_flight e.
Proof. reflexivity. Qed.

Lemma with_next_with_next n m e :
  Entity.with_next n (Entity.with_next m e) = Entity.with_next n e.
Proof. reflexivity. Qed.

(** While a transition is in flight a run of requests only ever touches the
    pending slot. *)
Lemma requests_in_flight rs e :
  Entity.in_flight e = true ->
  Entity.requests rs e = e \/
  exists r, Entity.requests rs e = Entity.with_next (Entity.slot_of r) e.
Proof.
  intros Hf. induction rs as [|r rs IH] using rev_ind.
  - by left.
  - right. exists r. rewrite requests_snoc.
    destruct IH as [-> | [r' ->]].
    + by apply request_in_flight.
    + rewrite request_in_flight by (by rewrite with_next_in_flight).
      apply with_next_with_next.
Qed.

Lemma resolve_with_next_settled o r e :
  settles o e = true ->
  Entity.m_act_state (fst (Entity.resolve o (Entity.with_next (Entity.slot_of r) e)))
    = acted_on r (landing o) /\
  Entity.m_next_act_state (fst (Entity.resolve o (Entity.with_next (Entity.slot_of r) e)))
    = Entity.NAS_SAME.
Proof.
  destruct o, r; simpl;
    unfold Entity.succeedActivation, Entity.failActivation,
      Entity.succeedDeactivation, Entity.failDeactivation,
      Entity.isActivating, Entity.isDeactivating;
    simpl; destruct (Entity.m_act_state e); simpl; intros; try discriminate; done.
Qed.

(** C2. While an activation or deactivation is in flight, whatever requests
    came before, after the request [r] the entity differs from the one the
    transition started with in the pending slot alone, and the slot holds
    [r]; when the transition resolves, by success or failure, the entity
    ends up exactly where it would have with [r] as the only request: the
    slot is emptied and [r], nothing else, is acted on. *)
Theorem pending_slot_last_writer_wins
  (e : Entity.Entity) (rs : list Entity.Request) (r : Entity.Request) (o : Entity.Outcome) :
  Entity.in_flight e = true ->
  settles o e = true ->
  let e' := Entity.requests (rs ++ [r]) e in
  e' = Entity.with_next (Entity.slot_of r) e /\
  Entity.m_next_act_state e' = Entity.slot_of r /\
  Entity.resolve o e' = Entity.resolve o (Entity.request r e) /\
  Entity.m_act_state (fst (Entity.resolve o e')) = acted_on r (landing o) /\
  Entity.m_next_act_state (fst (Entity.resolve o e')) = Entity.NAS_SAME.
Proof.
  intros Hf Hs e'.
  assert (He' : e' = Entity.with_next (Entity.slot_of r) e).
  { subst e'. rewrite requests_snoc.
    destruct (requests_in_flight rs e Hf) as [-> | [r' ->]].
    - by apply request_in_flight.
    - rewrite request_in_flight by (by rewrite with_next_in_flight).
      apply with_next_with_next. }
  rewrite He'. split; [done|]. split; [done|].
  split; [by rewrite (request_in_flight r e Hf)|].
  by apply resolve_with_next_settled.
Qed.

Lemma pending_slot_last_writer_wins_witness :
  let e := Entity.with_act IMC.EAS_ACT_IP Entity.new in
  let e' := Entity.requests
              ([Entity.ReqDeactivation; Entity.ReqActivation] ++ [Entity.ReqDeactivation]) e in
  e' = Entity.with_next Entity.NAS_INACTIVE e /\
  Entity.m_next_act_state e' = Entity.NAS_INACTIVE /\
  Entity.resolve Entity.SucceedActivation e'
    = Entity.resolve Entity.SucceedActivation (Entity.request Entity.ReqDeactivation e) /\
  Entity.m_act_state (fst (Entity.resolve Entity.SucceedActivation e')) = IMC.EAS_DEACT_IP /\
  Entity.m_next_act_state (fst (Entity.resolve Entity.SucceedActivation e')) = Entity.NAS_SAME.
Proof.
  apply (pending_slot_last_writer_wins
           (Entity.with_act IMC.EAS_ACT_IP Entity.new)
           [Entity.ReqDeactivation; Entity.ReqActivation]
           Entity.ReqDeactivation Entity.SucceedActivation); reflexivity.
Defined.

Lemma setState_same st code e :
  IMC.StateEnum_eqb st (Entity.getState e) && (code =? Entity.m_entity_state_code e) = true ->
  Entity.setState st code e = (e, []).
Proof. unfold Entity.setState. by intros ->. Qed.

Lemma setState_changed st code e :
  IMC.StateEnum_eqb st (Entity.getState e) && (code =? Entity.m_entity_state_code e) = false ->
  Entity.setState st code e =
    (Entity.with_state {| IMC.state := st; IMC.description := IMC.DescCode code |} code e,
     [IMC.MEntityState (Entity.m_id e) {| IMC.state := st; IMC.description := IMC.DescCode code |}]).
Proof. unfold Entity.setState. by intros ->. Qed.

(** The second of two equal calls finds its pair cached and is suppressed. *)
Lemma setState_again st code e :
  Entity.setState st code (fst (Entity.setState st code e))
    = (fst (Entity.setState st code e), []).
Proof.
  destruct (IMC.StateEnum_eqb st (Entity.getState e) && (code =? Entity.m_entity_state_code e))
    eqn:Hsame.
  - rewrite (setState_same _ _ _ Hsame). simpl. by apply setState_same.
  - rewrite (setState_changed _ _ _ Hsame). simpl. apply setState_same.
    unfold Entity.getState. simpl. rewrite StateEnum_eqb_refl, Z.eqb_refl. done.
Qed.

(** C5. [setState] is a total function: it fails for no input. Called
    twice in a row with a (state, code) pair that is not the one the entity
    last reported, it makes exactly one report, that of the pair under the
    identifier of the entity, in the first call; the second call finds the
    pair cached, reports nothing and leaves the entity as the first call
    left it. *)
Theorem setState_twice_reports (e : Entity.Entity) (st : IMC.StateEnum) (code : Z) :
  st <> Entity.getState e \/ code <> Entity.m_entity_state_code e ->
  exists e1 r,
    Entity.setState st code e = (e1, [r]) /\
    r = IMC.MEntityState (Entity.m_id e)
          {| IMC.state := st; IMC.description := IMC.DescCode code |} /\
    Entity.getState e1 = st /\ Entity.m_entity_state_code e1 = code /\
    Entity.setState st code e1 = (e1, []) /\
    setState_twice st code e = (e1, [r]).
Proof.
  intros Hnew.
  assert (Hsame : IMC.StateEnum_eqb st (Entity.getState e)
                  && (code =? Entity.m_entity_state_code e) = false).
  { apply andb_false_iff. destruct Hnew as [Hs|Hc].
    - left. apply not_true_is_false. by rewrite StateEnum_eqb_eq.
    - right. by apply Z.eqb_neq. }
  pose proof (setState_again st code e) as Hagain.
  unfold setState_twice. rewrite (setState_changed _ _ _ Hsame) in Hagain |- *.
  cbn [fst] in Hagain. rewrite Hagain.
  eexists _, _. split; [reflexivity|]. split; [reflexivity|].
  split; [reflexivity|]. split; [reflexivity|]. split; [exact Hagain | reflexivity].
Qed.

Lemma setState_twice_reports_witness :
  (IMC.ESTA_NORMAL <> Entity.getState Entity.new \/
   1 <> Entity.m_entity_state_code Entity.new) /\
  exists e1 r,
    Entity.setState IMC.ESTA_NORMAL 1 Entity.new = (e1, [r]) /\
    r = IMC.MEntityState (Entity.m_id Entity.new)
          {| IMC.state := IMC.ESTA_NORMAL; IMC.description := IMC.DescCode 1 |} /\
    Entity.getState e1 = IMC.ESTA_NORMAL /\ Entity.m_entity_state_code e1 = 1 /\
    Entity.setState IMC.ESTA_NORMAL 1 e1 = (e1, []) /\
    setState_twice IMC.ESTA_NORMAL 1 Entity.new = (e1, [r]).
Proof.
  split; [left; discriminate|].
  apply (setState_twice_reports Entity.new IMC.ESTA_NORMAL 1). left. discriminate.
Defined.

(** ** Entity reservation *)

Section Reservation.
Context {P : Platform}.

Lemma reserve_again label owner db i db' :
  Entities.reserve label owner db = inr (i, db') ->
  Entities.reserve label owner db' = inr (i, db').
Proof.
  unfold Entities.reserve.
  destruct (Entities.m_entries db !! label) as [[j o]|] eqn:Hl.
  - case_bool_decide; [|discriminate]. intros [= <- <-]. rewrite Hl.
    by rewrite bool_decide_eq_true_2.
  - intros [= <- <-]. simpl. rewrite lookup_insert_eq.
    by rewrite bool_decide_eq_true_2.
Qed.

(** One pass of the reservation loop never throws; it leaves every existing
    reservation alone and changes nothing at all when the label resolves. *)
Lemma reserve_motor_spec i t :
  exists t', AMC.reserve_motor i t = Ok t' /\
    AMC.m_args t' = AMC.m_args t /\
    AMC.db_of t ⊆ AMC.db_of t' /\
    is_Some (AMC.db_of t' !! AMC.label_of t i) /\
    (is_Some (AMC.db_of t !! AMC.label_of t i) -> t' = t).
Proof.
  unfold AMC.reserve_motor, AMC.resolveEntity, AMC.reserveEntity,
    Entities.resolve, Entities.reserve, AMC.db_of, AMC.label_of.
  destruct (Entities.m_entries (entities (AMC.env t))
              !! nth i (AMC.motor_elabels (AMC.m_args t)) "") as [[j o]|] eqn:Hl.
  - exists t. rewrite Hl. repeat split; eauto.
  - simpl. rewrite Hl. simpl. eexists. split; [reflexivity|]. simpl.
    repeat split.
    + by apply insert_subseteq.
    + rewrite lookup_insert_eq. eauto.
    + intros [? ?]. congruence.
Qed.

Lemma for_range_reserve n : forall first t,
  exists t', AMC.for_range first n AMC.reserve_motor t = Ok t' /\
    AMC.m_args t' = AMC.m_args t /\
    AMC.db_of t ⊆ AMC.db_of t' /\
    (forall i, (first <= i < first + n)%nat -> is_Some (AMC.db_of t' !! AMC.label_of t i)) /\
    ((forall i, (first <= i < first + n)%nat -> is_Some (AMC.db_of t !! AMC.label_of t i)) -> t' = t).
Proof.
  induction n as [|n IH]; intros first t.
  - exists t. simpl. repeat split; try done. intros i Hi. lia.
  - simpl. destruct (reserve_motor_spec first t) as (t1 & -> & Ha1 & Hsub1 & Hin1 & Hid1).
    simpl. destruct (IH (S first) t1) as (t2 & -> & Ha2 & Hsub2 & Hin2 & Hid2).
    exists t2. split; [done|]. split; [congruence|].
    split; [by etrans|]. split.
    + intros i Hi. destruct (decide (i = first)) as [->|Hne].
      * destruct Hin1 as [v Hv]. exists v.
        eapply lookup_weaken; [|exact Hsub2]. exact Hv.
      * assert (AMC.label_of t i = AMC.label_of t1 i) as -> by (unfold AMC.label_of; by rewrite Ha1).
        apply Hin2. lia.
    + intros Hall. assert (t1 = t) as Ht1 by (apply Hid1, Hall; lia).
      subst t1. apply Hid2. intros i Hi. apply Hall. lia.
Qed.

Lemma labels_resolve_spec t :
  AMC.labels_resolve t = true <->
  forall i, (0 <= i < 0 + 4)%nat -> is_Some (AMC.db_of t !! AMC.label_of t i).
Proof.
  unfold AMC.labels_resolve. rewrite forallb_forall. split.
  - intros H i Hi. specialize (H i). rewrite bool_decide_eq_true in H.
    apply H. apply in_seq. lia.
  - intros H i Hi. apply in_seq in Hi. rewrite bool_decide_eq_true. apply H. lia.
Qed.

(** C4. Reserving a label a second time for the same task returns the
    identifier of the first reservation and leaves the data base as it was.
    [onEntityReservation] never throws, keeps every reservation that existed
    (a label that already resolves is not reserved again), makes all four
    motor labels resolve, and run a second time changes nothing; when the
    labels all resolved beforehand it changes nothing the first time
    either. *)
Theorem reservation_idempotent
  (t : AMC.Task) (label owner : string) (db : Entities.EntityDataBase) :
  match Entities.reserve label owner db with
  | inr (i, db') => Entities.reserve label owner db' = inr (i, db')
  | inl _ => True
  end /\
  exists t',
    AMC.onEntityReservation t = Ok t' /\
    AMC.db_of t ⊆ AMC.db_of t' /\
    AMC.labels_resolve t' = true /\
    AMC.onEntityReservation t' = Ok t' /\
    (if AMC.labels_resolve t then t' = t else True).
Proof.
  split.
  - destruct (Entities.reserve label owner db) as [|[i db']] eqn:Hr; [done|].
    by apply (reserve_again _ _ db).
  - unfold AMC.onEntityReservation.
    destruct (for_range_reserve 4 0 t) as (t' & Hrun & Ha & Hsub & Hin & Hid).
    exists t'. split; [done|]. split; [done|].
    assert (Hres : AMC.labels_resolve t' = true).
    { apply labels_resolve_spec. intros i Hi.
      assert (AMC.label_of t' i = AMC.label_of t i) as -> by (unfold AMC.label_of; by rewrite Ha).
      by apply Hin. }
    split; [done|]. split.
    + destruct (for_range_reserve 4 0 t') as (t'' & Hrun' & _ & _ & _ & Hid').
      rewrite Hrun'. f_equal. apply Hid'. by apply labels_resolve_spec.
    + destruct (AMC.labels_resolve t) eqn:Hall; [|done].
      apply Hid. by apply labels_resolve_spec.
Qed.

End Reservation.

(** ** Resource release *)

(** C6. For both tasks [onResourceRelease] run twice leaves what one run
    leaves, and after a run the resource of [onResourceAcquisition] is gone:
    the AMC task's serial port is out of the multiplexer, deleted, and
    [m_uart] is null; the camera task's capture object is deleted and
    [m_capture] is null. A task that holds nothing is left untouched. *)
Theorem onResourceRelease_idempotent {P : Platform} (t : AMC.Task) (c : UI2210MGL.Task) :
  (AMC.onResourceRelease (AMC.onResourceRelease t) = AMC.onResourceRelease t /\
   AMC.m_uart (AMC.onResourceRelease t) = None /\
   match AMC.m_uart t with
   | Some h =>
       (h ∉ Poll.handles (AMC.m_poll (AMC.onResourceRelease t))) /\
       (h ∉ heap (AMC.env (AMC.onResourceRelease t)))
   | None => AMC.onResourceRelease t = t
   end) /\
  (UI2210MGL.onResourceRelease (UI2210MGL.onResourceRelease c)
     = UI2210MGL.onResourceRelease c /\
   UI2210MGL.m_capture (UI2210MGL.onResourceRelease c) = None /\
   match UI2210MGL.m_capture c with
   | Some h => h ∉ heap (UI2210MGL.env (UI2210MGL.onResourceRelease c))
   | None => UI2210MGL.onResourceRelease c = c
   end).
Proof.
  split.
  - unfold AMC.onResourceRelease. destruct (AMC.m_uart t) as [h|] eqn:Hu.
    + simpl. unfold free. simpl. repeat split; apply not_elem_of_difference; right;
        by apply elem_of_singleton.
    + rewrite Hu. done.
  - unfold UI2210MGL.onResourceRelease. destruct (UI2210MGL.m_capture c) as [h|] eqn:Hc.
    + simpl. unfold free. simpl. repeat split. apply not_elem_of_difference; right;
        by apply elem_of_singleton.
    + rewrite Hc. done.
Qed.

(** ** Parameter updates of the camera task *)

(** C7, as stated, fails on the first invocation. The camera task of the
    bench is constructed with "/log" configured while its log folder is the
    "/opt/log" of the context; its first [onUpdateParameters] returns with
    [m_starting] cleared and nothing else changed: the log folder is not the
    configured one and no call was made on a capture object. *)
Lemma onUpdateParameters_first_run_applies_nothing :
  UI2210MGL.onUpdateParameters bench_camera
    = Ok (UI2210MGL.set_starting false bench_camera) /\
  UI2210MGL.m_log_dir (UI2210MGL.set_starting false bench_camera)
    <> UI2210MGL.log_dir (UI2210MGL.m_args (UI2210MGL.set_starting false bench_camera)) /\
  UI2210MGL.capture_calls (UI2210MGL.set_starting false bench_camera) = [] /\
  forall h, ~ UI2210MGL.applied h bench_camera (UI2210MGL.set_starting false bench_camera).
Proof.
  split; [reflexivity|]. split; [discriminate|]. split; [reflexivity|].
  intros h [H _]. discriminate H.
Qed.

(** C7 (amended). The first invocation of [onUpdateParameters], the one
    that finds [m_starting] set, only clears [m_starting], whether or not
    a capture object exists. Every later invocation made while the capture
    object exists applies the current log directory to the task and the
    current area of interest, frame rate and auto-gain setting to the
    capture object, in that order; made while [m_capture] is null, it sets
    the log directory and then dereferences the null pointer. *)
Theorem onUpdateParameters_reapplies (t : UI2210MGL.Task) :
  match UI2210MGL.m_starting t, UI2210MGL.m_capture t with
  | true, _ => UI2210MGL.onUpdateParameters t = Ok (UI2210MGL.set_starting false t)
  | false, Some h =>
      exists t',
        UI2210MGL.onUpdateParameters t = Ok t' /\
        UI2210MGL.applied h t t' /\
        UI2210MGL.m_args t' = UI2210MGL.m_args t /\
        UI2210MGL.m_capture t' = Some h /\
        UI2210MGL.m_starting t' = false
  | false, None =>
      UI2210MGL.onUpdateParameters t
        = Raise NullPointer
            (UI2210MGL.set_log_dir (UI2210MGL.log_dir (UI2210MGL.m_args t)) t)
  end.
Proof.
  unfold UI2210MGL.onUpdateParameters.
  destruct (UI2210MGL.m_starting t) eqn:Hs; [done|].
  destruct (UI2210MGL.m_capture t) as [h|] eqn:Hc.
  - unfold UI2210MGL.call. simpl. rewrite Hc. simpl.
    eexists. split; [reflexivity|]. unfold UI2210MGL.applied. simpl.
    repeat split; try done. by rewrite <- !app_assoc.
  - unfold UI2210MGL.call. simpl. by rewrite Hc.
Qed.

Lemma onUpdateParameters_reapplies_witness :
  exists t',
    UI2210MGL.onUpdateParameters (UI2210MGL.set_starting false bench_camera_ready) = Ok t' /\
    UI2210MGL.applied 1%positive (UI2210MGL.set_starting false bench_camera_ready) t' /\
    UI2210MGL.m_args t' = UI2210MGL.m_args (UI2210MGL.set_starting false bench_camera_ready) /\
    UI2210MGL.m_capture t' = Some 1%positive /\
    UI2210MGL.m_starting t' = false.
Proof.
  exact (onUpdateParameters_reapplies (UI2210MGL.set_starting false bench_camera_ready)).
Defined.

(** ** The AMC task: commands on the serial line *)

Section Commands.
Context {P : Platform}.

Lemma append_cons x (a b : string) : String x a +:+ b = String x (a +:+ b).
Proof. reflexivity. Qed.

Lemma append_nil (b : string) : "" +:+ b = b.
Proof. reflexivity. Qed.

Lemma bytes_app a b :
  list_ascii_of_string (a +:+ b) = (list_ascii_of_string a ++ list_ascii_of_string b)%list.
Proof.
  induction a as [|c a IH]; [done|]. rewrite append_cons. simpl. by rewrite IH.
Qed.

Lemma bytes_length a : List.length (list_ascii_of_string a) = String.length a.
Proof. induction a as [|c a IH]; simpl; [done | by rewrite IH]. Qed.

Lemma append_assoc (a b c : string) : (a +:+ b) +:+ c = a +:+ (b +:+ c).
Proof.
  induction a as [|x a IH]; [done|]. rewrite !append_cons. by rewrite IH.
Qed.

Lemma length_append (a b : string) :
  String.length (a +:+ b) = (String.length a + String.length b)%nat.
Proof.
  induction a as [|x a IH]; [done|]. rewrite append_cons. simpl. by rewrite IH.
Qed.

(** The checksum the code computes, over all of [m_msg] but its last
    character, is the checksum of what precedes the ['*']. *)
Lemma csum_of_body body :
  AMC.csum_of (body +:+ "*") = CRC8_putArray AMC.c_poly (list_ascii_of_string body).
Proof.
  unfold AMC.csum_of. rewrite bytes_app, length_app. simpl.
  replace (List.length (list_ascii_of_string body) + 1 - 1)%nat
    with (List.length (list_ascii_of_string body)) by lia.
  by rewrite take_app_length.
Qed.

Lemma frame_body body :
  (list_ascii_of_string (body +:+ "*") ++ [AMC.csum_of (body +:+ "*")])%list
  = AMC.command_bytes body.
Proof. unfold AMC.command_bytes. by rewrite csum_of_body. Qed.

(** The statements every command shares: with the port open the text and
    its checksum go out, whatever the length of the text. *)
Lemma transmit_eq text t h :
  AMC.m_uart t = Some h ->
  AMC.transmit text t = Ok (Z.of_nat (String.length text) + 1, AMC.sent text t).
Proof.
  intros Hu. unfold AMC.transmit, AMC.sprintf_m_msg, AMC.uart_write.
  simpl. rewrite Hu. simpl. rewrite Hu. simpl.
  rewrite bytes_length, <- app_assoc. reflexivity.
Qed.

(** With [m_uart] null the first write dereferences the null pointer. *)
Lemma transmit_null text t :
  AMC.m_uart t = None ->
  AMC.transmit text t
  = Raise NullPointer (AMC.set_csum (AMC.csum_of text) (AMC.set_msg text t)).
Proof.
  intros Hu. unfold AMC.transmit, AMC.sprintf_m_msg, AMC.uart_write.
  simpl. by rewrite Hu.
Qed.

Lemma write_text (motor rpm : Z) :
  "@S," +:+ pretty motor +:+ "," +:+ pretty rpm +:+ ",*"
  = ("@S," +:+ pretty motor +:+ "," +:+ pretty rpm +:+ ",") +:+ "*".
Proof. by rewrite !append_assoc. Qed.

Lemma read_text (motor : Z) f :
  "@R," +:+ pretty motor +:+ "," +:+ AMC.field_name f +:+ ",*"
  = ("@R," +:+ pretty motor +:+ "," +:+ AMC.field_name f +:+ ",") +:+ "*".
Proof. by rewrite !append_assoc. Qed.

Lemma sent_wire text t :
  wire (AMC.env (AMC.sent text t))
  = (wire (AMC.env t) ++ (list_ascii_of_string text ++ [AMC.csum_of text]))%list.
Proof. reflexivity. Qed.

Lemma sent_write_wire (motor rpm : Z) t :
  wire (AMC.env (AMC.sent ("@S," +:+ pretty motor +:+ "," +:+ pretty rpm +:+ ",*") t))
  = (wire (AMC.env t) ++ AMC.write_command motor rpm)%list.
Proof. by rewrite sent_wire, write_text, frame_body. Qed.

Lemma sent_read_wire (motor : Z) f t :
  wire (AMC.env (AMC.sent ("@R," +:+ pretty motor +:+ "," +:+ AMC.field_name f +:+ ",*") t))
  = (wire (AMC.env t) ++ AMC.read_request motor f)%list.
Proof. by rewrite sent_wire, read_text, frame_body. Qed.

Lemma setRPM_eq (m r : Z) t h :
  AMC.m_uart t = Some h ->
  AMC.setRPM m r t
  = Ok (Z.of_nat (String.length ("@S," +:+ pretty m +:+ "," +:+ pretty r +:+ ",*")) + 1,
        AMC.sent ("@S," +:+ pretty m +:+ "," +:+ pretty r +:+ ",*") t).
Proof. intros Hu. unfold AMC.setRPM. by apply transmit_eq with h. Qed.

Lemma commanded_sent (motor rpm : Z) t :
  AMC.commanded [(motor, rpm)] t
    (AMC.sent ("@S," +:+ pretty motor +:+ "," +:+ pretty rpm +:+ ",*") t).
Proof.
  unfold AMC.commanded. rewrite sent_write_wire.
  unfold AMC.write_commands. simpl. rewrite app_nil_r. repeat split; done.
Qed.

(** [setRPM] puts exactly one write command on the line and returns its
    length. *)
Lemma setRPM_command (motor rpm : Z) t h :
  AMC.m_uart t = Some h ->
  exists s,
    AMC.setRPM motor rpm t
      = Ok (Z.of_nat (List.length (AMC.write_command motor rpm)), s) /\
    AMC.commanded [(motor, rpm)] t s /\
    clock (AMC.env s) = clock (AMC.env t) /\
    AMC.m_msg s = "@S," +:+ pretty motor +:+ "," +:+ pretty rpm +:+ ",*".
Proof.
  intros Hu. rewrite (setRPM_eq _ _ _ h Hu).
  eexists. split.
  - f_equal. f_equal. unfold AMC.write_command, AMC.command_bytes.
    rewrite length_app, bytes_length, <- write_text. simpl. lia.
  - split; [apply commanded_sent | done].
Qed.

(** The four branches of [readParameterAMC] differ in the field name only. *)
Lemma readParameterAMC_eq (motor : Z) f t :
  AMC.readParameterAMC motor f t =
    do r <- AMC.transmit ("@R," +:+ pretty motor +:+ "," +:+ AMC.field_name f +:+ ",*") t ;
    Ok (snd r).
Proof. destruct f; unfold AMC.readParameterAMC; simpl;
  match goal with |- bind ?m _ = bind ?m' _ => change m' with m; destruct m as [[? ?]|]; done end.
Qed.

(** Likewise [readParameterAMC] puts exactly one read request on the line. *)
Lemma readParameterAMC_request (motor : Z) f t h :
  AMC.m_uart t = Some h ->
  AMC.readParameterAMC motor f t
    = Ok (AMC.sent ("@R," +:+ pretty motor +:+ "," +:+ AMC.field_name f +:+ ",*") t) /\
  wire (AMC.env (AMC.sent ("@R," +:+ pretty motor +:+ "," +:+ AMC.field_name f +:+ ",*") t))
    = (wire (AMC.env t) ++ AMC.read_request motor f)%list.
Proof.
  intros Hu. rewrite readParameterAMC_eq, (transmit_eq _ _ h Hu).
  split; [done|]. apply sent_read_wire.
Qed.

(** C3. With the serial port open, for every motor number and every value
    [setRPM] returns and puts on the line exactly the text
    "@S,<motor>,<value>,*" followed by one byte, the CRC-8 of the bytes
    that precede the ['*']; for every motor number and each of the four
    fields [readParameterAMC] returns and puts on the line exactly
    "@R,<motor>,<field>,*", field one of rpm, tmp, pwr and sta, followed by
    the CRC-8 computed the same way. *)
Theorem commands_are_framed
  (motor rpm : Z) (f : AMC.AmcMessages) (t : AMC.Task) (h : Handle) :
  AMC.m_uart t = Some h ->
  (exists s,
     AMC.setRPM motor rpm t
       = Ok (Z.of_nat (String.length ("@S," +:+ pretty motor +:+ "," +:+ pretty rpm +:+ ",*"))
             + 1, s) /\
     wire (AMC.env s)
       = (wire (AMC.env t)
            ++ list_ascii_of_string ("@S," +:+ pretty motor +:+ "," +:+ pretty rpm +:+ ",*")
            ++ [CRC8_putArray AMC.c_poly
                  (list_ascii_of_string
                     ("@S," +:+ pretty motor +:+ "," +:+ pretty rpm +:+ ","))])%list) /\
  (exists s,
     AMC.readParameterAMC motor f t = Ok s /\
     wire (AMC.env s)
       = (wire (AMC.env t)
            ++ list_ascii_of_string
                 ("@R," +:+ pretty motor +:+ "," +:+ AMC.field_name f +:+ ",*")
            ++ [CRC8_putArray AMC.c_poly
                  (list_ascii_of_string
                     ("@R," +:+ pretty motor +:+ "," +:+ AMC.field_name f +:+ ","))])%list) /\
  In (AMC.field_name f) ["rpm"; "tmp"; "pwr"; "sta"].
Proof.
  intros Hu. split; [|split].
  - rewrite (setRPM_eq _ _ _ h Hu). eexists. split; [reflexivity|].
    rewrite sent_write_wire. unfold AMC.write_command, AMC.command_bytes.
    by rewrite <- write_text.
  - destruct (readParameterAMC_request motor f t h Hu) as [-> Hw].
    eexists. split; [reflexivity|]. rewrite Hw.
    unfold AMC.read_request, AMC.command_bytes. by rewrite <- read_text.
  - destruct f; simpl; tauto.
Qed.

(** [consume] with the port open: the pair of commands of the message, or
    nothing, and half a second when the message is served. *)
Lemma consume_spec msg t h :
  AMC.m_uart t = Some h ->
  exists s, AMC.consume msg t = Ok s /\
    AMC.commanded (AMC.commands_of msg) t s /\
    clock (AMC.env s)
      = clock (AMC.env t) + (if AMC.served msg then 2 * AMC.c_sleep_time else 0) /\
    (if AMC.served msg
     then AMC.fits (AMC.m_msg s) = AMC.fits ("@S,0," +:+ pretty (IMC.value msg) +:+ ",*")
     else s = t).
Proof.
  intros Hu. unfold AMC.consume, AMC.commands_of, AMC.served.
  assert (Hpair : forall a b : Z,
    String.length (pretty b) = 1%nat ->
    exists s,
      (do '(_, t0) <- AMC.setRPM a (IMC.value msg) t;
       do '(_, t1) <- AMC.setRPM b (IMC.value msg) (AMC.usleep AMC.c_sleep_time t0);
       Ok (AMC.usleep AMC.c_sleep_time t1)) = Ok s /\
      AMC.commanded [(a, IMC.value msg); (b, IMC.value msg)] t s /\
      clock (AMC.env s) = clock (AMC.env t) + 2 * AMC.c_sleep_time /\
      AMC.fits (AMC.m_msg s) = AMC.fits ("@S,0," +:+ pretty (IMC.value msg) +:+ ",*")).
  { intros a b Hb.
    destruct (setRPM_command a (IMC.value msg) t h Hu) as (s1 & -> & Hc1 & Hk1 & _).
    cbn [bind].
    assert (Hu1 : AMC.m_uart (AMC.usleep AMC.c_sleep_time s1) = Some h).
    { simpl. destruct Hc1 as (_&_&_&->&_). done. }
    destruct (setRPM_command b (IMC.value msg) _ h Hu1) as (s2 & -> & Hc2 & Hk2 & Hm2).
    cbn [bind]. eexists. split; [reflexivity|].
    split; [|split].
    - assert (Hc1' : AMC.commanded [(a, IMC.value msg)] t (AMC.usleep AMC.c_sleep_time s1)).
      { revert Hc1. unfold AMC.commanded. simpl. tauto. }
      revert Hc1' Hc2. unfold AMC.commanded, AMC.write_commands. simpl.
      intros (?&?&?&?&?&?&?&?&?&?&?&?&?&?&Hw1) (?&?&?&?&?&?&?&?&?&?&?&?&?&?&Hw2).
      repeat split; try congruence.
      rewrite Hw2, Hw1, !app_nil_r. by rewrite <- app_assoc.
    - simpl. rewrite Hk2. simpl. rewrite Hk1. unfold AMC.c_sleep_time. lia.
    - simpl. rewrite Hm2. unfold AMC.fits. rewrite !length_append, Hb. done. }
  destruct (IMC.id msg =? 0); cbn [orb].
  - apply Hpair. reflexivity.
  - destruct (IMC.id msg =? 1); [apply Hpair; reflexivity|].
    exists t. split; [done|]. split; [|split; [lia | done]].
    unfold AMC.commanded, AMC.write_commands. simpl. rewrite app_nil_r. tauto.
Qed.


End Commands.

Lemma commands_are_framed_witness :
  AMC.m_uart bench_task = Some 1%positive /\
  (exists s,
     AMC.setRPM 0 100000000 bench_task
       = Ok (Z.of_nat (String.length ("@S," +:+ pretty 0 +:+ "," +:+ pretty 100000000 +:+ ",*"))
             + 1, s) /\
     wire (AMC.env s)
       = (wire (AMC.env bench_task)
            ++ list_ascii_of_string ("@S," +:+ pretty 0 +:+ "," +:+ pretty 100000000 +:+ ",*")
            ++ [@CRC8_putArray bench AMC.c_poly
                  (list_ascii_of_string
                     ("@S," +:+ pretty 0 +:+ "," +:+ pretty 100000000 +:+ ","))])%list) /\
  (exists s,
     AMC.readParameterAMC 0 AMC.STATE bench_task = Ok s /\
     wire (AMC.env s)
       = (wire (AMC.env bench_task)
            ++ list_ascii_of_string
                 ("@R," +:+ pretty 0 +:+ "," +:+ AMC.field_name AMC.STATE +:+ ",*")
            ++ [@CRC8_putArray bench AMC.c_poly
                  (list_ascii_of_string
                     ("@R," +:+ pretty 0 +:+ "," +:+ AMC.field_name AMC.STATE +:+ ","))])%list) /\
  In (AMC.field_name AMC.STATE) ["rpm"; "tmp"; "pwr"; "sta"].
Proof.
  split; [vm_compute; reflexivity|].
  apply (commands_are_framed 0 100000000 AMC.STATE bench_task 1%positive).
  vm_compute. reflexivity.
Defined.


(** ** The AMC task: the main loop *)

Section MainLoop.
Context {P : Platform}.

Lemma Ok_final (r : Result AMC.Task AMC.Task) :
  is_Ok r = true -> r = Ok (AMC.final r).
Proof. destruct r; [done | discriminate]. Qed.

Lemma main_phase_spec t :
  AMC.main_phase t = true <->
  is_Some (AMC.m_uart t) /\ is_Some (AMC.m_parse t) /\ AMC.labels_resolve t = true /\
  Counter.m_top (AMC.m_wdog t) = 10000000 /\ 0 <= AMC.m_cnt_motor t < 4.
Proof.
  unfold AMC.main_phase. rewrite !andb_true_iff, !bool_decide_eq_true.
  rewrite Z.eqb_eq, Z.leb_le, Z.ltb_lt. tauto.
Qed.

Lemma kept_refl t : AMC.kept t t.
Proof. unfold AMC.kept. tauto. Qed.

Lemma kept_trans t s u : AMC.kept t s -> AMC.kept s u -> AMC.kept t u.
Proof.
  unfold AMC.kept. intros (?&?&?&?&?&?&?) (?&?&?&?&?&?&?).
  repeat split; try congruence. tauto.
Qed.

Lemma commanded_kept cmds t s : AMC.commanded cmds t s -> AMC.kept t s.
Proof.
  unfold AMC.commanded, AMC.kept. intros (?&?&?&?&?&?&Hp&Hw&?&?&?&?&?&?&?).
  rewrite Hp, Hw. repeat split; try done.
Qed.

Lemma commanded_nil t s :
  AMC.m_name s = AMC.m_name t -> AMC.m_rpm_val s = AMC.m_rpm_val t ->
  AMC.m_args s = AMC.m_args t -> AMC.m_uart s = AMC.m_uart t ->
  AMC.m_poll s = AMC.m_poll t -> AMC.m_buffer s = AMC.m_buffer t ->
  AMC.m_parse s = AMC.m_parse t -> AMC.m_wdog s = AMC.m_wdog t ->
  AMC.m_cnt_motor s = AMC.m_cnt_motor t -> AMC.m_entity s = AMC.m_entity t ->
  heap (AMC.env s) = heap (AMC.env t) -> bus (AMC.env s) = bus (AMC.env t) ->
  entities (AMC.env s) = entities (AMC.env t) -> log (AMC.env s) = log (AMC.env t) ->
  wire (AMC.env s) = wire (AMC.env t) ->
  AMC.commanded [] t s.
Proof.
  intros. unfold AMC.commanded, AMC.write_commands. simpl. rewrite app_nil_r. tauto.
Qed.

Lemma commanded_trans c1 c2 t s u :
  AMC.commanded c1 t s -> AMC.commanded c2 s u -> AMC.commanded (c1 ++ c2) t u.
Proof.
  unfold AMC.commanded.
  intros (?&?&?&?&?&?&?&?&?&?&?&?&?&?&Hw1) (?&?&?&?&?&?&?&?&?&?&?&?&?&?&Hw2).
  repeat split; try congruence.
  rewrite Hw2, Hw1. unfold AMC.write_commands.
  by rewrite map_app, concat_app, app_assoc.
Qed.

Lemma commanded_usleep cmds t s dt :
  AMC.commanded cmds t s -> AMC.commanded cmds t (AMC.usleep dt s).
Proof. unfold AMC.commanded. simpl. tauto. Qed.

Lemma commanded_uart cmds t s h :
  AMC.commanded cmds t s -> AMC.m_uart t = Some h -> AMC.m_uart s = Some h.
Proof. unfold AMC.commanded. intros (?&?&?&?&?) ?. congruence. Qed.

Lemma consume_all_spec inbox : forall t h,
  AMC.m_uart t = Some h ->
  exists s, AMC.consume_all inbox t = Ok s /\
    AMC.commanded (List.concat (List.map AMC.commands_of inbox)) t s /\
    clock (AMC.env s)
      = clock (AMC.env t)
        + 2 * AMC.c_sleep_time * Z.of_nat (List.length (List.filter AMC.served inbox)).
Proof.
  induction inbox as [|m inbox IH]; intros t h Hu.
  - exists t. split; [done|]. split; [by apply commanded_nil | simpl; lia].
  - destruct (consume_spec m t h Hu) as (s1 & E1 & C1 & K1 & _).
    cbn [AMC.consume_all]. rewrite E1. cbn [bind].
    destruct (IH s1 h (commanded_uart _ _ _ _ C1 Hu)) as (s & -> & C & K).
    exists s. split; [done|]. split.
    + cbn [List.map List.concat]. by eapply commanded_trans.
    + rewrite K, K1. cbn [List.filter]. unfold AMC.c_sleep_time.
      destruct (AMC.served m); cbn [List.length]; lia.
Qed.

Lemma poll_spec T ev t b t1 :
  AMC.poll T ev t = (b, t1) ->
  AMC.kept t t1 /\ AMC.m_parse t1 = AMC.m_parse t /\
  AMC.m_cnt_motor t1 = AMC.m_cnt_motor t /\
  AMC.m_wdog t1 = AMC.m_wdog t /\
  wire (AMC.env t1) = wire (AMC.env t) /\
  clock (AMC.env t1) = clock (AMC.env t) + (if b then clamp 0 T (ev_elapsed ev) else T).
Proof.
  unfold AMC.poll. intros [= <- <-]. unfold AMC.kept. simpl. repeat split; done.
Qed.

Lemma poll_nothing_pending T ev t :
  ev_ready ev = ∅ -> fst (AMC.poll T ev t) = false.
Proof.
  intros Hr. unfold AMC.poll, Poll.any, Poll.poll. simpl. rewrite Hr.
  apply bool_decide_eq_false. intros H. apply H.
  apply elem_of_equiv_empty_L. intros x [_ Hx]%elem_of_intersection.
  by apply not_elem_of_empty in Hx.
Qed.

Lemma check_watchdog_fresh t :
  Counter.m_top (AMC.m_wdog t) = 10000000 ->
  Counter.m_last (AMC.m_wdog t) = clock (AMC.env t) ->
  AMC.check_watchdog t = Ok t.
Proof.
  intros Htop Hlast. unfold AMC.check_watchdog, Counter.overflow.
  rewrite Htop, Hlast, Z.sub_diag. done.
Qed.

Lemma on_ready_spec rx t h p :
  AMC.m_uart t = Some h -> AMC.m_parse t = Some p ->
  exists s, AMC.on_ready rx t = Ok s /\ AMC.kept t s /\
    AMC.m_cnt_motor s = AMC.m_cnt_motor t /\
    wire (AMC.env s) = wire (AMC.env t) /\
    clock (AMC.env s) = clock (AMC.env t) /\
    Counter.m_last (AMC.m_wdog s) = clock (AMC.env s).
Proof.
  intros Hu Hp. unfold AMC.on_ready, AMC.checkSerialPort. rewrite Hu.
  destruct (Poll.wasTriggered h (AMC.m_poll t)); [destruct rx|]; simpl; rewrite ?Hp; simpl;
    (eexists; split; [reflexivity|]); unfold AMC.kept; simpl; rewrite ?Hp;
    repeat split; eauto.
Qed.

Lemma next_motor_cnt t :
  0 <= AMC.m_cnt_motor t < 4 ->
  AMC.m_cnt_motor (AMC.next_motor t) = (AMC.m_cnt_motor t + 1) mod 4 /\
  0 <= AMC.m_cnt_motor (AMC.next_motor t) < 4.
Proof.
  intros Hc. unfold AMC.next_motor. simpl.
  rewrite (Z.mod_small (AMC.m_cnt_motor t + 1) 256) by lia.
  destruct (4 <=? AMC.m_cnt_motor t + 1) eqn:H4; simpl.
  - apply Z.leb_le in H4. assert (AMC.m_cnt_motor t = 3) as -> by lia. done.
  - apply Z.leb_gt in H4. rewrite Z.mod_small by lia. lia.
Qed.

Lemma on_timeout_eq inbox w t h p eid o :
  AMC.m_uart t = Some h -> AMC.m_parse t = Some p ->
  0 <= AMC.m_cnt_motor t < 4 ->
  AMC.db_of t !! AMC.label_of t (Z.to_nat (AMC.m_cnt_motor t)) = Some (eid, o) ->
  AMC.on_timeout inbox w t =
    do s <- AMC.waitForMessages 750000 inbox w (AMC.requested eid p t) ;
    Ok (AMC.wdog_reset s).
Proof.
  intros Hu Hp Hc Hl. unfold AMC.on_timeout.
  destruct (readParameterAMC_request (AMC.m_cnt_motor t) AMC.RPM t h Hu) as [-> _].
  simpl. rewrite Hp. unfold AMC.dispatchRpm. simpl.
  assert ((0 <=? AMC.m_cnt_motor t) && (AMC.m_cnt_motor t <? AMC.c_max_motors) = true) as ->.
  { apply andb_true_iff. split; [apply Z.leb_le | apply Z.ltb_lt]; unfold AMC.c_max_motors; lia. }
  unfold AMC.resolveEntity, Entities.resolve. simpl.
  unfold AMC.db_of, AMC.label_of in Hl. rewrite Hl.
  unfold AMC.requested. simpl. reflexivity.
Qed.

Lemma labels_resolve_kept t s :
  AMC.kept t s -> AMC.labels_resolve s = AMC.labels_resolve t.
Proof.
  unfold AMC.kept, AMC.labels_resolve. intros (_ & Ha & _ & _ & _ & He & _).
  by rewrite Ha, He.
Qed.

Lemma main_phase_kept t s :
  AMC.main_phase t = true -> AMC.kept t s -> 0 <= AMC.m_cnt_motor s < 4 ->
  AMC.main_phase s = true.
Proof.
  intros Hm Hk Hc. apply main_phase_spec in Hm as (Hu & Hp & Hl & Htop & _).
  apply main_phase_spec. pose proof (labels_resolve_kept _ _ Hk) as Hl'.
  destruct Hk as (_ & _ & Hu' & Hp' & Htop' & _).
  rewrite Hu', Htop', Hl'. auto.
Qed.

Lemma labels_resolve_lookup t c :
  AMC.labels_resolve t = true -> 0 <= c < 4 ->
  is_Some (AMC.db_of t !! AMC.label_of t (Z.to_nat c)).
Proof.
  intros Hl Hc. unfold AMC.labels_resolve in Hl. rewrite forallb_forall in Hl.
  specialize (Hl (Z.to_nat c)). rewrite bool_decide_eq_true in Hl.
  apply Hl. apply in_seq. lia.
Qed.

Lemma next_motor_env t : AMC.env (AMC.next_motor t) = AMC.env t.
Proof. unfold AMC.next_motor. by destruct (4 <=? _). Qed.

Lemma next_motor_kept t :
  AMC.kept t (AMC.next_motor t) /\
  AMC.m_parse (AMC.next_motor t) = AMC.m_parse t /\
  AMC.m_wdog (AMC.next_motor t) = AMC.m_wdog t.
Proof. unfold AMC.next_motor, AMC.kept. destruct (4 <=? _); simpl; tauto. Qed.

Lemma requested_spec eid p t :
  0 <= AMC.m_cnt_motor t < 4 ->
  AMC.kept t (AMC.requested eid p t) /\
  AMC.m_parse (AMC.requested eid p t) = AMC.m_parse t /\
  AMC.m_wdog (AMC.requested eid p t) = AMC.m_wdog t /\
  AMC.m_cnt_motor (AMC.requested eid p t) = (AMC.m_cnt_motor t + 1) mod 4 /\
  clock (AMC.env (AMC.requested eid p t)) = clock (AMC.env t) + AMC.c_sleep_time /\
  wire (AMC.env (AMC.requested eid p t))
    = (wire (AMC.env t) ++ AMC.read_request (AMC.m_cnt_motor t) AMC.RPM)%list.
Proof.
  intros Hc. unfold AMC.requested.
  match goal with |- context [AMC.next_motor ?u] => remember u as t1 eqn:Ht1 end.
  assert (H1 : AMC.kept t t1 /\ AMC.m_parse t1 = AMC.m_parse t /\
               AMC.m_wdog t1 = AMC.m_wdog t /\ AMC.m_cnt_motor t1 = AMC.m_cnt_motor t /\
               clock (AMC.env t1) = clock (AMC.env t) + AMC.c_sleep_time /\
               wire (AMC.env t1)
               = (wire (AMC.env t) ++ AMC.read_request (AMC.m_cnt_motor t) AMC.RPM)%list).
  { subst t1. unfold AMC.kept. simpl. repeat split; try done.
    apply (sent_read_wire (AMC.m_cnt_motor t) AMC.RPM). }
  clear Ht1. destruct H1 as (Hk & Hp & Hwd & Hc1 & Hclk & Hw).
  destruct (next_motor_cnt t1) as [Hn _]; [by rewrite Hc1|].
  destruct (next_motor_kept t1) as (Hk' & Hp' & Hwd').
  rewrite next_motor_env, Hn, Hc1, Hp', Hwd'.
  split; [by eapply kept_trans|]. done.
Qed.

Lemma advance_spec dt t :
  AMC.kept t (AMC.advance dt t) /\
  AMC.m_parse (AMC.advance dt t) = AMC.m_parse t /\
  AMC.m_wdog (AMC.advance dt t) = AMC.m_wdog t /\
  AMC.m_cnt_motor (AMC.advance dt t) = AMC.m_cnt_motor t /\
  wire (AMC.env (AMC.advance dt t)) = wire (AMC.env t) /\
  clock (AMC.env (AMC.advance dt t)) = clock (AMC.env t) + dt.
Proof. unfold AMC.kept. simpl. tauto. Qed.

Lemma wdog_reset_spec t :
  AMC.kept t (AMC.wdog_reset t) /\
  AMC.m_parse (AMC.wdog_reset t) = AMC.m_parse t /\
  AMC.m_cnt_motor (AMC.wdog_reset t) = AMC.m_cnt_motor t /\
  AMC.env (AMC.wdog_reset t) = AMC.env t /\
  Counter.m_last (AMC.m_wdog (AMC.wdog_reset t)) = clock (AMC.env t).
Proof. unfold AMC.kept. simpl. tauto. Qed.

Lemma kept_uart t s h : AMC.kept t s -> AMC.m_uart t = Some h -> AMC.m_uart s = Some h.
Proof. intros (_ & _ & -> & _) ?. done. Qed.

Lemma kept_top t s :
  AMC.kept t s -> Counter.m_top (AMC.m_wdog t) = 10000000 ->
  Counter.m_top (AMC.m_wdog s) = 10000000.
Proof. intros (_ & _ & _ & _ & -> & _) ?. done. Qed.

Lemma advance_frame dt t :
  bus (AMC.env (AMC.advance dt t)) = bus (AMC.env t) /\
  AMC.m_rpm_val (AMC.advance dt t) = AMC.m_rpm_val t /\
  log (AMC.env (AMC.advance dt t)) = log (AMC.env t).
Proof. done. Qed.

Lemma polled_frame T ev t :
  let t1 := AMC.advance T (AMC.set_poll (Poll.poll (ev_ready ev) (AMC.m_poll t)) t) in
  AMC.kept t t1 /\ AMC.m_uart t1 = AMC.m_uart t /\ AMC.m_parse t1 = AMC.m_parse t /\
  AMC.m_rpm_val t1 = AMC.m_rpm_val t /\ AMC.m_cnt_motor t1 = AMC.m_cnt_motor t /\
  AMC.m_entity t1 = AMC.m_entity t /\
  bus (AMC.env t1) = bus (AMC.env t) /\ wire (AMC.env t1) = wire (AMC.env t) /\
  log (AMC.env t1) = log (AMC.env t) /\
  clock (AMC.env t1) = clock (AMC.env t) + T /\
  AMC.db_of t1 = AMC.db_of t /\ AMC.label_of t1 = AMC.label_of t /\
  AMC.m_poll t1 = Poll.poll (ev_ready ev) (AMC.m_poll t) /\
  Counter.m_top (AMC.m_wdog t1) = Counter.m_top (AMC.m_wdog t).
Proof. unfold AMC.kept. simpl. repeat split; eauto. Qed.

Lemma checkSerialPort_spec rx t h p :
  AMC.m_uart t = Some h -> AMC.m_parse t = Some p ->
  exists s, AMC.checkSerialPort rx t = Ok s /\
    AMC.kept t s /\ AMC.m_rpm_val s = AMC.m_rpm_val t /\ AMC.m_poll s = AMC.m_poll t /\
    AMC.m_wdog s = AMC.m_wdog t /\ AMC.m_cnt_motor s = AMC.m_cnt_motor t /\
    clock (AMC.env s) = clock (AMC.env t) /\ heap (AMC.env s) = heap (AMC.env t) /\
    wire (AMC.env s) = wire (AMC.env t) /\ bus (AMC.env s) = bus (AMC.env t) /\
    AMC.m_parse s
      = Some (if Poll.wasTriggered h (AMC.m_poll t)
              then match rx with ReadByte b => ParserAMC b p | _ => p end
              else p) /\
    log (AMC.env s)
      = (log (AMC.env t) ++
         if Poll.wasTriggered h (AMC.m_poll t)
         then match rx with
              | ReadByte _ => []
              | ReadNothing => ["unknown read error"]
              | ReadError what => ["read error: " +:+ what]
              end
         else [])%list.
Proof.
  intros Hu Hp. unfold AMC.checkSerialPort. rewrite Hu.
  destruct (Poll.wasTriggered h (AMC.m_poll t)); [destruct rx|]; simpl; rewrite ?Hp;
    (eexists; split; [reflexivity|]); unfold AMC.kept; simpl; rewrite ?Hp, ?app_nil_r;
    repeat split; eauto.
Qed.

Lemma advance_poll dt (t : AMC.Task) : AMC.m_poll (AMC.advance dt t) = AMC.m_poll t.
Proof. reflexivity. Qed.

Lemma poll_handles T ev t s :
  Poll.handles (AMC.m_poll s) = Poll.handles (AMC.m_poll t) ->
  fst (AMC.poll T ev s) = fst (AMC.poll T ev t).
Proof. intros H. unfold AMC.poll, Poll.any, Poll.poll. simpl. by rewrite H. Qed.

(** A pass that finds the multiplexer ready. *)
Lemma ready_pass_shape (k : Tick) (t : AMC.Task) :
  AMC.main_phase t = true ->
  fst (AMC.poll 500000 (tk_poll k) t) = true ->
  exists s h p,
    AMC.iteration k t = Ok s /\ AMC.m_uart t = Some h /\ AMC.m_parse t = Some p /\
    AMC.m_parse s
      = Some (if Poll.wasTriggered h (Poll.poll (ev_ready (tk_poll k)) (AMC.m_poll t))
              then match ev_read (tk_poll k) with ReadByte b => ParserAMC b p | _ => p end
              else p) /\
    AMC.m_rpm_val s = AMC.m_rpm_val t /\ AMC.m_entity s = AMC.m_entity t /\
    bus (AMC.env s) = bus (AMC.env t) /\ wire (AMC.env s) = wire (AMC.env t) /\
    clock (AMC.env s) = clock (AMC.env t) + clamp 0 500000 (ev_elapsed (tk_poll k)) /\
    Counter.m_last (AMC.m_wdog s) = clock (AMC.env s) /\
    AMC.kept t s /\ AMC.m_cnt_motor s = AMC.m_cnt_motor t /\
    Poll.handles (AMC.m_poll s) = Poll.handles (AMC.m_poll t).
Proof.
  intros Hm Hb. apply main_phase_spec in Hm as ([h Hu] & [p Hp] & Hl & Htop & Hc).
  unfold AMC.iteration. unfold AMC.poll in *. cbn [fst] in Hb. rewrite Hb.
  destruct (polled_frame (clamp 0 500000 (ev_elapsed (tk_poll k))) (tk_poll k) t)
    as (Hk1 & Hu1 & Hp1 & Hr1 & Hcn1 & He1 & Hb1 & Hw1 & _ & Hc1 & _ & _ & Hpl1 & Ht1).
  remember (AMC.advance (clamp 0 500000 (ev_elapsed (tk_poll k)))
              (AMC.set_poll (Poll.poll (ev_ready (tk_poll k)) (AMC.m_poll t)) t)) as t1 eqn:E.
  clear E. rewrite Hu in Hu1. rewrite Hp in Hp1. rewrite Htop in Ht1.
  unfold AMC.on_ready.
  destruct (checkSerialPort_spec (ev_read (tk_poll k)) t1 h p Hu1 Hp1)
    as (s & -> & Hk & Hr & Hpl & Hwd & Hcn & Hck & Hh & Hw & Hbs & Hps & Hlg).
  cbn [bind].
  destruct (wdog_reset_spec s) as (Hkw & Hpw & Hcw & Henv & Hlast).
  rewrite (check_watchdog_fresh (AMC.wdog_reset s)).
  - exists (AMC.wdog_reset s), h, p. split; [done|]. split; [done|]. split; [done|].
    rewrite Hpw, Henv, Hps, Hpl1. split; [done|].
    pose proof (kept_trans _ _ _ Hk1 (kept_trans _ _ _ Hk Hkw)) as Hkf.
    destruct Hk as (_&_&_&_&_&_&Hes).
    split; [simpl; congruence|]. split; [simpl; congruence|].
    split; [congruence|]. split; [congruence|]. split; [congruence|].
    split; [simpl; congruence|]. split; [exact Hkf|]. split; [congruence|].
    simpl. rewrite Hpl, Hpl1. done.
  - apply (kept_top s _ Hkw). destruct Hk as (_&_&_&_&->&_). done.
  - by rewrite Henv.
Qed.

Lemma requested_frame eid p t :
  bus (AMC.env (AMC.requested eid p t))
    = (bus (AMC.env t) ++
       [IMC.MRpm {| IMC.rpm_src := eid;
                      IMC.rpm_value := IMC.to_int16 (m_motor_rpm p (AMC.m_cnt_motor t)) |}])%list /\
  AMC.m_rpm_val (AMC.requested eid p t)
    = <[0%nat := {| IMC.rpm_src := eid;
                      IMC.rpm_value := IMC.to_int16 (m_motor_rpm p (AMC.m_cnt_motor t)) |}]>
        (AMC.m_rpm_val t) /\
  log (AMC.env (AMC.requested eid p t)) = log (AMC.env t) /\
  AMC.m_poll (AMC.requested eid p t) = AMC.m_poll t.
Proof.
  unfold AMC.requested. rewrite next_motor_env.
  unfold AMC.next_motor. destruct (4 <=? _); simpl; done.
Qed.

(** A pass that times out. *)
Lemma timeout_pass_shape k t :
  AMC.main_phase t = true ->
  fst (AMC.poll 500000 (tk_poll k) t) = false ->
  exists s h p eid o,
    AMC.iteration k t = Ok s /\
    AMC.m_uart t = Some h /\ AMC.m_parse t = Some p /\
    AMC.db_of t !! AMC.label_of t (Z.to_nat (AMC.m_cnt_motor t)) = Some (eid, o) /\
    AMC.kept t s /\ AMC.m_parse s = Some p /\
    AMC.m_cnt_motor s = (AMC.m_cnt_motor t + 1) mod 4 /\
    Poll.handles (AMC.m_poll s) = Poll.handles (AMC.m_poll t) /\
    bus (AMC.env s)
      = (bus (AMC.env t) ++
         [IMC.MRpm {| IMC.rpm_src := eid;
                      IMC.rpm_value := IMC.to_int16 (m_motor_rpm p (AMC.m_cnt_motor t)) |}])%list /\
    AMC.m_rpm_val s
      = <[0%nat := {| IMC.rpm_src := eid;
                      IMC.rpm_value := IMC.to_int16 (m_motor_rpm p (AMC.m_cnt_motor t)) |}]> (AMC.m_rpm_val t) /\
    log (AMC.env s) = log (AMC.env t) /\
    clock (AMC.env s)
      = clock (AMC.env t) + 500000 + AMC.c_sleep_time + AMC.wait_of k
        + 2 * AMC.c_sleep_time * Z.of_nat (List.length (List.filter AMC.served (tk_inbox k))) /\
    wire (AMC.env s)
      = (wire (AMC.env t) ++ AMC.read_request (AMC.m_cnt_motor t) AMC.RPM
           ++ AMC.write_commands (List.concat (List.map AMC.commands_of (tk_inbox k))))%list /\
    Counter.m_last (AMC.m_wdog s) = clock (AMC.env s).
Proof.
  intros Hm Hb. pose proof Hm as Hm0.
  apply main_phase_spec in Hm as ([h Hu] & [p Hp] & Hl & Htop & Hc).
  destruct (labels_resolve_lookup t (AMC.m_cnt_motor t) Hl Hc) as [[eid o] Hln].
  unfold AMC.iteration. unfold AMC.poll in *. cbn [fst] in Hb. rewrite Hb.
  destruct (polled_frame 500000 (tk_poll k) t)
    as (Hk1 & Hu1 & Hp1 & Hr1 & Hc1 & _ & Hb1 & Hw1 & Hlg1 & Hck1 & Hdb1 & Hlb1 & Hpl1 & _).
  remember (AMC.advance 500000
              (AMC.set_poll (Poll.poll (ev_ready (tk_poll k)) (AMC.m_poll t)) t)) as t1 eqn:E.
  clear E. rewrite Hu in Hu1. rewrite Hp in Hp1.
  rewrite (on_timeout_eq _ _ t1 h p eid o Hu1 Hp1 ltac:(lia));
    [|by rewrite Hdb1, Hlb1, Hc1].
  destruct (requested_spec eid p t1 ltac:(lia)) as (Hkr & Hpr & Hwdr & Hcr & Hclkr & Hwr).
  destruct (requested_frame eid p t1) as (Hbr & Hrr & Hlr & Hplr).
  unfold AMC.waitForMessages. fold (AMC.wait_of k).
  destruct (advance_spec (AMC.wait_of k) (AMC.requested eid p t1))
    as (Hka & Hpa & _ & Hca & Hwa & Hcka).
  destruct (advance_frame (AMC.wait_of k) (AMC.requested eid p t1)) as (Hba & Hra & Hla).
  pose proof (advance_poll (AMC.wait_of k) (AMC.requested eid p t1)) as Hpla.
  remember (AMC.advance (AMC.wait_of k) (AMC.requested eid p t1)) as t2 eqn:Ht2. clear Ht2.
  pose proof (kept_trans _ _ _ Hk1 (kept_trans _ _ _ Hkr Hka)) as Hk2.
  destruct (consume_all_spec (tk_inbox k) t2 h (kept_uart _ _ _ Hk2 Hu)) as (s & -> & Hall & Hcks).
  cbn [bind].
  pose proof (commanded_kept _ _ _ Hall) as Hks.
  destruct (wdog_reset_spec s) as (Hkw & Hpw & Hcw & Henv & Hlast).
  pose proof (kept_trans _ _ _ Hk2 (kept_trans _ _ _ Hks Hkw)) as Hk.
  rewrite (check_watchdog_fresh (AMC.wdog_reset s) (kept_top _ _ Hk Htop));
    [|by rewrite Henv].
  exists (AMC.wdog_reset s), h, p, eid, o.
  destruct Hall as (_&Hrs&_&_&Hpls&_&Hps&_&Hcs&_&_&Hbs&_&Hls&Hws).
  split; [done|]. split; [done|]. split; [done|]. split; [done|]. split; [exact Hk|].
  rewrite Hpw, Hcw, Henv, Hlast.
  split; [congruence|]. split; [congruence|].
  split; [simpl; rewrite Hpls, Hpla, Hplr, Hpl1; done|].
  split; [congruence|]. split; [simpl; congruence|]. split; [congruence|].
  split; [lia|]. split; [|done].
  rewrite Hws, Hwa, Hwr, Hw1, Hc1. by rewrite <- app_assoc.
Qed.

(** One pass of the loop body in the Main phase. *)
Lemma iteration_spec k t :
  AMC.main_phase t = true ->
  exists s, AMC.iteration k t = Ok s /\
    AMC.kept t s /\ AMC.main_phase s = true /\
    Poll.handles (AMC.m_poll s) = Poll.handles (AMC.m_poll t) /\
    if fst (AMC.poll 500000 (tk_poll k) t)
    then AMC.m_cnt_motor s = AMC.m_cnt_motor t /\
         wire (AMC.env s) = wire (AMC.env t)
    else AMC.m_cnt_motor s = (AMC.m_cnt_motor t + 1) mod 4 /\
         wire (AMC.env s)
           = (wire (AMC.env t) ++ AMC.read_request (AMC.m_cnt_motor t) AMC.RPM
                ++ AMC.write_commands
                     (List.concat (List.map AMC.commands_of (tk_inbox k))))%list.
Proof.
  intros Hm. pose proof Hm as Hm0.
  apply main_phase_spec in Hm as (_ & _ & _ & _ & Hc).
  destruct (fst (AMC.poll 500000 (tk_poll k) t)) eqn:Hp.
  - destruct (ready_pass_shape k t Hm0 Hp)
      as (s & h & p & -> & _ & _ & _ & _ & _ & _ & Hw & _ & _ & Hk & Hcn & Hpl).
    exists s. split; [done|]. split; [done|].
    split; [apply (main_phase_kept t s Hm0 Hk); lia|]. done.
  - destruct (timeout_pass_shape k t Hm0 Hp)
      as (s & h & p & eid & o & -> & _ & _ & _ & Hk & _ & Hcn & Hpl & _ & _ & _ & _ & Hw & _).
    exists s. split; [done|]. split; [done|].
    split; [|done].
    apply (main_phase_kept t s Hm0 Hk). rewrite Hcn. apply Z.mod_pos_bound. lia.
Qed.

Lemma round_robin_ext (r1 r2 : Tick -> bool) ticks : forall c,
  (forall k, r1 k = r2 k) -> AMC.round_robin r1 c ticks = AMC.round_robin r2 c ticks.
Proof.
  induction ticks as [|k ticks IH]; intros c H; [done|].
  cbn [AMC.round_robin]. rewrite (H k). destruct (r2 k); by rewrite (IH _ H).
Qed.

(** A run of the loop in the Main phase: it goes through all its passes,
    the passes that time out take the motors in turn, and the line carries
    their requests and commands in the order of the passes. *)
Lemma main_loop_spec ticks : forall t,
  AMC.main_phase t = true ->
  exists s, AMC.main_loop ticks t = Ok s /\
    AMC.kept t s /\ AMC.main_phase s = true /\
    Poll.handles (AMC.m_poll s) = Poll.handles (AMC.m_poll t) /\
    AMC.m_cnt_motor s
      = (AMC.m_cnt_motor t
         + Z.of_nat (List.length
                       (List.filter (fun k => negb (fst (AMC.poll 500000 (tk_poll k) t)))
                          ticks))) mod 4 /\
    wire (AMC.env s)
      = (wire (AMC.env t)
           ++ AMC.round_robin (fun k => fst (AMC.poll 500000 (tk_poll k) t))
                (AMC.m_cnt_motor t) ticks)%list.
Proof.
  induction ticks as [|k ticks IH]; intros t Hm.
  - exists t. cbn. rewrite app_nil_r, Z.add_0_r.
    apply main_phase_spec in Hm as Hm'. destruct Hm' as (_ & _ & _ & _ & Hc).
    rewrite Z.mod_small by lia. split; [done|]. split; [apply kept_refl|]. done.
  - cbn [AMC.main_loop].
    apply main_phase_spec in Hm as Hm'. destruct Hm' as (_ & _ & _ & _ & Hc).
    destruct (iteration_spec k t Hm) as (s1 & -> & Hk1 & Hm1 & Hpl1 & Hb). cbn [bind].
    destruct (IH s1 Hm1) as (s & -> & Hk & Hms & Hpl & Hcn & Hw).
    exists s. split; [done|]. split; [by eapply kept_trans|]. split; [done|].
    split; [congruence|].
    assert (Hext : forall k', fst (AMC.poll 500000 (tk_poll k') s1)
                              = fst (AMC.poll 500000 (tk_poll k') t))
      by (intros k'; by apply poll_handles).
    rewrite (round_robin_ext _ (fun k => fst (AMC.poll 500000 (tk_poll k) t)) _ _ Hext) in Hw.
    rewrite (List.filter_ext _ (fun k => negb (fst (AMC.poll 500000 (tk_poll k) t)))) in Hcn
      by (intros k'; by rewrite Hext).
    cbn [List.filter AMC.round_robin].
    destruct (fst (AMC.poll 500000 (tk_poll k) t)); cbn [negb].
    + destruct Hb as [Hc1 Hw1]. rewrite Hcn, Hw, Hc1, Hw1. done.
    + destruct Hb as [Hc1 Hw1]. rewrite Hcn, Hw, Hc1, Hw1. split.
      * cbn [List.length]. rewrite Z.add_mod_idemp_l by lia. f_equal. lia.
      * by rewrite <- !app_assoc.
Qed.

(** A pass during which the line stays silent and no message arrives: the
    request goes out, 1.5 s pass, and the watchdog, reset just before it is
    tested, lets the loop go on. *)
Lemma iteration_silent t :
  AMC.main_phase t = true ->
  exists s, AMC.iteration AMC.silent t = Ok s /\
    AMC.kept t s /\ AMC.main_phase s = true /\
    AMC.m_parse s = AMC.m_parse t /\
    clock (AMC.env s) = clock (AMC.env t) + 1500000.
Proof.
  intros Hm.
  pose proof (poll_nothing_pending 500000 (tk_poll AMC.silent) t eq_refl) as Hb.
  destruct (timeout_pass_shape AMC.silent t Hm Hb)
    as (s & h & p & eid & o & Hs & _ & Hp & _ & Hk & Hps & Hcn & _ & _ & _ & _ & Hck & _).
  exists s. split; [done|]. split; [done|]. split.
  - apply (main_phase_kept t s Hm Hk). rewrite Hcn. apply Z.mod_pos_bound. lia.
  - split; [congruence|]. rewrite Hck. unfold AMC.wait_of, AMC.c_sleep_time. simpl. lia.
Qed.

(** What the watchdog test does once the watchdog has overflowed. *)
Lemma check_watchdog_expired t :
  Counter.overflow (clock (AMC.env t)) (AMC.m_wdog t) = true ->
  exists s, AMC.check_watchdog t = Raise (RestartNeeded "Watchdog Overflow" 2000000 false) s /\
    Entity.getState (AMC.m_entity s) = IMC.ESTA_ERROR.
Proof.
  intros Ho. unfold AMC.check_watchdog. rewrite Ho. eexists. split; reflexivity.
Qed.

Lemma stopAllMotor_spec t h :
  AMC.m_uart t = Some h ->
  exists s, AMC.stopAllMotor t = Ok s /\
    AMC.commanded [(0, 0); (1, 0); (2, 0); (3, 0)] t s /\
    clock (AMC.env s) = clock (AMC.env t) + 4 * AMC.c_sleep_time.
Proof.
  intros Hu. unfold AMC.stopAllMotor.
  destruct (setRPM_command 0 0 t h Hu) as (s0 & -> & H0 & K0 & _). cbn [bind].
  pose proof (commanded_usleep _ _ _ AMC.c_sleep_time H0) as H0'.
  pose proof (commanded_uart _ _ _ _ H0' Hu) as Hu0.
  destruct (setRPM_command 1 0 _ h Hu0) as (s1 & -> & H1 & K1 & _). cbn [bind].
  pose proof (commanded_usleep _ _ _ AMC.c_sleep_time H1) as H1'.
  pose proof (commanded_uart _ _ _ _ H1' Hu0) as Hu1.
  destruct (setRPM_command 2 0 _ h Hu1) as (s2 & -> & H2 & K2 & _). cbn [bind].
  pose proof (commanded_usleep _ _ _ AMC.c_sleep_time H2) as H2'.
  pose proof (commanded_uart _ _ _ _ H2' Hu1) as Hu2.
  destruct (setRPM_command 3 0 _ h Hu2) as (s3 & -> & H3 & K3 & _). cbn [bind].
  eexists. split; [reflexivity|]. split.
  - apply commanded_usleep.
    apply (commanded_trans [_] [_; _; _] _ _ _ H0').
    apply (commanded_trans [_] [_; _] _ _ _ H1').
    apply (commanded_trans [_] [_] _ _ _ H2'). exact H3.
  - simpl. rewrite K3. simpl. rewrite K2. simpl. rewrite K1. simpl. rewrite K0.
    unfold AMC.c_sleep_time. lia.
Qed.

(** C1: the code breaks the claim. In the Main phase, [n] passes in a row
    during which no byte comes from the device and no message arrives all
    complete: the loop is still running after [n] times 1.5 s, however large
    [n], the parser has been fed nothing, and the entity is as it was,
    operational state included. The watchdog, reset at the end of the
    timeout branch too, never overflows and no restart is requested. *)
Theorem silent_line_never_trips_watchdog (t : AMC.Task) (n : nat) :
  AMC.main_phase t = true ->
  exists s, AMC.main_loop (replicate n AMC.silent) t = Ok s /\
    clock (AMC.env s) = clock (AMC.env t) + Z.of_nat n * 1500000 /\
    AMC.m_parse s = AMC.m_parse t /\
    AMC.m_entity s = AMC.m_entity t /\
    AMC.main_phase s = true.
Proof.
  revert t. induction n as [|n IH]; intros t Hm.
  - exists t. simpl. repeat split; try done. lia.
  - cbn [replicate AMC.main_loop].
    destruct (iteration_silent t Hm) as (s1 & -> & Hk & Hm1 & Hp & Hclk). simpl.
    destruct (IH s1 Hm1) as (s & -> & Hclk' & Hp' & He' & Hm').
    exists s. split; [done|]. split; [lia|]. split; [congruence|].
    split; [|done]. destruct Hk as (_&_&_&_&_&_&He). congruence.
Qed.

Lemma round_robin_silent (ready : Tick -> bool) (n : nat) : forall c,
  ready AMC.silent = false -> 0 <= c < 4 ->
  AMC.round_robin ready c (replicate n AMC.silent)
  = List.concat (List.map (fun i => AMC.read_request ((c + Z.of_nat i) mod 4) AMC.RPM)
                   (seq 0 n)).
Proof.
  induction n as [|n IH]; intros c Hr Hc; [done|].
  cbn [replicate AMC.round_robin seq List.map List.concat]. rewrite Hr.
  change (tk_inbox AMC.silent) with (@nil IMC.SetThrusterActuation).
  cbn [List.map List.concat]. unfold AMC.write_commands at 1. cbn [List.map List.concat app].
  rewrite Z.add_0_r, (Z.mod_small c 4) by lia. f_equal.
  rewrite (IH ((c + 1) mod 4) Hr) by (apply Z.mod_pos_bound; lia).
  rewrite <- seq_shift, List.map_map. f_equal. apply List.map_ext. intros i.
  f_equal. rewrite Z.add_mod_idemp_l by lia. f_equal. lia.
Qed.

(** C8. From the entry of [onMain], where the motor counter is set to 0,
    the loop goes through every pass of a run. After the run the counter is
    the number of passes that timed out, modulo 4, a motor index; the line
    carries, pass after pass, nothing for a pass that found the multiplexer
    ready and, for a pass that timed out, the one rpm request of the motor
    in turn followed by the thruster commands of the messages consumed in
    that pass, the turn going 0, 1, 2, 3, 0, ... In particular [n] silent
    passes put on the line the rpm requests of the motors 0, 1, 2, 3, 0,
    ... and nothing else. The pass that follows the run leaves the counter
    and the line alone when it finds the multiplexer ready; when it times
    out it puts exactly one read request on the line, the rpm request of
    the motor the counter names, followed only by the commands of the
    messages it consumed, and advances the counter by one modulo 4. *)
Theorem motor_counter_round_robin (t : AMC.Task) (ticks : list Tick) (k : Tick) (n : nat) :
  AMC.main_phase (AMC.onMain_entry t) = true ->
  let u0 := AMC.onMain_entry t in
  let ready := fun k => fst (AMC.poll 500000 (tk_poll k) u0) in
  AMC.m_cnt_motor u0 = 0 /\
  (exists u,
     AMC.main_loop ticks u0 = Ok u /\
     0 <= AMC.m_cnt_motor u < 4 /\
     AMC.m_cnt_motor u
       = Z.of_nat (List.length (List.filter (fun k => negb (ready k)) ticks)) mod 4 /\
     wire (AMC.env u) = (wire (AMC.env u0) ++ AMC.round_robin ready 0 ticks)%list /\
     exists s,
       AMC.iteration k u = Ok s /\
       0 <= AMC.m_cnt_motor s < 4 /\
       if fst (AMC.poll 500000 (tk_poll k) u)
       then AMC.m_cnt_motor s = AMC.m_cnt_motor u /\
            wire (AMC.env s) = wire (AMC.env u)
       else AMC.m_cnt_motor s = (AMC.m_cnt_motor u + 1) mod 4 /\
            wire (AMC.env s)
              = (wire (AMC.env u) ++ AMC.read_request (AMC.m_cnt_motor u) AMC.RPM
                   ++ AMC.write_commands
                        (List.concat (List.map AMC.commands_of (tk_inbox k))))%list) /\
  (exists u,
     AMC.main_loop (replicate n AMC.silent) u0 = Ok u /\
     wire (AMC.env u)
       = (wire (AMC.env u0)
            ++ List.concat (List.map (fun i => AMC.read_request (Z.of_nat i mod 4) AMC.RPM)
                              (seq 0 n)))%list).
Proof.
  intros Hm u0 ready. split; [reflexivity|]. split.
  - destruct (main_loop_spec ticks u0 Hm) as (u & Hu & _ & Hmu & _ & Hcn & Hw).
    exists u. split; [done|].
    split; [by apply main_phase_spec in Hmu as (_&_&_&_&?)|].
    split; [exact Hcn|]. split; [exact Hw|].
    destruct (iteration_spec k u Hmu) as (s & Hs & _ & Hms & _ & Hb).
    exists s. split; [done|].
    split; [by apply main_phase_spec in Hms as (_&_&_&_&?)|]. exact Hb.
  - destruct (main_loop_spec (replicate n AMC.silent) u0 Hm) as (u & Hu & _ & _ & _ & _ & Hw).
    exists u. split; [done|]. rewrite Hw. f_equal.
    rewrite (round_robin_silent _ n 0); [done| |lia].
    apply (poll_nothing_pending 500000 (tk_poll AMC.silent) u0 eq_refl).
Qed.

(** C10. When the loop of [onMain], entered in the Main phase, ends because
    a stop was requested, [onMain] returns through [stopAllMotor]: the last
    bytes it puts on the line are the zero-rpm commands "@S,0,0,*",
    "@S,1,0,*", "@S,2,0,*" and "@S,3,0,*", in this order, each followed by
    the checksum of its text up to the ['*']. *)
Theorem stop_request_stops_all_motors (t t1 : AMC.Task) (ticks : list Tick) :
  AMC.main_phase (AMC.onMain_entry t) = true ->
  AMC.main_loop ticks (AMC.onMain_entry t) = Ok t1 ->
  AMC.onMain ticks t = AMC.stopAllMotor t1 /\
  exists t2, AMC.onMain ticks t = Ok t2 /\
    wire (AMC.env t2)
      = (wire (AMC.env t1)
           ++ AMC.command_bytes "@S,0,0," ++ AMC.command_bytes "@S,1,0,"
           ++ AMC.command_bytes "@S,2,0," ++ AMC.command_bytes "@S,3,0,")%list.
Proof.
  intros Hm Hloop. unfold AMC.onMain. rewrite Hloop. simpl. split; [done|].
  destruct (main_loop_spec ticks _ Hm) as (u & Hu' & Hk & _).
  rewrite Hloop in Hu'. injection Hu' as <-.
  apply main_phase_spec in Hm as ([h Hu] & _).
  assert (Hu1 : AMC.m_uart t1 = Some h) by (destruct Hk as (_&_&->&_); done).
  destruct (stopAllMotor_spec t1 h Hu1) as (t2 & -> & Hc & _).
  exists t2. split; [done|].
  destruct Hc as (_&_&_&_&_&_&_&_&_&_&_&_&_&_&->).
  f_equal.
Qed.

End MainLoop.

Lemma silent_line_never_trips_watchdog_witness :
  AMC.main_phase bench_task = true /\
  exists s, AMC.main_loop (replicate 12 AMC.silent) bench_task = Ok s /\
    clock (AMC.env s) = clock (AMC.env bench_task) + Z.of_nat 12 * 1500000 /\
    AMC.m_parse s = AMC.m_parse bench_task /\
    AMC.m_entity s = AMC.m_entity bench_task /\
    AMC.main_phase s = true.
Proof.
  split; [vm_compute; reflexivity|].
  apply (silent_line_never_trips_watchdog bench_task 12). vm_compute. reflexivity.
Defined.

Lemma motor_counter_round_robin_witness :
  AMC.main_phase (AMC.onMain_entry bench_ready) = true /\
  let u0 := AMC.onMain_entry bench_ready in
  let ready := fun k => fst (AMC.poll 500000 (tk_poll k) u0) in
  AMC.m_cnt_motor u0 = 0 /\
  (exists u,
     AMC.main_loop [AMC.silent; bench_reply; bench_tick] u0 = Ok u /\
     0 <= AMC.m_cnt_motor u < 4 /\
     AMC.m_cnt_motor u
       = Z.of_nat (List.length (List.filter (fun k => negb (ready k))
                                  [AMC.silent; bench_reply; bench_tick])) mod 4 /\
     wire (AMC.env u)
       = (wire (AMC.env u0)
            ++ AMC.round_robin (P:=bench) ready 0 [AMC.silent; bench_reply; bench_tick])%list /\
     exists s,
       AMC.iteration bench_tick u = Ok s /\
       0 <= AMC.m_cnt_motor s < 4 /\
       if fst (AMC.poll 500000 (tk_poll bench_tick) u)
       then AMC.m_cnt_motor s = AMC.m_cnt_motor u /\
            wire (AMC.env s) = wire (AMC.env u)
       else AMC.m_cnt_motor s = (AMC.m_cnt_motor u + 1) mod 4 /\
            wire (AMC.env s)
              = (wire (AMC.env u) ++ AMC.read_request (P:=bench) (AMC.m_cnt_motor u) AMC.RPM
                   ++ AMC.write_commands (P:=bench)
                        (List.concat (List.map AMC.commands_of (tk_inbox bench_tick))))%list) /\
  (exists u,
     AMC.main_loop (replicate 6 AMC.silent) u0 = Ok u /\
     wire (AMC.env u)
       = (wire (AMC.env u0)
            ++ List.concat (List.map (fun i => AMC.read_request (P:=bench) (Z.of_nat i mod 4) AMC.RPM)
                              (seq 0 6)))%list).
Proof.
  split; [vm_compute; reflexivity|].
  apply (motor_counter_round_robin bench_ready [AMC.silent; bench_reply; bench_tick]
           bench_tick 6).
  vm_compute. reflexivity.
Defined.

Lemma stop_request_stops_all_motors_witness :
  let r := AMC.main_loop [AMC.silent; bench_tick] (AMC.onMain_entry bench_ready) in
  AMC.main_phase (AMC.onMain_entry bench_ready) = true /\
  r = Ok (AMC.final r) /\
  AMC.onMain [AMC.silent; bench_tick] bench_ready = AMC.stopAllMotor (AMC.final r) /\
  exists t2, AMC.onMain [AMC.silent; bench_tick] bench_ready = Ok t2 /\
    wire (AMC.env t2)
      = (wire (AMC.env (AMC.final r))
           ++ AMC.command_bytes (P:=bench) "@S,0,0," ++ AMC.command_bytes (P:=bench) "@S,1,0,"
           ++ AMC.command_bytes (P:=bench) "@S,2,0," ++ AMC.command_bytes (P:=bench) "@S,3,0,")%list.
Proof.
  intros r.
  assert (Hm : AMC.main_phase (AMC.onMain_entry bench_ready) = true)
    by (vm_compute; reflexivity).
  assert (Hr : r = Ok (AMC.final r)) by (apply Ok_final; vm_compute; reflexivity).
  split; [exact Hm|]. split; [exact Hr|].
  exact (stop_request_stops_all_motors bench_ready (AMC.final r) [AMC.silent; bench_tick] Hm Hr).
Defined.

(** ** The AMC task: the range and the encoding of the commands *)

Section CommandRange.
Context {P : Platform}.






Lemma pretty_N_char_no_comma x : pretty_N_char x <> ","%char.
Proof. unfold pretty_N_char. repeat case_match; discriminate. Qed.

Lemma pretty_N_go_no_comma x : forall s,
  ~ In ","%char (list_ascii_of_string s) ->
  ~ In ","%char (list_ascii_of_string (pretty_N_go x s)).
Proof.
  induction (N.lt_wf_0 x) as [x _ IH]; intros s Hs.
  assert (x = 0 \/ 0 < x)%N as [->|Hx] by lia; [by rewrite pretty_N_go_0|].
  rewrite pretty_N_go_step by done. apply IH; [by apply N.div_lt|].
  simpl. intros [Hc|Hin]; [|done]. by apply (pretty_N_char_no_comma (x `mod` 10)%N).
Qed.

Lemma pretty_Z_no_comma (z : Z) : ~ In ","%char (list_ascii_of_string (pretty z)).
Proof.
  assert (Hp : forall p : positive,
             ~ In ","%char (list_ascii_of_string (pretty (N.pos p)))).
  { intros p. unfold pretty, pretty_N. destruct (decide _); [done|].
    apply pretty_N_go_no_comma. simpl. tauto. }
  destruct z as [|p|p].
  - simpl. intros [H|[]]. discriminate.
  - apply Hp.
  - change (pretty (Z.neg p)) with (String "-" (pretty (N.pos p))). simpl.
    intros [H|H]; [discriminate|]. by apply (Hp p).
Qed.

(** Two texts that agree up to and after their first comma. *)
Lemma split_at_comma (a : string) : forall a' r r',
  ~ In ","%char (list_ascii_of_string a) ->
  ~ In ","%char (list_ascii_of_string a') ->
  a +:+ String "," r = a' +:+ String "," r' -> a = a' /\ r = r'.
Proof.
  induction a as [|c a IH]; intros [|c' a'] r r' Ha Ha' Heq.
  - by injection Heq.
  - rewrite append_cons in Heq. injection Heq as <- _. simpl in Ha'. tauto.
  - rewrite append_cons in Heq. injection Heq as -> _. simpl in Ha. tauto.
  - rewrite !append_cons in Heq. injection Heq as -> Heq.
    simpl in Ha, Ha'. destruct (IH a' r r') as [-> ->]; tauto.
Qed.

Lemma write_text_inj (m r m' r' : Z) :
  "@S," +:+ pretty m +:+ "," +:+ pretty r +:+ ",*"
  = "@S," +:+ pretty m' +:+ "," +:+ pretty r' +:+ ",*" ->
  m = m' /\ r = r'.
Proof.
  intros Heq. apply (inj (String.append "@S,")) in Heq.
  apply split_at_comma in Heq as [Hm Heq]; try apply pretty_Z_no_comma.
  apply split_at_comma in Heq as [Hr _]; try apply pretty_Z_no_comma.
  split; by apply (inj pretty).
Qed.

Lemma read_text_inj (m m' : Z) f f' :
  "@R," +:+ pretty m +:+ "," +:+ AMC.field_name f +:+ ",*"
  = "@R," +:+ pretty m' +:+ "," +:+ AMC.field_name f' +:+ ",*" ->
  m = m' /\ f = f'.
Proof.
  intros Heq. apply (inj (String.append "@R,")) in Heq.
  apply split_at_comma in Heq as [Hm Heq]; try apply pretty_Z_no_comma.
  split; [by apply (inj pretty)|].
  destruct f, f'; try done; discriminate Heq.
Qed.

Lemma bytes_inj a b : list_ascii_of_string a = list_ascii_of_string b -> a = b.
Proof.
  intros H. rewrite <- (string_of_list_ascii_of_string a),
    <- (string_of_list_ascii_of_string b). by rewrite H.
Qed.

Lemma sent_wire_inj text text' t :
  wire (AMC.env (AMC.sent text t)) = wire (AMC.env (AMC.sent text' t)) -> text = text'.
Proof.
  rewrite !sent_wire. intros H. apply app_inv_head in H.
  apply app_inj_tail in H as [H _]. by apply bytes_inj.
Qed.

Lemma setRPM_null (m r : Z) t :
  AMC.m_uart t = None ->
  AMC.setRPM m r t
  = Raise NullPointer
      (AMC.set_csum (AMC.csum_of ("@S," +:+ pretty m +:+ "," +:+ pretty r +:+ ",*"))
         (AMC.set_msg ("@S," +:+ pretty m +:+ "," +:+ pretty r +:+ ",*") t)).
Proof. intros Hu. unfold AMC.setRPM. by apply transmit_null. Qed.

Lemma setRPM_Ok_uart (m r : Z) t :
  is_Ok (AMC.setRPM m r t) = true -> exists h, AMC.m_uart t = Some h.
Proof.
  destruct (AMC.m_uart t) as [h|] eqn:Hu; [eauto|].
  rewrite (setRPM_null _ _ _ Hu). discriminate.
Qed.

(** X2. Two calls of [setRPM] that return from the same state and leave
    the same bytes on the serial line were given the same motor and the
    same rpm: the thruster command is an unambiguous encoding of its two
    arguments, whatever the checksum function. *)
Theorem write_commands_decode_uniquely (m r m' r' : Z) (t : AMC.Task) :
  is_Ok (AMC.setRPM m r t) = true ->
  is_Ok (AMC.setRPM m' r' t) = true ->
  AMC.line_after (AMC.setRPM m r t) = AMC.line_after (AMC.setRPM m' r' t) ->
  m = m' /\ r = r'.
Proof.
  intros [h Hu]%setRPM_Ok_uart _.
  rewrite !(setRPM_eq _ _ _ h Hu). cbn [AMC.line_after].
  intros Heq%sent_wire_inj. by apply write_text_inj.
Qed.






Lemma readParameterAMC_Ok_uart (m : Z) f t :
  is_Ok (AMC.readParameterAMC m f t) = true -> exists h, AMC.m_uart t = Some h.
Proof.
  rewrite readParameterAMC_eq.
  destruct (AMC.m_uart t) as [h|] eqn:Hu; [eauto|].
  rewrite (transmit_null _ _ Hu). discriminate.
Qed.

(** X4. Two read requests that leave the same bytes on the line were made
    for the same motor and the same field, and no read request leaves the
    bytes a thruster command leaves. *)
Theorem read_requests_decode_uniquely
  (m m' v : Z) (f f' : AMC.AmcMessages) (t : AMC.Task) :
  is_Ok (AMC.readParameterAMC m f t) = true ->
  is_Ok (AMC.readParameterAMC m' f' t) = true ->
  (wire (AMC.env (AMC.final (AMC.readParameterAMC m f t)))
   = wire (AMC.env (AMC.final (AMC.readParameterAMC m' f' t))) ->
   m = m' /\ f = f') /\
  (is_Ok (AMC.setRPM m' v t) = true ->
   wire (AMC.env (AMC.final (AMC.readParameterAMC m f t)))
   <> AMC.line_after (AMC.setRPM m' v t)).
Proof.
  intros [h Hu]%readParameterAMC_Ok_uart _.
  rewrite !(proj1 (readParameterAMC_request _ _ _ h Hu)). cbn [AMC.final]. split.
  - intros Heq%sent_wire_inj. by apply read_text_inj.
  - intros _. rewrite (setRPM_eq _ _ _ h Hu). cbn [AMC.line_after].
    intros Heq%sent_wire_inj. discriminate Heq.
Qed.

Lemma served_commands msg : AMC.served msg = false -> AMC.commands_of msg = [].
Proof.
  unfold AMC.served, AMC.commands_of. intros [-> ->]%orb_false_iff. done.
Qed.


Lemma stopAllMotor_cases (t : AMC.Task) :
  match AMC.m_uart t with
  | Some _ =>
      exists s, AMC.stopAllMotor t = Ok s /\
        AMC.commanded [(0, 0); (1, 0); (2, 0); (3, 0)] t s /\
        clock (AMC.env s) = clock (AMC.env t) + 4 * AMC.c_sleep_time
  | None =>
      exists s, AMC.stopAllMotor t = Raise NullPointer s /\
        wire (AMC.env s) = wire (AMC.env t) /\
        clock (AMC.env s) = clock (AMC.env t)
  end.
Proof.
  destruct (AMC.m_uart t) as [h|] eqn:Hu.
  - exact (stopAllMotor_spec t h Hu).
  - unfold AMC.stopAllMotor. rewrite (setRPM_null 0 0 t Hu).
    cbn [bind]. eexists. split; [reflexivity|]. done.
Qed.

(** X6. With the serial port open [stopAllMotor] returns after 1 s with
    the four zero-rpm commands on the line, in motor order; with [m_uart]
    null it dereferences the null pointer before any byte goes out or any
    time passes. *)
Theorem stopAllMotor_open_or_closed (t : AMC.Task) :
  match AMC.m_uart t with
  | Some _ =>
      exists s, AMC.stopAllMotor t = Ok s /\
        AMC.commanded [(0, 0); (1, 0); (2, 0); (3, 0)] t s /\
        clock (AMC.env s) = clock (AMC.env t) + 4 * AMC.c_sleep_time
  | None =>
      exists s, AMC.stopAllMotor t = Raise NullPointer s /\
        wire (AMC.env s) = wire (AMC.env t) /\
        clock (AMC.env s) = clock (AMC.env t)
  end.
Proof. exact (stopAllMotor_cases t). Qed.

Lemma release_uart t : AMC.m_uart (AMC.onResourceRelease t) = None.
Proof. unfold AMC.onResourceRelease. by destruct (AMC.m_uart t) eqn:E. Qed.

Lemma release_wire t :
  wire (AMC.env (AMC.onResourceRelease t)) = wire (AMC.env t).
Proof. unfold AMC.onResourceRelease. by destruct (AMC.m_uart t). Qed.

(** X7. Once [onResourceRelease] has run, [consume] never writes to the
    serial line: a message for a thruster pair that is not served is
    ignored, and a served one ends, whatever its value, in the dereference
    of the null [m_uart] by the first [setRPM], before any byte goes out. *)
Theorem released_port_takes_no_command (msg : IMC.SetThrusterActuation) (t : AMC.Task) :
  let r := AMC.consume msg (AMC.onResourceRelease t) in
  wire (AMC.env (AMC.final r)) = wire (AMC.env t) /\
  if AMC.served msg
  then exists s, r = Raise NullPointer s
  else r = Ok (AMC.onResourceRelease t).
Proof.
  intros r. subst r. pose proof (release_uart t) as Hu. pose proof (release_wire t) as Hw.
  remember (AMC.onResourceRelease t) as t1 eqn:E. clear E.
  unfold AMC.served, AMC.consume.
  assert (Hpair : forall a b : Z,
    let r := (do '(_, t0) <- AMC.setRPM a (IMC.value msg) t1;
              do '(_, t2) <- AMC.setRPM b (IMC.value msg) (AMC.usleep AMC.c_sleep_time t0);
              Ok (AMC.usleep AMC.c_sleep_time t2)) in
    wire (AMC.env (AMC.final r)) = wire (AMC.env t) /\
    exists s, r = Raise NullPointer s).
  { intros a b. rewrite (setRPM_null a (IMC.value msg) t1 Hu). cbn [bind AMC.final].
    split; [exact Hw | eauto]. }
  destruct (IMC.id msg =? 0); cbn [orb].
  - apply Hpair.
  - destruct (IMC.id msg =? 1); [apply Hpair | done].
Qed.

End CommandRange.

(** ** The AMC task: the passes of the main loop *)

Section Passes.
Context {P : Platform}.

(** X8. A pass of the main loop that finds the multiplexer ready returns;
    it feeds the parser the one byte read when the serial port was
    triggered and the read returned a byte, and leaves the parser alone
    otherwise; nothing goes to the bus or the line; the pass lasts the time
    the wait took, and the watchdog is reset at its end. *)
Theorem ready_pass_feeds_parser (k : Tick) (t : AMC.Task) :
  AMC.main_phase t = true ->
  fst (AMC.poll 500000 (tk_poll k) t) = true ->
  exists s h p,
    AMC.iteration k t = Ok s /\ AMC.m_uart t = Some h /\ AMC.m_parse t = Some p /\
    AMC.m_parse s
      = Some (if Poll.wasTriggered h (Poll.poll (ev_ready (tk_poll k)) (AMC.m_poll t))
              then match ev_read (tk_poll k) with ReadByte b => ParserAMC b p | _ => p end
              else p) /\
    AMC.m_rpm_val s = AMC.m_rpm_val t /\ AMC.m_entity s = AMC.m_entity t /\
    bus (AMC.env s) = bus (AMC.env t) /\ wire (AMC.env s) = wire (AMC.env t) /\
    clock (AMC.env s) = clock (AMC.env t) + clamp 0 500000 (ev_elapsed (tk_poll k)) /\
    Counter.m_last (AMC.m_wdog s) = clock (AMC.env s).
Proof.
  intros Hm Hp.
  destruct (ready_pass_shape k t Hm Hp)
    as (s & h & p & H1 & H2 & H3 & H4 & H5 & H6 & H7 & H8 & H9 & H10 & _).
  exists s, h, p. done.
Qed.

Lemma to_int16_id (z : Z) : -32768 <= z <= 32767 -> IMC.to_int16 z = z.
Proof. intros H. unfold IMC.to_int16. rewrite Z.mod_small by lia. lia. Qed.

Lemma to_int16_range (z : Z) : -32768 <= IMC.to_int16 z <= 32767.
Proof. unfold IMC.to_int16. pose proof (Z.mod_pos_bound (z + 32768) 65536). lia. Qed.

Lemma timeout_pass_bus (k : Tick) (t : AMC.Task) :
  AMC.main_phase t = true ->
  fst (AMC.poll 500000 (tk_poll k) t) = false ->
  exists s p eid o,
    AMC.iteration k t = Ok s /\
    AMC.m_parse t = Some p /\
    AMC.db_of t !! AMC.label_of t (Z.to_nat (AMC.m_cnt_motor t)) = Some (eid, o) /\
    AMC.m_parse s = Some p /\
    bus (AMC.env s)
      = (bus (AMC.env t) ++
         [IMC.MRpm {| IMC.rpm_src := eid;
                      IMC.rpm_value := IMC.to_int16 (m_motor_rpm p (AMC.m_cnt_motor t)) |}])%list /\
    log (AMC.env s) = log (AMC.env t) /\
    -32768 <= IMC.to_int16 (m_motor_rpm p (AMC.m_cnt_motor t)) <= 32767 /\
    (-32768 <= m_motor_rpm p (AMC.m_cnt_motor t) <= 32767 ->
     IMC.to_int16 (m_motor_rpm p (AMC.m_cnt_motor t)) = m_motor_rpm p (AMC.m_cnt_motor t)).
Proof.
  intros Hm Hb.
  destruct (timeout_pass_shape k t Hm Hb)
    as (s & h & p & eid & o & Hs & _ & Hp & Hln & _ & Hps & _ & _ & Hbs & _ & Hl & _).
  exists s, p, eid, o. split; [done|]. split; [done|]. split; [done|]. split; [done|].
  split; [done|]. split; [done|]. split; [apply to_int16_range | apply to_int16_id].
Qed.

(** X9. A pass of the main loop that times out returns and puts exactly
    one message on the bus: the rpm report of the motor in turn, with the
    entity of the motor's label as source and, as value, the rpm the parser
    held when the pass began, that is before the request sent in this pass
    can have been answered, converted to the signed 16-bit field of the
    message: the parser's rpm itself when it lies between -32768 and 32767,
    and its wrap-around otherwise. The parser is fed nothing and nothing is
    logged. *)
Theorem timeout_pass_reports_one_rpm (k : Tick) (t : AMC.Task) :
  AMC.main_phase t = true ->
  fst (AMC.poll 500000 (tk_poll k) t) = false ->
  exists s p eid o,
    AMC.iteration k t = Ok s /\
    AMC.m_parse t = Some p /\
    AMC.db_of t !! AMC.label_of t (Z.to_nat (AMC.m_cnt_motor t)) = Some (eid, o) /\
    AMC.m_parse s = Some p /\
    bus (AMC.env s)
      = (bus (AMC.env t) ++
         [IMC.MRpm {| IMC.rpm_src := eid;
                      IMC.rpm_value := IMC.to_int16 (m_motor_rpm p (AMC.m_cnt_motor t)) |}])%list /\
    log (AMC.env s) = log (AMC.env t) /\
    -32768 <= IMC.to_int16 (m_motor_rpm p (AMC.m_cnt_motor t)) <= 32767 /\
    (-32768 <= m_motor_rpm p (AMC.m_cnt_motor t) <= 32767 ->
     IMC.to_int16 (m_motor_rpm p (AMC.m_cnt_motor t)) = m_motor_rpm p (AMC.m_cnt_motor t)).
Proof. exact (timeout_pass_bus k t). Qed.

Lemma filter_length_le {A} (f : A -> bool) (l : list A) :
  (List.length (List.filter f l) <= List.length l)%nat.
Proof. induction l as [|a l IH]; simpl; [lia|]. destruct (f a); simpl; lia. Qed.

Lemma timeout_pass_clock (k : Tick) (t : AMC.Task) :
  AMC.main_phase t = true ->
  fst (AMC.poll 500000 (tk_poll k) t) = false ->
  exists s, AMC.iteration k t = Ok s /\
    clock (AMC.env s)
      = clock (AMC.env t) + 500000 + AMC.c_sleep_time + AMC.wait_of k
        + 2 * AMC.c_sleep_time * Z.of_nat (List.length (List.filter AMC.served (tk_inbox k))) /\
    Counter.m_last (AMC.m_wdog s) = clock (AMC.env s) /\
    750000 <= clock (AMC.env s) - clock (AMC.env t)
      <= 1500000 + 500000 * Z.of_nat (List.length (tk_inbox k)).
Proof.
  intros Hm Hb.
  destruct (timeout_pass_shape k t Hm Hb)
    as (s & h & p & eid & o & Hs & _ & _ & _ & _ & _ & _ & _ & _ & _ & _ & Hck & _ & Hlast).
  exists s. split; [done|]. split; [done|]. split; [done|]. rewrite Hck.
  assert (0 <= AMC.wait_of k <= 750000).
  { unfold AMC.wait_of, clamp. destruct (tk_inbox k); lia. }
  pose proof (filter_length_le AMC.served (tk_inbox k)) as Hle.
  unfold AMC.c_sleep_time. lia.
Qed.

(** X10. A pass that times out returns, whatever the messages it
    consumes, after 0.5 s of polling, 0.25 s of sleep, the time
    [waitForMessages] blocked and 0.5 s for each served message; this is
    between 0.75 s and 1.5 s plus 0.5 s per message. The watchdog is reset
    at the end of the pass. *)
Theorem timeout_pass_duration (k : Tick) (t : AMC.Task) :
  AMC.main_phase t = true ->
  fst (AMC.poll 500000 (tk_poll k) t) = false ->
  exists s, AMC.iteration k t = Ok s /\
    clock (AMC.env s)
      = clock (AMC.env t) + 500000 + AMC.c_sleep_time + AMC.wait_of k
        + 2 * AMC.c_sleep_time * Z.of_nat (List.length (List.filter AMC.served (tk_inbox k))) /\
    Counter.m_last (AMC.m_wdog s) = clock (AMC.env s) /\
    750000 <= clock (AMC.env s) - clock (AMC.env t)
      <= 1500000 + 500000 * Z.of_nat (List.length (tk_inbox k)).
Proof. exact (timeout_pass_clock k t). Qed.



Lemma drop_insert_head {A} (x : A) (l : list A) : drop 1 (<[0%nat := x]> l) = drop 1 l.
Proof. by destruct l. Qed.

Lemma iteration_reports k t :
  AMC.main_phase t = true ->
  drop 1 (AMC.m_rpm_val (AMC.final (AMC.iteration k t))) = drop 1 (AMC.m_rpm_val t) /\
  List.length (AMC.m_rpm_val (AMC.final (AMC.iteration k t))) = List.length (AMC.m_rpm_val t) /\
  AMC.m_entity (AMC.final (AMC.iteration k t)) = AMC.m_entity t /\
  exists rs, bus (AMC.env (AMC.final (AMC.iteration k t)))
             = (bus (AMC.env t) ++ AMC.rpm_reports rs)%list /\
    List.length rs = (if AMC.is_timeout k t then 1 else 0)%nat.
Proof.
  intros Hm. unfold AMC.is_timeout.
  destruct (fst (AMC.poll 500000 (tk_poll k) t)) eqn:Hp; cbn [negb].
  - destruct (ready_pass_shape k t Hm Hp) as (s & h & p & -> & _ & _ & _ & Hr & He & Hb & _).
    cbn [AMC.final]. rewrite Hr, He, Hb. repeat split; try done.
    exists []. by rewrite app_nil_r.
  - destruct (timeout_pass_shape k t Hm Hp)
      as (s & h & p & eid & o & -> & _ & _ & _ & Hk & _ & _ & _ & Hb & Hr & _).
    cbn [AMC.final]. rewrite Hr, Hb.
    split; [by apply drop_insert_head|]. split; [by rewrite length_insert|].
    split; [by destruct Hk as (_&_&_&_&_&_&?)|]. by eexists [_].
Qed.

Lemma main_loop_reports ticks : forall t,
  AMC.main_phase t = true ->
  drop 1 (AMC.m_rpm_val (AMC.final (AMC.main_loop ticks t))) = drop 1 (AMC.m_rpm_val t) /\
  List.length (AMC.m_rpm_val (AMC.final (AMC.main_loop ticks t)))
    = List.length (AMC.m_rpm_val t) /\
  AMC.m_entity (AMC.final (AMC.main_loop ticks t)) = AMC.m_entity t /\
  exists rs, bus (AMC.env (AMC.final (AMC.main_loop ticks t)))
             = (bus (AMC.env t) ++ AMC.rpm_reports rs)%list /\
    (List.length rs <= List.length ticks)%nat.
Proof.
  induction ticks as [|k ticks IH]; intros t Hm; cbn [AMC.main_loop].
  - cbn [AMC.final]. repeat split; try done. exists []. by rewrite app_nil_r.
  - destruct (iteration_reports k t Hm) as (Hd & Hl & He & rs & Hb & Hn).
    destruct (iteration_spec k t Hm) as (s & Hs & _ & Hm1 & _).
    rewrite Hs in *. cbn [bind AMC.final] in *.
    destruct (IH s Hm1) as (Hd' & Hl' & He' & rs' & Hb' & Hn').
    split; [congruence|]. split; [congruence|]. split; [congruence|].
    exists (rs ++ rs')%list. split.
    + rewrite Hb', Hb. unfold AMC.rpm_reports. by rewrite map_app, app_assoc.
    + rewrite length_app. destruct (AMC.is_timeout k t); cbn [List.length]; lia.
Qed.

(** X12. The main loop reports every motor through the first element of
    [m_rpm_val]: the elements 1 to 3, whose source entity
    [onUpdateParameters] sets, are never written, the array keeps its
    length, the entity is left alone, and what the loop puts on the bus is
    rpm reports only, at most one per pass. *)
Theorem rpm_reports_share_slot_zero (ticks : list Tick) (t : AMC.Task) :
  AMC.main_phase t = true ->
  let s := AMC.final (AMC.main_loop ticks t) in
  drop 1 (AMC.m_rpm_val s) = drop 1 (AMC.m_rpm_val t) /\
  List.length (AMC.m_rpm_val s) = List.length (AMC.m_rpm_val t) /\
  AMC.m_entity s = AMC.m_entity t /\
  exists rs, bus (AMC.env s) = (bus (AMC.env t) ++ AMC.rpm_reports rs)%list /\
    (List.length rs <= List.length ticks)%nat.
Proof. intros Hm s. exact (main_loop_reports ticks t Hm). Qed.




End Passes.

(** ** The AMC task: initialization and life cycle *)

Section Initialization.
Context {P : Platform}.

Lemma probed_refl t : AMC.probed 0 [] t t.
Proof.
  unfold AMC.probed. rewrite app_nil_r. repeat split; try done; try lia.
  exists []. by rewrite app_nil_r.
Qed.

Lemma probed_trans n1 n2 r1 r2 t s u :
  AMC.probed n1 r1 t s -> AMC.probed n2 r2 s u -> AMC.probed (n1 + n2) (r1 ++ r2) t u.
Proof.
  unfold AMC.probed.
  intros (?&?&?&?&?&?&?&?&?&?&?&[l1 Hl1]&Hw1&Hc1) (?&?&?&?&?&?&?&?&?&?&?&[l2 Hl2]&Hw2&Hc2).
  repeat split; try congruence.
  - exists (l1 ++ l2)%list. rewrite Hl2, Hl1. by rewrite app_assoc.
  - rewrite Hw2, Hw1. by rewrite app_assoc.
  - lia.
  - lia.
Qed.

Lemma query_state_spec evs i t h p :
  AMC.m_uart t = Some h -> AMC.m_parse t = Some p -> (i < 4)%nat ->
  exists s bytes, AMC.query_state evs i t = Ok s /\
    AMC.m_parse s = Some (AMC.feed bytes p) /\ (List.length bytes <= 1)%nat /\
    AMC.probed 1 (AMC.read_request (Z.of_nat i) AMC.STATE) t s.
Proof.
  intros Hu Hp Hi. unfold AMC.query_state.
  destruct (readParameterAMC_request (Z.of_nat i) AMC.STATE t h Hu) as [-> Hw].
  cbn [bind].
  remember (AMC.sent ("@R," +:+ pretty (Z.of_nat i) +:+ "," +:+ AMC.field_name AMC.STATE +:+ ",*") t)
    as t0 eqn:E0.
  assert (H0 : AMC.m_uart t0 = Some h /\ AMC.m_parse t0 = Some p /\
               AMC.probed 0 (AMC.read_request (Z.of_nat i) AMC.STATE) t t0).
  { subst t0. unfold AMC.probed. rewrite Hw. simpl. repeat split; try done; try lia.
    exists []. by rewrite app_nil_r. }
  clear E0 Hw. destruct H0 as (Hu0 & Hp0 & Hpr0).
  unfold AMC.poll.
  set (pl := Poll.poll (ev_ready (evs i)) (AMC.m_poll (AMC.usleep AMC.c_sleep_time t0))).
  set (dt := if Poll.any pl then clamp 0 500000 (ev_elapsed (evs i)) else 500000).
  assert (Hdt : 0 <= dt <= 500000).
  { unfold dt, clamp. destruct (Poll.any pl); lia. }
  remember (AMC.advance dt (AMC.set_poll pl (AMC.usleep AMC.c_sleep_time t0))) as t1 eqn:E1.
  assert (H1 : AMC.m_uart t1 = Some h /\ AMC.m_parse t1 = Some p /\ AMC.probed 1 [] t0 t1).
  { subst t1. unfold AMC.probed. simpl. rewrite app_nil_r. unfold AMC.c_sleep_time.
    repeat split; try done; try lia. exists []. by rewrite app_nil_r. }
  clear E1. destruct H1 as (Hu1 & Hp1 & Hpr1).
  pose proof (probed_trans _ _ _ _ _ _ _ Hpr0 Hpr1) as Hpr. rewrite app_nil_r in Hpr.
  cbn [Nat.add] in Hpr.
  destruct (Poll.any pl).
  - destruct (checkSerialPort_spec (ev_read (evs i)) t1 h p Hu1 Hp1)
      as (s & -> & Hk & Hr & Hpl & Hwd & Hcn & Hck & Hh & Hws & Hbs & Hps & Hlg).
    exists s, (if Poll.wasTriggered h (AMC.m_poll t1)
               then match ev_read (evs i) with ReadByte b => [b] | _ => [] end else []).
    split; [done|]. split.
    { rewrite Hps. f_equal.
      destruct (Poll.wasTriggered h (AMC.m_poll t1)); [destruct (ev_read (evs i))|]; done. }
    split.
    { destruct (Poll.wasTriggered h (AMC.m_poll t1)); [destruct (ev_read (evs i))|];
        simpl; lia. }
    assert (Hs : AMC.probed 0 [] t1 s).
    { destruct Hk as (?&?&?&_&_&?&?). unfold AMC.probed. rewrite app_nil_r, Hpl, Hck.
      repeat split; try done; try lia. eauto. }
    pose proof (probed_trans _ _ _ _ _ _ _ Hpr Hs) as Hfin. rewrite app_nil_r in Hfin.
    exact Hfin.
  - exists t1, []. split; [done|]. split; [done|]. split; [simpl; lia | done].
Qed.

Lemma for_range_query evs n : forall first t h p,
  AMC.m_uart t = Some h -> AMC.m_parse t = Some p -> (first + n <= 4)%nat ->
  exists s bytes, AMC.for_range first n (AMC.query_state evs) t = Ok s /\
    AMC.m_parse s = Some (AMC.feed bytes p) /\ (List.length bytes <= n)%nat /\
    AMC.probed n (AMC.state_requests first n) t s.
Proof.
  induction n as [|n IH]; intros first t h p Hu Hp Hn.
  - exists t, []. split; [done|]. split; [done|]. split; [done|]. apply probed_refl.
  - cbn [AMC.for_range].
    destruct (query_state_spec evs first t h p Hu Hp ltac:(lia))
      as (s1 & b1 & -> & Hp1 & Hb1 & Hpr1).
    cbn [bind].
    assert (Hu1 : AMC.m_uart s1 = Some h) by (destruct Hpr1 as (_&_&_&->&_); done).
    destruct (IH (S first) s1 h _ Hu1 Hp1 ltac:(lia)) as (s & b2 & -> & Hp' & Hb2 & Hpr).
    exists s, (b1 ++ b2)%list. split; [done|]. split.
    { rewrite Hp'. unfold AMC.feed. by rewrite fold_left_app. }
    split; [rewrite length_app; lia|].
    pose proof (probed_trans _ _ _ _ _ _ _ Hpr1 Hpr) as H. exact H.
Qed.

Lemma count_error_spec p i cnt t :
  AMC.count_error p i (cnt, t)
  = if m_motor_state p (Z.of_nat i) =? 0
    then (cnt + 1, AMC.war (AMC.motor_warning i) t) else (cnt, t).
Proof. reflexivity. Qed.

Lemma count_errors p (l : list nat) : forall cnt t,
  fold_left (fun acc i => AMC.count_error p i acc) l (cnt, t)
  = (cnt + Z.of_nat (List.length
                       (List.filter (fun i => m_motor_state p (Z.of_nat i) =? 0) l)),
     AMC.set_env (set_log (log (AMC.env t) ++
        List.map AMC.motor_warning
          (List.filter (fun i => m_motor_state p (Z.of_nat i) =? 0) l))%list (AMC.env t)) t).
Proof.
  induction l as [|i l IH]; intros cnt t.
  - cbn [fold_left List.filter List.map List.length]. rewrite app_nil_r, Z.add_0_r.
    f_equal. by destruct t as [? ? ? ? ? ? ? ? ? ? ? ? []].
  - cbn [fold_left List.filter]. rewrite count_error_spec.
    destruct (m_motor_state p (Z.of_nat i) =? 0).
    + rewrite IH. cbn [List.length List.map]. f_equal; [lia|].
      unfold AMC.war. simpl. by rewrite <- app_assoc.
    + apply IH.
Qed.

Lemma checkStateMotor_spec evs t h p :
  AMC.m_uart t = Some h -> AMC.m_parse t = Some p ->
  exists s u bytes,
    AMC.checkStateMotor evs t = Ok s /\ (List.length bytes <= 4)%nat /\
    AMC.probed 4 (AMC.state_requests 0 4) t u /\
    s = (if bool_decide (AMC.faulty (AMC.feed bytes p) = [])
         then (fun x => x) else AMC.setEntityState_message IMC.ESTA_ERROR "AMC Motor")
          (AMC.set_env (set_log (log (AMC.env u)
                                   ++ List.map AMC.motor_warning (AMC.faulty (AMC.feed bytes p)))%list
                          (AMC.env u)) u) /\
    AMC.m_parse u = Some (AMC.feed bytes p).
Proof.
  intros Hu Hp. unfold AMC.checkStateMotor.
  destruct (for_range_query evs 4 0 t h p Hu Hp ltac:(lia)) as (u & bytes & -> & Hp' & Hb & Hpr).
  cbn [bind]. rewrite Hp'. rewrite count_errors. fold (AMC.faulty (AMC.feed bytes p)).
  exists ((if bool_decide (AMC.faulty (AMC.feed bytes p) = [])
           then (fun x => x) else AMC.setEntityState_message IMC.ESTA_ERROR "AMC Motor")
            (AMC.set_env (set_log (log (AMC.env u)
                                     ++ List.map AMC.motor_warning (AMC.faulty (AMC.feed bytes p)))%list
                            (AMC.env u)) u)), u, bytes.
  destruct (AMC.faulty (AMC.feed bytes p)) as [|i l] eqn:Hf.
  - cbn [List.length]. rewrite bool_decide_eq_true_2; [|done]. done.
  - rewrite bool_decide_eq_false_2; [|done].
    assert ((0 <? 0 + Z.of_nat (List.length (i :: l))) = true) as ->.
    { apply Z.ltb_lt. cbn [List.length]. lia. }
    done.
Qed.

(** What [checkStateMotor] leaves behind, field by field. *)
Lemma checkStateMotor_effects evs t h p :
  AMC.m_uart t = Some h -> AMC.m_parse t = Some p ->
  exists s bytes lines,
    AMC.checkStateMotor evs t = Ok s /\
    AMC.m_parse s = Some (AMC.feed bytes p) /\ (List.length bytes <= 4)%nat /\
    wire (AMC.env s) = (wire (AMC.env t) ++ AMC.state_requests 0 4)%list /\
    log (AMC.env s)
      = (log (AMC.env t) ++ lines ++ List.map AMC.motor_warning (AMC.faulty (AMC.feed bytes p)))%list /\
    AMC.m_entity s
      = (if bool_decide (AMC.faulty (AMC.feed bytes p) = []) then AMC.m_entity t
         else fst (Entity.setState_message IMC.ESTA_ERROR "AMC Motor" (AMC.m_entity t))) /\
    bus (AMC.env s)
      = (bus (AMC.env t) ++
         if bool_decide (AMC.faulty (AMC.feed bytes p) = []) then []
         else snd (Entity.setState_message IMC.ESTA_ERROR "AMC Motor" (AMC.m_entity t)))%list /\
    clock (AMC.env t) + 1000000 <= clock (AMC.env s) <= clock (AMC.env t) + 3000000 /\
    AMC.m_uart s = Some h /\ AMC.m_name s = AMC.m_name t /\ AMC.m_args s = AMC.m_args t /\
    AMC.m_wdog s = AMC.m_wdog t /\ AMC.m_cnt_motor s = AMC.m_cnt_motor t /\
    AMC.m_rpm_val s = AMC.m_rpm_val t /\
    Poll.handles (AMC.m_poll s) = Poll.handles (AMC.m_poll t) /\
    heap (AMC.env s) = heap (AMC.env t) /\ entities (AMC.env s) = entities (AMC.env t).
Proof.
  intros Hu Hp.
  destruct (checkStateMotor_spec evs t h p Hu Hp) as (s & u & bytes & -> & Hb & Hpr & -> & Hpu).
  destruct Hpr as (Hn&Hr&Ha&Huu&Hwd&Hcn&He&Hpl&Hh&Hbs&Hen&[lines Hlg]&Hw&Hck).
  eexists _, bytes, lines. split; [reflexivity|].
  destruct (bool_decide (AMC.faulty (AMC.feed bytes p) = [])); simpl;
    rewrite ?Hpu, ?Hw, ?Hlg, ?He, ?Hbs, ?Huu, ?Hu, ?Hn, ?Ha, ?Hwd, ?Hcn, ?Hr, ?Hpl, ?Hh, ?Hen,
      ?app_nil_r, <- ?app_assoc;
    repeat split; try done; lia.
Qed.

(** X14. With the port open and the parser created, [checkStateMotor]
    returns after 1 s to 3 s. It puts the state requests of the motors 0
    to 3 on the line, in this order, and feeds the parser at most four
    bytes. For each motor the parser then holds state 0 for, it logs a
    warning, and the entity goes to state Error with the text "AMC Motor",
    reported on the bus, exactly when there is such a motor. *)
Theorem checkStateMotor_reports_faulty_motors 
  (evs : nat -> PollEvent) (t : AMC.Task) (h : Handle) (p : MessageParse) :
  AMC.m_uart t = Some h -> AMC.m_parse t = Some p ->
  exists s bytes lines,
    AMC.checkStateMotor evs t = Ok s /\
    AMC.m_parse s = Some (AMC.feed bytes p) /\ (List.length bytes <= 4)%nat /\
    wire (AMC.env s) = (wire (AMC.env t) ++ AMC.state_requests 0 4)%list /\
    log (AMC.env s)
      = (log (AMC.env t) ++ lines ++ List.map AMC.motor_warning (AMC.faulty (AMC.feed bytes p)))%list /\
    AMC.m_entity s
      = (if bool_decide (AMC.faulty (AMC.feed bytes p) = []) then AMC.m_entity t
         else fst (Entity.setState_message IMC.ESTA_ERROR "AMC Motor" (AMC.m_entity t))) /\
    bus (AMC.env s)
      = (bus (AMC.env t) ++
         if bool_decide (AMC.faulty (AMC.feed bytes p) = []) then []
         else snd (Entity.setState_message IMC.ESTA_ERROR "AMC Motor" (AMC.m_entity t)))%list /\
    clock (AMC.env t) + 1000000 <= clock (AMC.env s) <= clock (AMC.env t) + 3000000 /\
    AMC.m_uart s = Some h /\ AMC.m_name s = AMC.m_name t /\ AMC.m_args s = AMC.m_args t /\
    AMC.m_wdog s = AMC.m_wdog t /\ AMC.m_cnt_motor s = AMC.m_cnt_motor t /\
    AMC.m_rpm_val s = AMC.m_rpm_val t /\
    Poll.handles (AMC.m_poll s) = Poll.handles (AMC.m_poll t) /\
    heap (AMC.env s) = heap (AMC.env t) /\ entities (AMC.env s) = entities (AMC.env t).
Proof. exact (checkStateMotor_effects evs t h p). Qed.

Lemma onResourceInitialization_spec evs t :
  match AMC.m_uart t with
  | None =>
      AMC.onResourceInitialization evs t
      = Raise NullPointer (AMC.set_parse (Some (set_PS_PREAMBLE MessageParse_new)) t)
  | Some h =>
      exists s bytes,
        AMC.onResourceInitialization evs t = Ok s /\
        AMC.m_parse s = Some (AMC.feed bytes (set_PS_PREAMBLE MessageParse_new)) /\
        (List.length bytes <= 4)%nat /\
        h ∈ Poll.handles (AMC.m_poll s) /\
        AMC.m_wdog s = {| Counter.m_top := 10000000; Counter.m_last := clock (AMC.env s) |} /\
        wire (AMC.env s)
          = (wire (AMC.env t) ++ AMC.state_requests 0 4
               ++ AMC.write_commands [(0, 0); (1, 0); (2, 0); (3, 0)])%list /\
        clock (AMC.env t) + 2000000 <= clock (AMC.env s) <= clock (AMC.env t) + 4000000 /\
        AMC.m_uart s = Some h /\ AMC.m_name s = AMC.m_name t /\
        AMC.m_args s = AMC.m_args t /\ AMC.m_cnt_motor s = AMC.m_cnt_motor t /\
        AMC.m_rpm_val s = AMC.m_rpm_val t /\
        heap (AMC.env s) = heap (AMC.env t) /\ entities (AMC.env s) = entities (AMC.env t)
  end.
Proof.
  unfold AMC.onResourceInitialization.
  destruct (AMC.m_uart t) as [h|] eqn:Hu; cbn [AMC.m_uart AMC.set_parse]; rewrite Hu; [|done].
  remember (AMC.set_poll (Poll.add h (AMC.m_poll (AMC.set_parse (Some (set_PS_PREAMBLE MessageParse_new)) t)))
              (AMC.set_parse (Some (set_PS_PREAMBLE MessageParse_new)) t)) as t0 eqn:E0.
  assert (H0 : AMC.m_uart t0 = Some h /\ AMC.m_parse t0 = Some (set_PS_PREAMBLE MessageParse_new) /\
               h ∈ Poll.handles (AMC.m_poll t0) /\ AMC.env t0 = AMC.env t /\
               AMC.m_name t0 = AMC.m_name t /\ AMC.m_args t0 = AMC.m_args t /\
               AMC.m_cnt_motor t0 = AMC.m_cnt_motor t /\ AMC.m_rpm_val t0 = AMC.m_rpm_val t).
  { subst t0. simpl. repeat split; try done. apply elem_of_union_l, elem_of_singleton. done. }
  clear E0. destruct H0 as (Hu0 & Hp0 & Hh0 & He0 & Hn0 & Ha0 & Hc0 & Hr0).
  destruct (checkStateMotor_effects evs t0 h _ Hu0 Hp0)
    as (s1 & bytes & lines & -> & Hp1 & Hb & Hw1 & _ & _ & _ & Hck1 & Hu1 & Hn1 & Ha1 & _ & Hc1
        & Hr1 & Hpl1 & Hh1 & Hen1).
  cbn [bind].
  pose proof (stopAllMotor_cases s1) as Hstop. rewrite Hu1 in Hstop.
  destruct Hstop as (s2 & -> & C & Hck2). cbn [bind].
  destruct C as (Hn2&Hr2&Ha2&Hu2&Hpl2&_&Hp2&_&Hc2&_&Hh2&_&Hen2&_&Hw2).
  eexists _, bytes. split; [reflexivity|]. simpl.
  rewrite Hp2, Hp1, Hpl2, Hpl1, Hw2, Hw1, Hck2, Hu2, Hu1, Hn2, Hn1, Ha2, Ha1, Hc2, Hc1,
    Hr2, Hr1, Hh2, Hh1, Hen2, Hen1, He0, Hn0, Ha0, Hc0, Hr0, <- app_assoc.
  unfold AMC.c_sleep_time. rewrite He0 in Hck1.
  repeat split; try done; lia.
Qed.


Lemma setEntityState_frame st code t :
  let s := AMC.setEntityState st code t in
  AMC.m_name s = AMC.m_name t /\ AMC.m_args s = AMC.m_args t /\
  AMC.m_uart s = AMC.m_uart t /\ AMC.m_parse s = AMC.m_parse t /\
  AMC.m_wdog s = AMC.m_wdog t /\ AMC.m_cnt_motor s = AMC.m_cnt_motor t /\
  AMC.m_rpm_val s = AMC.m_rpm_val t /\ AMC.m_poll s = AMC.m_poll t /\
  entities (AMC.env s) = entities (AMC.env t) /\ wire (AMC.env s) = wire (AMC.env t) /\
  heap (AMC.env s) = heap (AMC.env t) /\ next_handle (AMC.env s) = next_handle (AMC.env t) /\
  clock (AMC.env s) = clock (AMC.env t) /\
  Entity.getState (AMC.m_entity s) = st.
Proof.
  unfold AMC.setEntityState, Entity.setState.
  destruct (IMC.StateEnum_eqb st (Entity.getState (AMC.m_entity t))) eqn:E;
    [destruct (code =? Entity.m_entity_state_code (AMC.m_entity t))|]; simpl;
    repeat split; try done.
  symmetry. by apply StateEnum_eqb_eq.
Qed.

Lemma labels_resolve_same t s :
  AMC.m_args s = AMC.m_args t -> entities (AMC.env s) = entities (AMC.env t) ->
  AMC.labels_resolve s = AMC.labels_resolve t.
Proof. intros Ha He. unfold AMC.labels_resolve. by rewrite Ha, He. Qed.

Lemma reservation_labels t :
  exists t', AMC.onEntityReservation t = Ok t' /\ AMC.labels_resolve t' = true.
Proof.
  unfold AMC.onEntityReservation.
  destruct (for_range_reserve 4 0 t) as (t' & Hrun & Ha & _ & Hin & _).
  exists t'. split; [done|]. apply labels_resolve_spec. intros i Hi.
  assert (AMC.label_of t' i = AMC.label_of t i) as -> by (unfold AMC.label_of; by rewrite Ha).
  by apply Hin.
Qed.

Lemma acquisition_opened t :
  exists s h, AMC.onResourceAcquisition Opened t = Ok s /\
    AMC.m_uart s = Some h /\ AMC.m_args s = AMC.m_args t /\
    entities (AMC.env s) = entities (AMC.env t) /\
    wire (AMC.env s) = wire (AMC.env t).
Proof.
  unfold AMC.onResourceAcquisition.
  destruct (setEntityState_frame IMC.ESTA_NORMAL CODE_IDLE t)
    as (_ & Ha & _ & _ & _ & _ & _ & _ & He & Hw & _).
  remember (AMC.setEntityState IMC.ESTA_NORMAL CODE_IDLE t) as t' eqn:E. clear E.
  unfold alloc. eexists _, _. split; [reflexivity|]. simpl. done.
Qed.

Lemma acquisition_failed what t :
  exists s, AMC.onResourceAcquisition (OpenFailed what) t = Raise (OpenError what) s /\
    AMC.m_uart s = AMC.m_uart t /\ AMC.m_parse s = AMC.m_parse t /\
    heap (AMC.env s) = heap (AMC.env t) /\
    wire (AMC.env s) = wire (AMC.env t) /\
    Entity.getState (AMC.m_entity s) = IMC.ESTA_NORMAL.
Proof.
  unfold AMC.onResourceAcquisition.
  destruct (setEntityState_frame IMC.ESTA_NORMAL CODE_IDLE t)
    as (_ & _ & Hu & Hp & _ & _ & _ & _ & _ & Hw & Hh & _ & _ & Hst).
  eexists. split; [reflexivity|]. done.
Qed.

Lemma life_cycle (evs : nat -> PollEvent) (o : OpenResult) (t : AMC.Task) :
  exists t1,
    AMC.onEntityReservation t = Ok t1 /\
    match o with
    | Opened =>
        exists t2 t3,
          AMC.onResourceAcquisition Opened (AMC.onEntityResolution t1) = Ok t2 /\
          AMC.onResourceInitialization evs t2 = Ok t3 /\
          AMC.main_phase (AMC.onMain_entry t3) = true /\
          Entity.getState (AMC.m_entity (AMC.onMain_entry t3)) = IMC.ESTA_NORMAL /\
          Counter.m_last (AMC.m_wdog (AMC.onMain_entry t3))
            = clock (AMC.env (AMC.onMain_entry t3))
    | OpenFailed what =>
        exists t2,
          AMC.onResourceAcquisition (OpenFailed what) (AMC.onEntityResolution t1)
            = Raise (OpenError what) t2 /\
          AMC.m_uart t2 = AMC.m_uart t1 /\
          heap (AMC.env t2) = heap (AMC.env t1) /\
          wire (AMC.env t2) = wire (AMC.env t1) /\
          AMC.m_uart (AMC.onResourceRelease t2) = None /\
          wire (AMC.env (AMC.onResourceRelease t2)) = wire (AMC.env t1)
    end.
Proof.
  destruct (reservation_labels t) as (t1 & Hres & Hl1).
  exists t1. split; [done|]. unfold AMC.onEntityResolution.
  destruct o as [|what].
  - destruct (acquisition_opened t1) as (t2 & h & Hacq & Hu2 & Ha2 & He2 & _).
    assert (Hl2 : AMC.labels_resolve t2 = true)
      by (rewrite <- Hl1; by apply labels_resolve_same).
    pose proof (onResourceInitialization_spec evs t2) as H3. rewrite Hu2 in H3.
    destruct H3 as (t3 & bytes & Hini & Hp3 & _ & _ & Hwd3 & _ & _ & Hu3 & _ & Ha3 & _ & _ & _ & He3).
    exists t2, t3. split; [done|]. split; [done|].
    unfold AMC.onMain_entry.
    destruct (setEntityState_frame IMC.ESTA_NORMAL CODE_ACTIVE t3)
      as (_ & Ha & Hu & Hp & Hwd & _ & _ & _ & He & _ & _ & _ & Hck & Hst).
    remember (AMC.setEntityState IMC.ESTA_NORMAL CODE_ACTIVE t3) as t4 eqn:E. clear E.
    split; [|split; [exact Hst|]].
    + apply main_phase_spec.
      cbn [AMC.set_cnt_motor AMC.m_uart AMC.m_parse AMC.m_wdog AMC.m_cnt_motor].
      rewrite Hu, Hu3, Hp, Hp3, Hwd, Hwd3. split; [eauto|]. split; [eauto|].
      split; [|split; [done | lia]].
      rewrite <- Hl2. apply labels_resolve_same; simpl; congruence.
    + simpl. rewrite Hwd, Hwd3, Hck. done.
  - destruct (acquisition_failed what t1) as (t2 & Hacq & Hu2 & _ & Hh2 & Hw2 & _).
    exists t2. split; [done|]. split; [done|]. split; [done|].
    split; [done|]. split; [apply release_uart|]. by rewrite release_wire.
Qed.

(** X16. From any state of the task, [onEntityReservation] returns. When
    the serial device then opens, [onResourceAcquisition] and
    [onResourceInitialization] return in this order, whatever the device
    answers, and [onMain] starts its loop in the Main phase (port open,
    parser created, the four labels reserved, watchdog top 10 s, motor
    counter 0), with the entity in state Normal and the watchdog freshly
    armed. When the device fails to open, [onResourceAcquisition] ends in
    the error of the open, which carries its description: no port is
    stored in [m_uart], nothing is allocated, nothing is written to the
    line, and [onResourceRelease] then leaves [m_uart] null and the line
    as it was. *)
Theorem life_cycle_reaches_main_phase
  (evs : nat -> PollEvent) (o : OpenResult) (t : AMC.Task) :
  exists t1,
    AMC.onEntityReservation t = Ok t1 /\
    match o with
    | Opened =>
        exists t2 t3,
          AMC.onResourceAcquisition Opened (AMC.onEntityResolution t1) = Ok t2 /\
          AMC.onResourceInitialization evs t2 = Ok t3 /\
          AMC.main_phase (AMC.onMain_entry t3) = true /\
          Entity.getState (AMC.m_entity (AMC.onMain_entry t3)) = IMC.ESTA_NORMAL /\
          Counter.m_last (AMC.m_wdog (AMC.onMain_entry t3))
            = clock (AMC.env (AMC.onMain_entry t3))
    | OpenFailed what =>
        exists t2,
          AMC.onResourceAcquisition (OpenFailed what) (AMC.onEntityResolution t1)
            = Raise (OpenError what) t2 /\
          AMC.m_uart t2 = AMC.m_uart t1 /\
          heap (AMC.env t2) = heap (AMC.env t1) /\
          wire (AMC.env t2) = wire (AMC.env t1) /\
          AMC.m_uart (AMC.onResourceRelease t2) = None /\
          wire (AMC.env (AMC.onResourceRelease t2)) = wire (AMC.env t1)
    end.
Proof. exact (life_cycle evs o t). Qed.

End Initialization.

(** ** The AMC task: parameter update *)

Section Sources.
Context {P : Platform}.

Lemma set_rpm_val_same t : AMC.set_rpm_val (AMC.m_rpm_val t) t = t.
Proof. by destruct t. Qed.

Lemma set_rpm_val_twice v w t : AMC.set_rpm_val v (AMC.set_rpm_val w t) = AMC.set_rpm_val v t.
Proof. done. Qed.

Lemma update_source_spec i eid v t :
  AMC.update_source i (eid, AMC.set_rpm_val v t)
  = (match AMC.db_of t !! AMC.label_of t i with Some (e, _) => e | None => eid end,
     AMC.set_rpm_val
       (if String.eqb (AMC.label_of t i) "" then v
        else alter (AMC.setSourceEntity
                      (match AMC.db_of t !! AMC.label_of t i with
                       | Some (e, _) => e | None => eid end)) i v) t).
Proof.
  unfold AMC.update_source, AMC.resolveEntity, Entities.resolve, AMC.db_of, AMC.label_of.
  cbn [AMC.m_args AMC.set_rpm_val AMC.env AMC.m_rpm_val].
  destruct (Entities.m_entries (entities (AMC.env t)) !! nth i (AMC.motor_elabels (AMC.m_args t)) "")
    as [[e o]|]; destruct (String.eqb _ ""); done.
Qed.

Lemma update_sources n : forall first v t,
  exists v',
    fold_left (fun acc i => AMC.update_source i acc) (seq first n)
      (AMC.carried t first, AMC.set_rpm_val v t)
    = (AMC.carried t (first + n), AMC.set_rpm_val v' t) /\
    List.length v' = List.length v /\
    forall i, v' !! i = (if bool_decide (first <= i < first + n)%nat
                         then AMC.sourced t i <$> v !! i else v !! i).
Proof.
  induction n as [|n IH]; intros first v t.
  - exists v. rewrite Nat.add_0_r. split; [done|]. split; [done|].
    intros i. rewrite bool_decide_eq_false_2; [done | lia].
  - cbn [seq fold_left]. rewrite update_source_spec.
    change (match AMC.db_of t !! AMC.label_of t first with
            | Some (e, _) => e | None => AMC.carried t first end) with (AMC.carried t (S first)).
    destruct (IH (S first)
                (if String.eqb (AMC.label_of t first) "" then v
                 else alter (AMC.setSourceEntity (AMC.carried t (S first))) first v) t)
      as (v' & -> & Hlen & Hv').
    exists v'. split; [f_equal; f_equal; lia|]. split.
    + rewrite Hlen. destruct (String.eqb _ ""); [done | by rewrite length_alter].
    + intros i. rewrite Hv'.
      destruct (decide (i = first)) as [->|Hne].
      * rewrite bool_decide_eq_false_2 by lia. rewrite bool_decide_eq_true_2 by lia.
        unfold AMC.sourced. destruct (String.eqb _ ""); [by destruct (v !! first)|].
        by rewrite list_lookup_alter_eq.
      * case_bool_decide as H1; case_bool_decide as H2; try lia.
        -- f_equal. destruct (String.eqb (AMC.label_of t first) ""); [done|].
           by rewrite list_lookup_alter_ne.
        -- destruct (String.eqb (AMC.label_of t first) ""); [done|].
           by rewrite list_lookup_alter_ne.
Qed.

Lemma update_sources_all t :
  exists v, AMC.onUpdateParameters t = AMC.set_rpm_val v t /\
    List.length v = List.length (AMC.m_rpm_val t) /\
    forall i, (i < 4)%nat -> v !! i = AMC.sourced t i <$> AMC.m_rpm_val t !! i.
Proof.
  unfold AMC.onUpdateParameters.
  destruct (update_sources 4 0 (AMC.m_rpm_val t) t) as (v & Hv & Hlen & Hi).
  rewrite set_rpm_val_same in Hv. change (AMC.carried t 0) with 0 in Hv. rewrite Hv.
  exists v. split; [done|]. split; [done|]. intros i Hlt.
  rewrite Hi. rewrite bool_decide_eq_true_2; [done | lia].
Qed.

(** X17. [onUpdateParameters] changes nothing but the source entities of
    [m_rpm_val]. Element [i] is left alone when the label of motor [i] is
    empty; otherwise its source becomes the entity of that label when the
    label resolves, and when it does not, the value left in [eid] by the
    pass before: 0 for motor 0, the entity of the preceding motor when
    that one resolves. The rpm value is never touched. *)
Theorem motor_labels_source_rpm_messages (t : AMC.Task) (i : nat) (r : IMC.Rpm) :
  (i < 4)%nat -> AMC.m_rpm_val t !! i = Some r ->
  AMC.onUpdateParameters t = AMC.set_rpm_val (AMC.m_rpm_val (AMC.onUpdateParameters t)) t /\
  exists r', AMC.m_rpm_val (AMC.onUpdateParameters t) !! i = Some r' /\
    IMC.rpm_value r' = IMC.rpm_value r /\
    if String.eqb (AMC.label_of t i) "" then r' = r
    else match AMC.db_of t !! AMC.label_of t i with
         | Some (eid, _) => IMC.rpm_src r' = eid
         | None =>
             match i with
             | O => IMC.rpm_src r' = 0
             | S j => match AMC.db_of t !! AMC.label_of t j with
                      | Some (eid, _) => IMC.rpm_src r' = eid
                      | None => True
                      end
             end
         end.
Proof.
  intros Hi Hr. destruct (update_sources_all t) as (v & Hv & Hlen & Hs).
  rewrite Hv. cbn [AMC.m_rpm_val AMC.set_rpm_val]. split; [done|].
  rewrite (Hs i Hi), Hr. cbn [fmap option_fmap option_map].
  eexists. split; [reflexivity|]. unfold AMC.sourced.
  destruct (String.eqb (AMC.label_of t i) ""); [done|].
  split; [done|]. cbn [AMC.carried AMC.setSourceEntity IMC.rpm_src].
  destruct (AMC.db_of t !! AMC.label_of t i) as [[eid o]|]; [done|].
  destruct i as [|j]; [done|]. cbn [AMC.carried].
  by destruct (AMC.db_of t !! AMC.label_of t j) as [[eid o]|].
Qed.

End Sources.

(** ** The camera task: the messages of the logger *)

Section Logger.
Variable join : string -> string -> string.

Lemma consume_frame msg c :
  UI2210MGL.m_args (UI2210MGL.task (UI2210MGL.consume join msg c)) = UI2210MGL.m_args (UI2210MGL.task c) /\
  UI2210MGL.m_capture (UI2210MGL.task (UI2210MGL.consume join msg c)) = UI2210MGL.m_capture (UI2210MGL.task c) /\
  UI2210MGL.m_starting (UI2210MGL.task (UI2210MGL.consume join msg c)) = UI2210MGL.m_starting (UI2210MGL.task c) /\
  UI2210MGL.capture_calls (UI2210MGL.task (UI2210MGL.consume join msg c))
    = UI2210MGL.capture_calls (UI2210MGL.task c) /\
  UI2210MGL.entity (UI2210MGL.consume join msg c) = UI2210MGL.entity c /\
  UI2210MGL.system_id (UI2210MGL.consume join msg c) = UI2210MGL.system_id c /\
  UI2210MGL.m_image_cv (UI2210MGL.consume join msg c) = UI2210MGL.m_image_cv c.
Proof.
  unfold UI2210MGL.consume.
  destruct (negb _ && negb _); [done|]. destruct (UI2210MGL.op msg); done.
Qed.

Lemma consume_accepted msg c :
  UI2210MGL.consume join msg c
  = if UI2210MGL.accepted (Entity.isActivating (UI2210MGL.entity c)) (UI2210MGL.system_id c) msg
    then UI2210MGL.emit
           (UI2210MGL.CreateDirectory (join (UI2210MGL.log_dir (UI2210MGL.m_args (UI2210MGL.task c)))
                                    (UI2210MGL.name msg)))
           (UI2210MGL.with_task
              (UI2210MGL.set_log_dir
                 (join (UI2210MGL.log_dir (UI2210MGL.m_args (UI2210MGL.task c))) (UI2210MGL.name msg))
                 (UI2210MGL.task c)) c)
    else c.
Proof.
  unfold UI2210MGL.consume, UI2210MGL.accepted.
  destruct (Entity.isActivating (UI2210MGL.entity c)), (UI2210MGL.destination msg =? UI2210MGL.system_id c),
    (UI2210MGL.op msg); done.
Qed.

Lemma folder_after_snoc base cur names n :
  UI2210MGL.folder_after join base cur (names ++ [n]) = join base n.
Proof. unfold UI2210MGL.folder_after. by rewrite reverse_snoc. Qed.

Lemma consumeMessages_spec inbox : forall c,
  let act := Entity.isActivating (UI2210MGL.entity c) in
  let names := List.map UI2210MGL.name (List.filter (UI2210MGL.accepted act (UI2210MGL.system_id c)) inbox) in
  let base := UI2210MGL.log_dir (UI2210MGL.m_args (UI2210MGL.task c)) in
  let c' := UI2210MGL.consumeMessages join inbox c in
  UI2210MGL.m_log_dir (UI2210MGL.task c')
    = UI2210MGL.folder_after join base (UI2210MGL.m_log_dir (UI2210MGL.task c)) names /\
  UI2210MGL.effects c'
    = (UI2210MGL.effects c ++ List.map (fun n => UI2210MGL.CreateDirectory (join base n)) names)%list /\
  UI2210MGL.m_args (UI2210MGL.task c') = UI2210MGL.m_args (UI2210MGL.task c) /\
  UI2210MGL.m_capture (UI2210MGL.task c') = UI2210MGL.m_capture (UI2210MGL.task c) /\
  UI2210MGL.m_starting (UI2210MGL.task c') = UI2210MGL.m_starting (UI2210MGL.task c) /\
  UI2210MGL.capture_calls (UI2210MGL.task c') = UI2210MGL.capture_calls (UI2210MGL.task c) /\
  UI2210MGL.entity c' = UI2210MGL.entity c /\ UI2210MGL.system_id c' = UI2210MGL.system_id c /\
  UI2210MGL.m_image_cv c' = UI2210MGL.m_image_cv c.
Proof.
  induction inbox as [|m inbox IH] using rev_ind; intros c act names base c'.
  - subst c' names. cbn. rewrite app_nil_r. done.
  - subst c'. unfold UI2210MGL.consumeMessages. rewrite fold_left_app. cbn [fold_left].
    fold (UI2210MGL.consumeMessages join inbox c).
    destruct (IH c) as (Hd & He & Ha & Hc & Hs & Hcc & Hen & Hsy & Him).
    remember (UI2210MGL.consumeMessages join inbox c) as c1 eqn:E. clear E IH.
    subst names. rewrite List.filter_app, List.map_app. cbn [List.filter].
    rewrite consume_accepted, Hen, Hsy. fold act.
    destruct (UI2210MGL.accepted act (UI2210MGL.system_id c) m); cbn [List.map].
    + rewrite folder_after_snoc. cbn. rewrite He, Ha. fold base.
      rewrite <- app_assoc, List.map_app. done.
    + rewrite !app_nil_r. done.
Qed.

End Logger.

(** ** The camera task: log folder, capture loop and shutdown *)

Section Camera.
Variable join : string -> string -> string.

(** X18. After [consumeMessages] the log folder is the configured folder
    joined with the name of the last message acted on (a current-name
    message received while activating or addressed to this system), and is
    unchanged when there is none; the folder it held before plays no part.
    One directory is created per message acted on, in arrival order, and
    the capture object is not touched. *)
Theorem last_logging_name_wins (inbox : list UI2210MGL.LoggingControl) (c : UI2210MGL.Camera) :
  let act := Entity.isActivating (UI2210MGL.entity c) in
  let names := List.map UI2210MGL.name (List.filter (UI2210MGL.accepted act (UI2210MGL.system_id c)) inbox) in
  let base := UI2210MGL.log_dir (UI2210MGL.m_args (UI2210MGL.task c)) in
  let c' := UI2210MGL.consumeMessages join inbox c in
  UI2210MGL.m_log_dir (UI2210MGL.task c')
    = UI2210MGL.folder_after join base (UI2210MGL.m_log_dir (UI2210MGL.task c)) names /\
  UI2210MGL.effects c'
    = (UI2210MGL.effects c ++ List.map (fun n => UI2210MGL.CreateDirectory (join base n)) names)%list /\
  UI2210MGL.capture_calls (UI2210MGL.task c') = UI2210MGL.capture_calls (UI2210MGL.task c) /\
  UI2210MGL.m_capture (UI2210MGL.task c') = UI2210MGL.m_capture (UI2210MGL.task c).
Proof.
  intros act names base c'.
  destruct (consumeMessages_spec join inbox c) as (H1 & H2 & _ & H4 & _ & H6 & _).
  done.
Qed.

Lemma update_after_start t h :
  UI2210MGL.m_capture t = Some h -> UI2210MGL.m_starting t = false ->
  exists t', UI2210MGL.onUpdateParameters t = Ok t' /\
    UI2210MGL.m_log_dir t' = UI2210MGL.log_dir (UI2210MGL.m_args t) /\
    UI2210MGL.m_args t' = UI2210MGL.m_args t /\
    UI2210MGL.m_capture t' = Some h /\ UI2210MGL.m_starting t' = false.
Proof.
  intros Hc Hs. unfold UI2210MGL.onUpdateParameters. rewrite Hs.
  unfold UI2210MGL.call. simpl. rewrite Hc. simpl.
  eexists. split; [reflexivity|]. done.
Qed.

(** X19. The folder named by the logger and the parameter update write
    the same member: once the first run is over, [onUpdateParameters]
    after [consume] puts the log folder back to the configured one, and
    [consume] after [onUpdateParameters] leaves the named sub-folder. *)
Theorem named_folder_lost_on_update
  (msg : UI2210MGL.LoggingControl) (c : UI2210MGL.Camera) (h : Handle) :
  UI2210MGL.m_capture (UI2210MGL.task c) = Some h ->
  UI2210MGL.m_starting (UI2210MGL.task c) = false ->
  UI2210MGL.accepted (Entity.isActivating (UI2210MGL.entity c)) (UI2210MGL.system_id c) msg = true ->
  let base := UI2210MGL.log_dir (UI2210MGL.m_args (UI2210MGL.task c)) in
  UI2210MGL.m_log_dir (UI2210MGL.task (UI2210MGL.consume join msg c)) = join base (UI2210MGL.name msg) /\
  (exists t', UI2210MGL.onUpdateParameters (UI2210MGL.task (UI2210MGL.consume join msg c)) = Ok t' /\
     UI2210MGL.m_log_dir t' = base) /\
  (exists t', UI2210MGL.onUpdateParameters (UI2210MGL.task c) = Ok t' /\
     UI2210MGL.m_log_dir (UI2210MGL.task (UI2210MGL.consume join msg (UI2210MGL.with_task t' c)))
       = join base (UI2210MGL.name msg)).
Proof.
  intros Hc Hs Ha base.
  destruct (consume_frame join msg c) as (Ha1 & Hc1 & Hs1 & _).
  split; [|split].
  - rewrite consume_accepted, Ha. done.
  - destruct (update_after_start (UI2210MGL.task (UI2210MGL.consume join msg c)) h) as (t' & -> & Hl & _);
      [congruence | congruence |].
    exists t'. split; [done|]. by rewrite Hl, Ha1.
  - destruct (update_after_start (UI2210MGL.task c) h Hc Hs) as (t' & -> & Hl & Hargs & _).
    exists t'. split; [done|].
    rewrite consume_accepted. cbn [UI2210MGL.with_task UI2210MGL.entity UI2210MGL.system_id UI2210MGL.task].
    rewrite Ha. cbn. by rewrite Hargs.
Qed.

Lemma saveImage_frame f c :
  UI2210MGL.task (UI2210MGL.saveImage f c) = UI2210MGL.task c /\
  UI2210MGL.entity (UI2210MGL.saveImage f c) = UI2210MGL.entity c /\
  UI2210MGL.system_id (UI2210MGL.saveImage f c) = UI2210MGL.system_id c /\
  UI2210MGL.m_image_cv (UI2210MGL.saveImage f c) = Some f /\
  UI2210MGL.effects (UI2210MGL.saveImage f c)
    = (UI2210MGL.effects c ++ [UI2210MGL.ImWrite (UI2210MGL.m_log_dir (UI2210MGL.task c)) f])%list.
Proof. done. Qed.

Lemma drain_frames frames more : forall i c,
  exists c',
    UI2210MGL.drain (List.map Some frames ++ None :: more) i c
      = Some (i + Z.of_nat (List.length frames) + 1, None, c') /\
    UI2210MGL.task c' = UI2210MGL.task c /\
    UI2210MGL.entity c' = UI2210MGL.entity c /\ UI2210MGL.system_id c' = UI2210MGL.system_id c /\
    UI2210MGL.effects c'
      = (UI2210MGL.effects c ++
         List.concat (List.map (fun f => [UI2210MGL.Inf "Emptying buffer.";
                                          UI2210MGL.ImWrite (UI2210MGL.m_log_dir (UI2210MGL.task c)) f])
                        frames) ++
         [UI2210MGL.Inf "Emptying buffer."])%list.
Proof.
  induction frames as [|f frames IH]; intros i c.
  - cbn. eexists. split; [f_equal; f_equal; f_equal; lia|]. done.
  - cbn [List.map app UI2210MGL.drain].
    destruct (IH (i + 1) (UI2210MGL.saveImage f (UI2210MGL.emit (UI2210MGL.Inf "Emptying buffer.") c)))
      as (c' & -> & Ht & He & Hs & Hf).
    exists c'. split; [f_equal; f_equal; f_equal; cbn [List.length]; lia|].
    split; [done|]. split; [done|]. split; [done|].
    rewrite Hf. cbn. rewrite <- !app_assoc. done.
Qed.

Lemma drain_running frames : forall i c,
  UI2210MGL.drain (List.map Some frames) i c = None.
Proof. induction frames as [|f frames IH]; intros i c; [done|]. cbn. apply IH. Qed.

(** X20. The shutdown part of [onMain]. While [readFrame] keeps returning
    frames the second loop is still running. When it returns the frames
    left in the buffer and then null, [onMain] returns: after
    [stopCapture], each frame is saved to the log folder, the number
    logged is the number of frames saved, [stopAndJoin] is called, and the
    final [delete] is given the null pointer. *)
Theorem shutdown_drains_and_counts
  (passes : list UI2210MGL.Pass) (frames : list UI2210MGL.Frame) (more : list (option UI2210MGL.Frame))
  (c c1 : UI2210MGL.Camera) (h : Handle) :
  UI2210MGL.main_loop join passes c = Ok c1 ->
  UI2210MGL.m_capture (UI2210MGL.task c1) = Some h ->
  UI2210MGL.onMain join passes (List.map Some frames) c = None /\
  exists c2,
    UI2210MGL.onMain join passes (List.map Some frames ++ None :: more) c = Some (Ok c2) /\
    UI2210MGL.task c2 = UI2210MGL.task c1 /\
    UI2210MGL.effects c2
      = (UI2210MGL.effects c1
           ++ UI2210MGL.shutdown_effects (UI2210MGL.m_log_dir (UI2210MGL.task c1)) frames)%list.
Proof.
  intros Hloop Hc. unfold UI2210MGL.onMain. rewrite Hloop, Hc. split.
  - by rewrite drain_running.
  - destruct (drain_frames frames more (-1) (UI2210MGL.emit UI2210MGL.StopCapture c1))
      as (c' & -> & Ht & _ & _ & Hf).
    eexists. split; [reflexivity|]. split; [done|].
    cbn [UI2210MGL.emit UI2210MGL.effects]. rewrite Hf. unfold UI2210MGL.shutdown_effects.
    cbn [UI2210MGL.emit UI2210MGL.effects UI2210MGL.task].
    replace (-1 + Z.of_nat (List.length frames) + 1) with (Z.of_nat (List.length frames)) by lia.
    rewrite <- !app_assoc. done.
Qed.

Lemma pass_coherent k c :
  exists new,
    UI2210MGL.effects (UI2210MGL.final (UI2210MGL.pass join k c)) = (UI2210MGL.effects c ++ new)%list /\
    Forall UI2210MGL.coherent new /\
    UI2210MGL.m_capture (UI2210MGL.task (UI2210MGL.final (UI2210MGL.pass join k c)))
      = UI2210MGL.m_capture (UI2210MGL.task c) /\
    UI2210MGL.capture_calls (UI2210MGL.task (UI2210MGL.final (UI2210MGL.pass join k c)))
      = UI2210MGL.capture_calls (UI2210MGL.task c) /\
    (UI2210MGL.m_capture (UI2210MGL.task c) = None ->
     Forall (fun e => match e with UI2210MGL.ImWrite _ _ => False | _ => True end) new).
Proof.
  unfold UI2210MGL.pass.
  destruct (consumeMessages_spec join (UI2210MGL.ps_inbox k) c)
    as (_ & He & _ & Hc & _ & Hcc & _).
  remember (UI2210MGL.consumeMessages join (UI2210MGL.ps_inbox k) c) as c1 eqn:E. clear E.
  assert (Hdirs : forall l : list string,
            Forall UI2210MGL.coherent
              (List.map (fun n => UI2210MGL.CreateDirectory
                 (join (UI2210MGL.log_dir (UI2210MGL.m_args (UI2210MGL.task c))) n)) l) /\
            Forall (fun e => match e with UI2210MGL.ImWrite _ _ => False | _ => True end)
              (List.map (fun n => UI2210MGL.CreateDirectory
                 (join (UI2210MGL.log_dir (UI2210MGL.m_args (UI2210MGL.task c))) n)) l)).
  { induction l as [|n l [IH1 IH2]]; cbn [List.map]; split; constructor; done. }
  destruct (UI2210MGL.m_capture (UI2210MGL.task c1)) as [h|] eqn:Hc1.
  - destruct (UI2210MGL.ps_frame k) as [f|]; cbn [UI2210MGL.final].
    + eexists. split.
      { cbn [UI2210MGL.sendData UI2210MGL.saveImage UI2210MGL.emit UI2210MGL.with_image UI2210MGL.effects
               UI2210MGL.m_image_cv UI2210MGL.task].
        rewrite He, <- !app_assoc. reflexivity. }
      split.
      { apply Forall_app. split; [apply (proj1 (Hdirs _))|]. repeat constructor. by exists f. }
      split; [cbn; congruence|]. split; [cbn; congruence|].
      intros Hn. congruence.
    + eexists. split.
      { cbn [UI2210MGL.sendData UI2210MGL.saveImage UI2210MGL.emit UI2210MGL.with_image UI2210MGL.effects
               UI2210MGL.m_image_cv UI2210MGL.task].
        rewrite He, <- !app_assoc. reflexivity. }
      split.
      { apply Forall_app. split; [apply (proj1 (Hdirs _))|]. repeat constructor. }
      split; [cbn; congruence|]. split; [cbn; congruence|].
      intros Hn. congruence.
  - cbn [UI2210MGL.final]. eexists. split; [exact He|].
    split; [apply (proj1 (Hdirs _))|]. split; [congruence|]. split; [congruence|].
    intros _. apply (proj2 (Hdirs _)).
Qed.

(** X21. Every data report the first loop of [onMain] dispatches is cut
    from the image of the frame whose gain and time stamp it carries. The
    loop makes no call recorded on the capture object, and saves no image
    when there is no capture object. *)
Theorem reports_use_the_saved_frame (passes : list UI2210MGL.Pass) (c : UI2210MGL.Camera) :
  exists new,
    UI2210MGL.effects (UI2210MGL.final (UI2210MGL.main_loop join passes c)) = (UI2210MGL.effects c ++ new)%list /\
    Forall UI2210MGL.coherent new /\
    UI2210MGL.capture_calls (UI2210MGL.task (UI2210MGL.final (UI2210MGL.main_loop join passes c)))
      = UI2210MGL.capture_calls (UI2210MGL.task c) /\
    (UI2210MGL.m_capture (UI2210MGL.task c) = None ->
     Forall (fun e => match e with UI2210MGL.ImWrite _ _ => False | _ => True end) new).
Proof.
  revert c. induction passes as [|k passes IH]; intros c; cbn [UI2210MGL.main_loop].
  - exists []. cbn. rewrite app_nil_r. repeat split; try done; constructor.
  - destruct (pass_coherent k c) as (n1 & He1 & Hf1 & Hc1 & Hcc1 & Hn1).
    destruct (UI2210MGL.pass join k c) as [c1|e c1]; cbn [bind UI2210MGL.final] in *.
    + destruct (IH c1) as (n2 & He2 & Hf2 & Hcc2 & Hn2).
      exists (n1 ++ n2)%list. split; [by rewrite He2, He1, app_assoc|].
      split; [by apply Forall_app|]. split; [congruence|].
      intros Hn. apply Forall_app. split; [by apply Hn1|]. apply Hn2. congruence.
    + exists n1. done.
Qed.

End Camera.

(** ** The properties on the bench *)


Lemma write_commands_decode_uniquely_witness :
  is_Ok (AMC.setRPM 1 1200 bench_task) = true /\
  is_Ok (AMC.setRPM 1 1200 bench_task) = true /\
  AMC.line_after (AMC.setRPM 1 1200 bench_task) = AMC.line_after (AMC.setRPM 1 1200 bench_task) /\
  (1 = 1 /\ 1200 = 1200).
Proof.
  split; [vm_compute; reflexivity|].
  split; [vm_compute; reflexivity|].
  split; [reflexivity|].
  apply (write_commands_decode_uniquely
           1 1200 1 1200 bench_task);
    [vm_compute; reflexivity
    | vm_compute; reflexivity
    | reflexivity].
Defined.


Lemma read_requests_decode_uniquely_witness :
  is_Ok (AMC.readParameterAMC 2 AMC.PWR bench_task) = true /\
  is_Ok (AMC.readParameterAMC 2 AMC.PWR bench_task) = true /\
  ((wire (AMC.env (AMC.final (AMC.readParameterAMC 2 AMC.PWR bench_task)))
   = wire (AMC.env (AMC.final (AMC.readParameterAMC 2 AMC.PWR bench_task))) ->
   2 = 2 /\ AMC.PWR = AMC.PWR) /\
  (is_Ok (AMC.setRPM 2 0 bench_task) = true ->
   wire (AMC.env (AMC.final (AMC.readParameterAMC 2 AMC.PWR bench_task)))
   <> AMC.line_after (AMC.setRPM 2 0 bench_task))).
Proof.
  split; [vm_compute; reflexivity|].
  split; [vm_compute; reflexivity|].
  apply (read_requests_decode_uniquely
           2 2 0 AMC.PWR AMC.PWR bench_task);
    [vm_compute; reflexivity
    | vm_compute; reflexivity].
Defined.


Lemma ready_pass_feeds_parser_witness :
  AMC.main_phase bench_task = true /\
  fst (AMC.poll 500000 (tk_poll bench_reply) bench_task) = true /\
  (exists s h p,
    AMC.iteration bench_reply bench_task = Ok s /\ AMC.m_uart bench_task = Some h /\ AMC.m_parse bench_task = Some p /\
    AMC.m_parse s
      = Some (if Poll.wasTriggered h (Poll.poll (ev_ready (tk_poll bench_reply)) (AMC.m_poll bench_task))
              then match ev_read (tk_poll bench_reply) with ReadByte b => ParserAMC b p | _ => p end
              else p) /\
    AMC.m_rpm_val s = AMC.m_rpm_val bench_task /\ AMC.m_entity s = AMC.m_entity bench_task /\
    bus (AMC.env s) = bus (AMC.env bench_task) /\ wire (AMC.env s) = wire (AMC.env bench_task) /\
    clock (AMC.env s) = clock (AMC.env bench_task) + clamp 0 500000 (ev_elapsed (tk_poll bench_reply)) /\
    Counter.m_last (AMC.m_wdog s) = clock (AMC.env s)).
Proof.
  split; [vm_compute; reflexivity|].
  split; [vm_compute; reflexivity|].
  apply (ready_pass_feeds_parser
           bench_reply bench_task);
    [vm_compute; reflexivity
    | vm_compute; reflexivity].
Defined.

Lemma timeout_pass_reports_one_rpm_witness :
  AMC.main_phase bench_task = true /\
  fst (AMC.poll 500000 (tk_poll bench_tick) bench_task) = false /\
  exists s p eid o,
    AMC.iteration bench_tick bench_task = Ok s /\
    AMC.m_parse bench_task = Some p /\
    AMC.db_of bench_task !! AMC.label_of bench_task (Z.to_nat (AMC.m_cnt_motor bench_task))
      = Some (eid, o) /\
    AMC.m_parse s = Some p /\
    bus (AMC.env s)
      = (bus (AMC.env bench_task) ++
         [IMC.MRpm {| IMC.rpm_src := eid;
                      IMC.rpm_value
                        := IMC.to_int16 (m_motor_rpm p (AMC.m_cnt_motor bench_task)) |}])%list /\
    log (AMC.env s) = log (AMC.env bench_task) /\
    -32768 <= IMC.to_int16 (m_motor_rpm p (AMC.m_cnt_motor bench_task)) <= 32767 /\
    (-32768 <= m_motor_rpm p (AMC.m_cnt_motor bench_task) <= 32767 ->
     IMC.to_int16 (m_motor_rpm p (AMC.m_cnt_motor bench_task))
     = m_motor_rpm p (AMC.m_cnt_motor bench_task)).
Proof.
  split; [vm_compute; reflexivity|].
  split; [vm_compute; reflexivity|].
  apply (timeout_pass_reports_one_rpm bench_tick bench_task);
    [vm_compute; reflexivity | vm_compute; reflexivity].
Defined.

Lemma timeout_pass_duration_witness :
  AMC.main_phase bench_task = true /\
  fst (AMC.poll 500000 (tk_poll bench_flood) bench_task) = false /\
  exists s, AMC.iteration bench_flood bench_task = Ok s /\
    clock (AMC.env s)
      = clock (AMC.env bench_task) + 500000 + AMC.c_sleep_time + AMC.wait_of bench_flood
        + 2 * AMC.c_sleep_time
          * Z.of_nat (List.length (List.filter AMC.served (tk_inbox bench_flood))) /\
    Counter.m_last (AMC.m_wdog s) = clock (AMC.env s) /\
    750000 <= clock (AMC.env s) - clock (AMC.env bench_task)
      <= 1500000 + 500000 * Z.of_nat (List.length (tk_inbox bench_flood)).
Proof.
  split; [vm_compute; reflexivity|].
  split; [vm_compute; reflexivity|].
  apply (timeout_pass_duration bench_flood bench_task);
    [vm_compute; reflexivity | vm_compute; reflexivity].
Defined.


Lemma rpm_reports_share_slot_zero_witness :
  AMC.main_phase bench_task = true /\
  (let s := AMC.final (AMC.main_loop [bench_tick; bench_reply; AMC.silent] bench_task) in
  drop 1 (AMC.m_rpm_val s) = drop 1 (AMC.m_rpm_val bench_task) /\
  List.length (AMC.m_rpm_val s) = List.length (AMC.m_rpm_val bench_task) /\
  AMC.m_entity s = AMC.m_entity bench_task /\
  exists rs, bus (AMC.env s) = (bus (AMC.env bench_task) ++ AMC.rpm_reports rs)%list /\
    (List.length rs <= List.length [bench_tick; bench_reply; AMC.silent])%nat).
Proof.
  split; [vm_compute; reflexivity|].
  apply (rpm_reports_share_slot_zero
           [bench_tick; bench_reply; AMC.silent] bench_task);
    [vm_compute; reflexivity].
Defined.

Lemma checkStateMotor_reports_faulty_motors_witness :
  AMC.m_uart bench_task = Some 1%positive /\
  AMC.m_parse bench_task = Some (@MessageParse_new bench) /\
  (exists s bytes lines,
    AMC.checkStateMotor (fun _ => quiet) bench_task = Ok s /\
    AMC.m_parse s = Some (AMC.feed bytes (@MessageParse_new bench)) /\ (List.length bytes <= 4)%nat /\
    wire (AMC.env s) = (wire (AMC.env bench_task) ++ AMC.state_requests (P:=bench) 0 4)%list /\
    log (AMC.env s)
      = (log (AMC.env bench_task) ++ lines ++ List.map AMC.motor_warning (AMC.faulty (AMC.feed bytes (@MessageParse_new bench))))%list /\
    AMC.m_entity s
      = (if bool_decide (AMC.faulty (AMC.feed bytes (@MessageParse_new bench)) = []) then AMC.m_entity bench_task
         else fst (Entity.setState_message IMC.ESTA_ERROR "AMC Motor" (AMC.m_entity bench_task))) /\
    bus (AMC.env s)
      = (bus (AMC.env bench_task) ++
         if bool_decide (AMC.faulty (AMC.feed bytes (@MessageParse_new bench)) = []) then []
         else snd (Entity.setState_message IMC.ESTA_ERROR "AMC Motor" (AMC.m_entity bench_task)))%list /\
    clock (AMC.env bench_task) + 1000000 <= clock (AMC.env s) <= clock (AMC.env bench_task) + 3000000 /\
    AMC.m_uart s = Some 1%positive /\ AMC.m_name s = AMC.m_name bench_task /\ AMC.m_args s = AMC.m_args bench_task /\
    AMC.m_wdog s = AMC.m_wdog bench_task /\ AMC.m_cnt_motor s = AMC.m_cnt_motor bench_task /\
    AMC.m_rpm_val s = AMC.m_rpm_val bench_task /\
    Poll.handles (AMC.m_poll s) = Poll.handles (AMC.m_poll bench_task) /\
    heap (AMC.env s) = heap (AMC.env bench_task) /\ entities (AMC.env s) = entities (AMC.env bench_task)).
Proof.
  split; [vm_compute; reflexivity|].
  split; [vm_compute; reflexivity|].
  apply (checkStateMotor_reports_faulty_motors
           (fun _ => quiet) bench_task 1%positive (@MessageParse_new bench));
    [vm_compute; reflexivity
    | vm_compute; reflexivity].
Defined.

Lemma motor_labels_source_rpm_messages_witness :
  (1%nat < 4)%nat /\
  AMC.m_rpm_val bench_ready !! 1%nat = Some {| IMC.rpm_src := 255; IMC.rpm_value := 0 |} /\
  (AMC.onUpdateParameters bench_ready = AMC.set_rpm_val (AMC.m_rpm_val (AMC.onUpdateParameters bench_ready)) bench_ready /\
  exists r', AMC.m_rpm_val (AMC.onUpdateParameters bench_ready) !! 1%nat = Some r' /\
    IMC.rpm_value r' = IMC.rpm_value {| IMC.rpm_src := 255; IMC.rpm_value := 0 |} /\
    if String.eqb (AMC.label_of bench_ready 1%nat) "" then r' = {| IMC.rpm_src := 255; IMC.rpm_value := 0 |}
    else match AMC.db_of bench_ready !! AMC.label_of bench_ready 1%nat with
         | Some (eid, _) => IMC.rpm_src r' = eid
         | None =>
             match 1%nat with
             | O => IMC.rpm_src r' = 0
             | S j => match AMC.db_of bench_ready !! AMC.label_of bench_ready j with
                      | Some (eid, _) => IMC.rpm_src r' = eid
                      | None => True
                      end
             end
         end).
Proof.
  split; [lia|].
  split; [vm_compute; reflexivity|].
  apply (motor_labels_source_rpm_messages
           bench_ready 1%nat {| IMC.rpm_src := 255; IMC.rpm_value := 0 |});
    [lia
    | vm_compute; reflexivity].
Defined.


Lemma named_folder_lost_on_update_witness :
  UI2210MGL.m_capture (UI2210MGL.task bench_host) = Some 1%positive /\
  UI2210MGL.m_starting (UI2210MGL.task bench_host) = false /\
  UI2210MGL.accepted (Entity.isActivating (UI2210MGL.entity bench_host)) (UI2210MGL.system_id bench_host) bench_name = true /\
  (let base := UI2210MGL.log_dir (UI2210MGL.m_args (UI2210MGL.task bench_host)) in
  UI2210MGL.m_log_dir (UI2210MGL.task (UI2210MGL.consume bench_join bench_name bench_host)) = bench_join base (UI2210MGL.name bench_name) /\
  (exists t', UI2210MGL.onUpdateParameters (UI2210MGL.task (UI2210MGL.consume bench_join bench_name bench_host)) = Ok t' /\
     UI2210MGL.m_log_dir t' = base) /\
  (exists t', UI2210MGL.onUpdateParameters (UI2210MGL.task bench_host) = Ok t' /\
     UI2210MGL.m_log_dir (UI2210MGL.task (UI2210MGL.consume bench_join bench_name (UI2210MGL.with_task t' bench_host)))
       = bench_join base (UI2210MGL.name bench_name))).
Proof.
  split; [reflexivity|].
  split; [reflexivity|].
  split; [reflexivity|].
  apply (named_folder_lost_on_update
           bench_join bench_name bench_host 1%positive);
    [reflexivity
    | reflexivity
    | reflexivity].
Defined.

Lemma shutdown_drains_and_counts_witness :
  let c1 := UI2210MGL.final (UI2210MGL.main_loop bench_join bench_passes bench_host) in
  UI2210MGL.main_loop bench_join bench_passes bench_host = Ok c1 /\
  UI2210MGL.m_capture (UI2210MGL.task c1) = Some 1%positive /\
  UI2210MGL.onMain bench_join bench_passes
    (List.map Some [bench_frame 2; bench_frame 3]) bench_host = None /\
  exists c2,
    UI2210MGL.onMain bench_join bench_passes
      (List.map Some [bench_frame 2; bench_frame 3] ++ None :: []) bench_host = Some (Ok c2) /\
    UI2210MGL.task c2 = UI2210MGL.task c1 /\
    UI2210MGL.effects c2
      = (UI2210MGL.effects c1
           ++ UI2210MGL.shutdown_effects (UI2210MGL.m_log_dir (UI2210MGL.task c1))
                [bench_frame 2; bench_frame 3])%list.
Proof.
  intros c1.
  assert (H1 : UI2210MGL.main_loop bench_join bench_passes bench_host = Ok c1)
    by reflexivity.
  assert (H2 : UI2210MGL.m_capture (UI2210MGL.task c1) = Some 1%positive) by reflexivity.
  split; [exact H1|]. split; [exact H2|].
  exact (shutdown_drains_and_counts bench_join bench_passes [bench_frame 2; bench_frame 3] []
           bench_host c1 1%positive H1 H2).
Defined.
